(** * Silhouette Dual View (Front+Right): the add-on's operators over a model
      of the host's object graph

    The add-on ([src/__init__.py]) is a sequence of attribute assignments on
    host objects (windows, screens, areas, spaces) and of calls to host
    operators ([bpy.ops...]), wrapped in [try]/[except].  The embedding keeps
    that shape:

    - host objects live in stores indexed by references; reading through a
      reference whose object the host has removed raises;
    - an attribute assignment is a store update that raises when the object
      or a sub-object on the path is missing;
    - host operators, context overrides and timer registration are not part of
      the repository: they are the fields of a [Host] record that every
      function takes, and a call that raises leaves the world as it was;
    - every function is a computation in a state-and-exception monad [Py];
      the state also records the host calls, reports and timer registrations
      the add-on made, in order. *)

From Stdlib Require Import ZArith List String Bool Lia Floats Permutation.
Import ListNotations.
Set Warnings "-inexact-float".

(** ** Python values *)

Definition VIEW_3D : string := "VIEW_3D"%string.
Definition WINDOW : string := "WINDOW"%string.
Definition OBJECT : string := "OBJECT"%string.
Definition ORTHO : string := "ORTHO"%string.
Definition FRONT : string := "FRONT"%string.
Definition RIGHT : string := "RIGHT"%string.
Definition HORIZONTAL : string := "HORIZONTAL"%string.
Definition VERTICAL : string := "VERTICAL"%string.
Definition SOLID : string := "SOLID"%string.
Definition FLAT : string := "FLAT"%string.
Definition SINGLE : string := "SINGLE"%string.
Definition VIEWPORT : string := "VIEWPORT"%string.
Definition ERROR : string := "ERROR"%string.

(** [int(n * 0.25)] and [int(n * 0.5)] for an integer [n]: the product with a
    power of two is exact in binary64 (for [|n| < 2^53], far above any pixel
    count) and [int] truncates toward zero. *)
Definition int_mul_quarter (n : Z) : Z := Z.quot n 4.
Definition int_mul_half (n : Z) : Z := Z.quot n 2.

(** The operators' return sets. *)
Inductive OperatorResult := FINISHED | CANCELLED.

(** ** Host objects *)

Definition WindowRef := nat.
Definition ScreenRef := nat.
Definition AreaRef := nat.
Definition SpaceRef := nat.
Definition ObjectRef := nat.

Record Region := { region_id : nat; region_type : string }.

Definition Color := (float * float * float)%type.

Record Shading := {
  shading_type : string;
  shading_light : string;
  shading_color_type : string;
  shading_single_color : Color;
  shading_background_type : string;
  shading_background_color : Color }.

Record Quaternion := { quat_w : float; quat_x : float; quat_y : float; quat_z : float }.

(** Iterating a quaternion yields its four components. *)
Definition quat_iter (q : Quaternion) : list float :=
  [quat_w q; quat_x q; quat_y q; quat_z q].

Record RegionView3D := {
  view_perspective : string;
  view_rotation : Quaternion;
  view_distance : float }.

Inductive SpaceFlag :=
| show_region_header | show_region_tool_header | show_region_toolbar
| show_region_ui | show_region_hud | show_gizmo | show_gizmo_navigate.

Definition SpaceFlag_eqb (f g : SpaceFlag) : bool :=
  match f, g with
  | show_region_header, show_region_header
  | show_region_tool_header, show_region_tool_header
  | show_region_toolbar, show_region_toolbar
  | show_region_ui, show_region_ui
  | show_region_hud, show_region_hud
  | show_gizmo, show_gizmo
  | show_gizmo_navigate, show_gizmo_navigate => true
  | _, _ => false
  end.

(** A space.  A flag the space does not expose is [None] (assigning it raises
    [AttributeError]); so are [shading], [overlay] and [region_3d] on a space
    that has none. *)
Record Space := {
  space_flag : SpaceFlag -> option bool;
  space_shading : option Shading;
  space_show_overlays : option bool;
  space_region_3d : option RegionView3D }.

Record Area := {
  area_type : string;
  area_ui_type : string;
  area_x : Z;
  area_y : Z;
  area_width : Z;
  area_height : Z;
  area_regions : list Region;
  area_spaces_active : option SpaceRef;
  area_redraw_tagged : bool }.

Record Screen := { screen_areas : list AreaRef; show_statusbar : bool }.

(** A window; [None] for an attribute the object lacks ([getattr] then takes
    its default). *)
Record Window := {
  window_width : option Z;
  window_height : option Z;
  window_x : option Z;
  window_y : option Z;
  window_screen : option ScreenRef }.

(** [bpy.context] / the [context] argument of the operators. *)
Record Context := {
  context_mode : string;
  context_window : option WindowRef;
  context_screen : option ScreenRef;
  context_area : option AreaRef;
  context_active_object : option ObjectRef }.

Definition Store (A : Type) := nat -> option A.

Definition store_set {A} (m : Store A) (k : nat) (v : A) : Store A :=
  fun j => if Nat.eqb j k then Some v else m j.

(** The host's state: the object graph, the current context, and whatever the
    host keeps outside it (files, preferences), which the add-on never names. *)
Record World := {
  windows : Store Window;
  screens : Store Screen;
  areas : Store Area;
  spaces : Store Space;
  context : Context;
  persistent : list (string * string) }.

(** ** Attribute assignments

    Every assignment the add-on makes names one attribute of one host object.
    [do_assign] is the store update; it is undefined ([None], an exception in
    Python) when the object has been removed or a sub-object on the attribute
    path is missing. *)

Inductive AreaAttr :=
| attr_type (v : string)
| attr_ui_type (v : string)
| attr_tag_redraw.

Inductive ShadingAttr :=
| attr_sh_type (v : string)
| attr_sh_light (v : string)
| attr_sh_color_type (v : string)
| attr_sh_single_color (c : Color)
| attr_sh_background_type (v : string)
| attr_sh_background_color (c : Color).

Inductive View3DAttr :=
| attr_view_perspective (v : string)
| attr_view_rotation (q : Quaternion)
| attr_view_distance (d : float).

Inductive SpaceAttr :=
| attr_flag (f : SpaceFlag) (b : bool)
| attr_shading (x : ShadingAttr)
| attr_show_overlays (b : bool)
| attr_region_3d (x : View3DAttr).

Inductive WindowAttr :=
| attr_width (v : Z)
| attr_height (v : Z)
| attr_x (v : Z)
| attr_y (v : Z).

Inductive Assign :=
| assign_area (a : AreaRef) (x : AreaAttr)
| assign_space (sp : SpaceRef) (x : SpaceAttr)
| assign_window (w : WindowRef) (x : WindowAttr)
| assign_show_statusbar (scr : ScreenRef) (b : bool).

Definition area_setattr (x : AreaAttr) (a : Area) : Area :=
  match x with
  | attr_type v =>
      {| area_type := v; area_ui_type := area_ui_type a; area_x := area_x a;
         area_y := area_y a; area_width := area_width a; area_height := area_height a;
         area_regions := area_regions a; area_spaces_active := area_spaces_active a;
         area_redraw_tagged := area_redraw_tagged a |}
  | attr_ui_type v =>
      {| area_type := area_type a; area_ui_type := v; area_x := area_x a;
         area_y := area_y a; area_width := area_width a; area_height := area_height a;
         area_regions := area_regions a; area_spaces_active := area_spaces_active a;
         area_redraw_tagged := area_redraw_tagged a |}
  | attr_tag_redraw =>
      {| area_type := area_type a; area_ui_type := area_ui_type a; area_x := area_x a;
         area_y := area_y a; area_width := area_width a; area_height := area_height a;
         area_regions := area_regions a; area_spaces_active := area_spaces_active a;
         area_redraw_tagged := true |}
  end.

Definition shading_setattr (x : ShadingAttr) (s : Shading) : Shading :=
  match x with
  | attr_sh_type v =>
      {| shading_type := v; shading_light := shading_light s;
         shading_color_type := shading_color_type s;
         shading_single_color := shading_single_color s;
         shading_background_type := shading_background_type s;
         shading_background_color := shading_background_color s |}
  | attr_sh_light v =>
      {| shading_type := shading_type s; shading_light := v;
         shading_color_type := shading_color_type s;
         shading_single_color := shading_single_color s;
         shading_background_type := shading_background_type s;
         shading_background_color := shading_background_color s |}
  | attr_sh_color_type v =>
      {| shading_type := shading_type s; shading_light := shading_light s;
         shading_color_type := v;
         shading_single_color := shading_single_color s;
         shading_background_type := shading_background_type s;
         shading_background_color := shading_background_color s |}
  | attr_sh_single_color c =>
      {| shading_type := shading_type s; shading_light := shading_light s;
         shading_color_type := shading_color_type s;
         shading_single_color := c;
         shading_background_type := shading_background_type s;
         shading_background_color := shading_background_color s |}
  | attr_sh_background_type v =>
      {| shading_type := shading_type s; shading_light := shading_light s;
         shading_color_type := shading_color_type s;
         shading_single_color := shading_single_color s;
         shading_background_type := v;
         shading_background_color := shading_background_color s |}
  | attr_sh_background_color c =>
      {| shading_type := shading_type s; shading_light := shading_light s;
         shading_color_type := shading_color_type s;
         shading_single_color := shading_single_color s;
         shading_background_type := shading_background_type s;
         shading_background_color := c |}
  end.

Definition view3d_setattr (x : View3DAttr) (r : RegionView3D) : RegionView3D :=
  match x with
  | attr_view_perspective v =>
      {| view_perspective := v; view_rotation := view_rotation r;
         view_distance := view_distance r |}
  | attr_view_rotation q =>
      {| view_perspective := view_perspective r; view_rotation := q;
         view_distance := view_distance r |}
  | attr_view_distance d =>
      {| view_perspective := view_perspective r; view_rotation := view_rotation r;
         view_distance := d |}
  end.

Definition space_setattr (x : SpaceAttr) (sp : Space) : option Space :=
  match x with
  | attr_flag f b =>
      match space_flag sp f with
      | Some _ =>
          Some {| space_flag := fun g => if SpaceFlag_eqb g f then Some b else space_flag sp g;
                  space_shading := space_shading sp;
                  space_show_overlays := space_show_overlays sp;
                  space_region_3d := space_region_3d sp |}
      | None => None
      end
  | attr_shading y =>
      match space_shading sp with
      | Some sh =>
          Some {| space_flag := space_flag sp;
                  space_shading := Some (shading_setattr y sh);
                  space_show_overlays := space_show_overlays sp;
                  space_region_3d := space_region_3d sp |}
      | None => None
      end
  | attr_show_overlays b =>
      match space_show_overlays sp with
      | Some _ =>
          Some {| space_flag := space_flag sp;
                  space_shading := space_shading sp;
                  space_show_overlays := Some b;
                  space_region_3d := space_region_3d sp |}
      | None => None
      end
  | attr_region_3d y =>
      match space_region_3d sp with
      | Some r =>
          Some {| space_flag := space_flag sp;
                  space_shading := space_shading sp;
                  space_show_overlays := space_show_overlays sp;
                  space_region_3d := Some (view3d_setattr y r) |}
      | None => None
      end
  end.

Definition window_setattr (x : WindowAttr) (w : Window) : Window :=
  match x with
  | attr_width v =>
      {| window_width := Some v; window_height := window_height w;
         window_x := window_x w; window_y := window_y w; window_screen := window_screen w |}
  | attr_height v =>
      {| window_width := window_width w; window_height := Some v;
         window_x := window_x w; window_y := window_y w; window_screen := window_screen w |}
  | attr_x v =>
      {| window_width := window_width w; window_height := window_height w;
         window_x := Some v; window_y := window_y w; window_screen := window_screen w |}
  | attr_y v =>
      {| window_width := window_width w; window_height := window_height w;
         window_x := window_x w; window_y := Some v; window_screen := window_screen w |}
  end.

Definition with_areas (m : Store Area) (w : World) : World :=
  {| windows := windows w; screens := screens w; areas := m; spaces := spaces w;
     context := context w; persistent := persistent w |}.
Definition with_spaces (m : Store Space) (w : World) : World :=
  {| windows := windows w; screens := screens w; areas := areas w; spaces := m;
     context := context w; persistent := persistent w |}.
Definition with_windows (m : Store Window) (w : World) : World :=
  {| windows := m; screens := screens w; areas := areas w; spaces := spaces w;
     context := context w; persistent := persistent w |}.
Definition with_screens (m : Store Screen) (w : World) : World :=
  {| windows := windows w; screens := m; areas := areas w; spaces := spaces w;
     context := context w; persistent := persistent w |}.

Definition do_assign (g : Assign) (w : World) : option World :=
  match g with
  | assign_area a x =>
      match areas w a with
      | Some o => Some (with_areas (store_set (areas w) a (area_setattr x o)) w)
      | None => None
      end
  | assign_space sp x =>
      match spaces w sp with
      | Some o =>
          match space_setattr x o with
          | Some o' => Some (with_spaces (store_set (spaces w) sp o') w)
          | None => None
          end
      | None => None
      end
  | assign_window r x =>
      match windows w r with
      | Some o => Some (with_windows (store_set (windows w) r (window_setattr x o)) w)
      | None => None
      end
  | assign_show_statusbar scr b =>
      match screens w scr with
      | Some o =>
          Some (with_screens
                  (store_set (screens w) scr
                     {| screen_areas := screen_areas o; show_statusbar := b |}) w)
      | None => None
      end
  end.

(** ** The host interface *)

(** The keyword arguments of [bpy.context.temp_override], and the dictionary
    that [_override] builds; an absent key is [None]. *)
Record Override := {
  ov_window : option WindowRef;
  ov_screen : option ScreenRef;
  ov_area : option AreaRef;
  ov_region : option Region }.

(** The context an operator is called in: the current one, the one a
    [with bpy.context.temp_override(...)] block installed, or a dictionary
    passed as the operator's first positional argument. *)
Inductive CallCtx :=
| ctx_current
| ctx_temp (ov : Override)
| ctx_dict (ov : Override).

(** The host operators the add-on calls, with their keyword arguments
    ([None] for an argument the call leaves out). *)
Inductive Operator :=
| wm_window_new
| screen_area_split (direction : string) (factor : option float) (cursor : option (Z * Z))
| view3d_viewnumpad (type : string) (align_active : option bool)
| view3d_view_axis (type : string) (align_active : option bool)
| view3d_view_selected (use_all_regions : bool).

(** The two callbacks the operators hand to [bpy.app.timers.register], with
    the variables each closure captures. *)
Inductive Timer :=
| timer_deferred_setup (new_win : option WindowRef)
| timer_post_fix (win : option WindowRef)
    (left_top : AreaRef) (reg_top : Region) (left_bottom : AreaRef) (reg_bottom : Region).

(** What the host does, as far as the add-on can observe it.  [None] and
    [false] stand for a raised exception. *)
Record Host := {
  bpy_ops : CallCtx -> Operator -> World -> option World;
  temp_override : Override -> World -> bool;
  timers_register : Timer -> float -> World -> bool;
  (** whether [win.<attr> = v] is accepted for a window's width, height, x
      and y; a host that keeps such an attribute read-only raises *)
  window_writable : WindowRef -> WindowAttr -> World -> bool;
  (** [mathutils.Quaternion((w, x, y, z))] and the operator [@] on quaternions *)
  mathutils_Quaternion : float * float * float * float -> Quaternion;
  quat_matmul : Quaternion -> Quaternion -> Quaternion }.

(** ** What a run leaves behind *)

Inductive Action :=
| act_call (ctx : CallCtx) (op : Operator) (pre : World) (ok : bool)
| act_report (level : string) (message : string)
| act_timer (t : Timer) (first_interval : float).

Record State := { world : World; trace : list Action }.

Definition with_world (w : World) (s : State) : State :=
  {| world := w; trace := trace s |}.
Definition with_action (a : Action) (s : State) : State :=
  {| world := world s; trace := trace s ++ [a] |}.

(** ** The monad of Python computations *)

Inductive Outcome (A : Type) :=
| Return (a : A)
| Raise.
Arguments Return {A} a.
Arguments Raise {A}.

Definition Py (A : Type) := State -> Outcome A * State.

Definition ret {A} (a : A) : Py A := fun s => (Return a, s).
Definition raise {A} : Py A := fun s => (Raise, s).
Definition bind {A B} (m : Py A) (k : A -> Py B) : Py B :=
  fun s => match m s with
           | (Return a, s1) => k a s1
           | (Raise, s1) => (Raise, s1)
           end.
(** [try: m except Exception: h] *)
Definition try_except {A} (m : Py A) (h : Py A) : Py A :=
  fun s => match m s with
           | (Return a, s1) => (Return a, s1)
           | (Raise, s1) => h s1
           end.

Declare Scope py_scope.
Delimit Scope py_scope with py.
Notation "x <- m ;; k" := (bind m (fun x => k))
  (at level 61, m at next level, right associativity) : py_scope.
Notation "m ;; k" := (bind m (fun _ => k))
  (at level 61, right associativity) : py_scope.
Notation "'try_' m 'except_' h" := (try_except m h)
  (at level 60, m at level 61, h at level 61) : py_scope.
Open Scope py_scope.

(** [try: m except Exception: pass] *)
Definition try_pass (m : Py unit) : Py unit := try_ m except_ ret tt.

(** Attribute access on a value that may be [None]. *)
Definition not_None {A} (o : option A) : Py A :=
  match o with Some a => ret a | None => raise end.

Definition get_world : Py World := fun s => (Return (world s), s).

(** Reading through a reference: the object, or [ReferenceError] when the
    host has removed it. *)
Definition the_window (r : WindowRef) : Py Window := w <- get_world ;; not_None (windows w r).
Definition the_screen (r : ScreenRef) : Py Screen := w <- get_world ;; not_None (screens w r).
Definition the_area (r : AreaRef) : Py Area := w <- get_world ;; not_None (areas w r).
Definition the_space (r : SpaceRef) : Py Space := w <- get_world ;; not_None (spaces w r).

(** [obj.attr = v] *)
Definition setattr (g : Assign) : Py unit :=
  fun s => match do_assign g (world s) with
           | Some w => (Return tt, with_world w s)
           | None => (Raise, s)
           end.

(** [self.report({level}, message)] *)
Definition report (level message : string) : Py unit :=
  fun s => (Return tt, with_action (act_report level message) s).

(** [for x in l: if test(x): found = x; break] *)
Fixpoint for_first {A} (test : A -> Py bool) (l : list A) : Py (option A) :=
  match l with
  | [] => ret None
  | x :: l' => b <- test x ;; if b then ret (Some x) else for_first test l'
  end.

(** [[f(x) for x in l]] *)
Fixpoint for_each {A B} (f : A -> Py B) (l : list A) : Py (list B) :=
  match l with
  | [] => ret []
  | x :: l' => y <- f x ;; ys <- for_each f l' ;; ret (y :: ys)
  end.

Section WithHost.

Variable host : Host.

(** [bpy.ops.<op>(...)] in context [ctx]: the call is recorded with the world
    it was made in; it either succeeds and leaves a new world, or raises. *)
Definition call (ctx : CallCtx) (op : Operator) : Py unit :=
  fun s => match bpy_ops host ctx op (world s) with
           | Some w => (Return tt, with_world w (with_action (act_call ctx op (world s) true) s))
           | None => (Raise, with_action (act_call ctx op (world s) false) s)
           end.

(** Entering [with bpy.context.temp_override(...)]. *)
Definition enter_override (ov : Override) : Py unit :=
  fun s => if temp_override host ov (world s) then (Return tt, s) else (Raise, s).

(** [bpy.app.timers.register(f, first_interval=t)] *)
Definition register_timer (t : Timer) (first_interval : float) : Py unit :=
  fun s => if timers_register host t first_interval (world s)
           then (Return tt, with_action (act_timer t first_interval) s)
           else (Raise, s).

(** ** Reading attributes *)

(** [area.<attr>] *)
Definition getattr_area {A} (f : Area -> A) (area : AreaRef) : Py A :=
  a <- the_area area ;; ret (f a).

(** [area.spaces.active], as the target of a further attribute access. *)
Definition spaces_active (area : AreaRef) : Py SpaceRef :=
  sp <- getattr_area area_spaces_active area ;; not_None sp.

(** [getattr(win, 'screen', None)] *)
Definition getattr_screen (win : option WindowRef) : Py (option ScreenRef) :=
  match win with
  | None => ret None
  | Some r => wo <- the_window r ;; ret (window_screen wo)
  end.

(** [getattr(win, '<attr>', default)] for the window's geometry. *)
Definition getattr_window (f : Window -> option Z) (win : option WindowRef) (default : Z)
  : Py Z :=
  match win with
  | None => ret default
  | Some r => wo <- the_window r ;;
              ret (match f wo with Some v => v | None => default end)
  end.

(** [win.<attr> = v] and [space.<attr> = v] on a variable that may hold
    [None]; the host may refuse the former. *)
Definition setattr_window (win : option WindowRef) (x : WindowAttr) : Py unit :=
  r <- not_None win ;;
  w <- get_world ;;
  if window_writable host r x w then setattr (assign_window r x) else raise.
Definition setattr_space (space : option SpaceRef) (x : SpaceAttr) : Py unit :=
  sp <- not_None space ;; setattr (assign_space sp x).

(** [win.screen.show_statusbar = b] *)
Definition set_show_statusbar (win : option WindowRef) (b : bool) : Py unit :=
  r <- not_None win ;; wo <- the_window r ;; scr <- not_None (window_screen wo) ;;
  setattr (assign_show_statusbar scr b).

(** [list(screen.areas)] *)
Definition list_screen_areas (scr : option ScreenRef) : Py (list AreaRef) :=
  r <- not_None scr ;; so <- the_screen r ;; ret (screen_areas so).

(** [a in l] / [a not in l] on references. *)
Definition py_in (a : nat) (l : list nat) : bool := existsb (Nat.eqb a) l.

(** [next((r for r in area.regions if r.type == 'WINDOW'), None)] *)
Definition is_WINDOW (r : Region) : bool := String.eqb (region_type r) WINDOW.
Definition next_window_region (area : AreaRef) : Py (option Region) :=
  regs <- getattr_area area_regions area ;; ret (find is_WINDOW regs).

(** [for x in l: body(x)] *)
Fixpoint for_in {A} (l : list A) (body : A -> Py unit) : Py unit :=
  match l with
  | [] => ret tt
  | x :: l' => body x ;; for_in l' body
  end.

(** [[x for x in l if test(x)]] *)
Fixpoint filter_m {A} (test : A -> Py bool) (l : list A) : Py (list A) :=
  match l with
  | [] => ret []
  | x :: l' => b <- test x ;; r <- filter_m test l' ;; ret (if b then x :: r else r)
  end.

(** [sorted(l, key=...)]: a stable sort; [le k1 k2] compares two keys.  With
    [reverse=True] the order of the keys is flipped and equal keys still keep
    their original order. *)
Fixpoint insert_sorted {A K} (le : K -> K -> bool) (x : A * K) (l : list (A * K))
  : list (A * K) :=
  match l with
  | [] => [x]
  | y :: l' => if le (snd x) (snd y) then x :: y :: l' else y :: insert_sorted le x l'
  end.
Definition sorted {A K} (le : K -> K -> bool) (l : list (A * K)) : list A :=
  map fst (fold_right (insert_sorted le) [] l).

(** [max(l, key=...)]: the first element with the greatest key. *)
Fixpoint max_by_key {A} (best : A * Z) (l : list (A * Z)) : A :=
  match l with
  | [] => fst best
  | y :: l' => max_by_key (if Z.ltb (snd best) (snd y) then y else best) l'
  end.

(** Tuples compare lexicographically. *)
Definition pair_leb (p q : Z * Z) : bool :=
  Z.ltb (fst p) (fst q) || (Z.eqb (fst p) (fst q) && Z.leb (snd p) (snd q)).

(** ** Helpers ([src/__init__.py], lines 17-150) *)

(** [_find_window_view3d_area]: the two loops stand in one [try] in the source;
    an exception in the first leaves both results [None] and an exception in
    the second leaves the area found, which is what two handlers in a row
    return, the reads changing nothing. *)
Definition _find_window_view3d_area (win : option WindowRef)
  : Py (option AreaRef * option Region) :=
  area_view3d <-
    (try_ (r <- not_None win ;; wo <- the_window r ;;
           scr <- not_None (window_screen wo) ;; so <- the_screen scr ;;
           for_first (fun area => t <- getattr_area area_type area ;;
                                  ret (String.eqb t VIEW_3D))
                     (screen_areas so))
     except_ ret None) ;;
  region_window <-
    (try_ (match area_view3d with
           | Some a => regs <- getattr_area area_regions a ;; ret (find is_WINDOW regs)
           | None => ret None
           end)
     except_ ret None) ;;
  ret (area_view3d, region_window).

Definition _override (win : option WindowRef) (area : option AreaRef)
  (region : option Region) : Override :=
  {| ov_window := win; ov_screen := None; ov_area := area; ov_region := region |}.

Definition _apply_view_axis (win : option WindowRef) (area : AreaRef) (region : Region)
  (axis : string) : Py unit :=
  (* Force ORTHO first *)
  try_pass (sp <- spaces_active area ;;
            setattr (assign_space sp (attr_region_3d (attr_view_perspective ORTHO)))) ;;
  (try_ (screen <- getattr_screen win ;;
         let ov := {| ov_window := win; ov_screen := screen;
                      ov_area := Some area; ov_region := Some region |} in
         enter_override ov ;;
         try_ call (ctx_temp ov) (view3d_viewnumpad axis (Some false))
         except_ (try_ call (ctx_temp ov) (view3d_view_axis axis (Some false))
                  except_ call (ctx_temp ov) (view3d_view_axis axis None)))
   except_
     (* Last resort: try legacy override *)
     (let ov := _override None (Some area) (Some region) in
      try_ call (ctx_dict ov) (view3d_viewnumpad axis (Some false))
      except_ (try_ call (ctx_dict ov) (view3d_view_axis axis (Some false))
               except_ (try_pass (call (ctx_dict ov) (view3d_view_axis axis None)))))) ;;
  (* Lock in the resulting quaternion *)
  try_pass (sp <- spaces_active area ;; so <- the_space sp ;;
            r <- not_None (space_region_3d so) ;;
            let q := view_rotation r in
            sp' <- spaces_active area ;;
            setattr (assign_space sp' (attr_region_3d (attr_view_rotation q)))).

(** The seven assignments of lines 138-144, 294-300 and 441-447. *)
Definition hide_ui (space : option SpaceRef) : Py unit :=
  setattr_space space (attr_flag show_region_header false) ;;
  setattr_space space (attr_flag show_region_tool_header false) ;;
  setattr_space space (attr_flag show_region_toolbar false) ;;
  setattr_space space (attr_flag show_region_ui false) ;;
  setattr_space space (attr_flag show_gizmo false) ;;
  setattr_space space (attr_flag show_gizmo_navigate false) ;;
  setattr_space space (attr_show_overlays false).

Definition _configure_silhouette_area (win : option WindowRef) (area : AreaRef)
  (region : Region) (axis : string) : Py unit :=
  try_pass (setattr (assign_area area (attr_type VIEW_3D))) ;;
  try_pass (setattr (assign_area area (attr_ui_type VIEW_3D))) ;;
  space <- getattr_area area_spaces_active area ;;
  (* Silhouette styling *)
  try_pass (sp <- not_None space ;; so <- the_space sp ;; _ <- not_None (space_shading so) ;;
            let sh := assign_space sp in
            setattr (sh (attr_shading (attr_sh_type SOLID))) ;;
            setattr (sh (attr_shading (attr_sh_light FLAT))) ;;
            setattr (sh (attr_shading (attr_sh_color_type SINGLE))) ;;
            setattr (sh (attr_shading (attr_sh_single_color (0.0, 0.0, 0.0)%float))) ;;
            setattr (sh (attr_shading (attr_sh_background_type VIEWPORT))) ;;
            setattr (sh (attr_shading (attr_sh_background_color (1.0, 1.0, 1.0)%float)))) ;;
  (* Hide UI & overlays/gizmos *)
  try_pass (setattr_space space (attr_flag show_region_header false) ;;
            setattr_space space (attr_flag show_region_tool_header false) ;;
            setattr_space space (attr_flag show_region_toolbar false) ;;
            setattr_space space (attr_flag show_region_ui false) ;;
            try_pass (setattr_space space (attr_flag show_region_hud false)) ;;
            setattr_space space (attr_flag show_gizmo false) ;;
            setattr_space space (attr_flag show_gizmo_navigate false) ;;
            setattr_space space (attr_show_overlays false)) ;;
  (* Apply axis, frame selection, then re-apply axis *)
  _apply_view_axis win area region axis ;;
  try_pass (screen <- getattr_screen win ;;
            let ov := {| ov_window := win; ov_screen := screen;
                         ov_area := Some area; ov_region := Some region |} in
            enter_override ov ;;
            call (ctx_temp ov) (view3d_view_selected false)) ;;
  _apply_view_axis win area region axis ;;
  (* Re-hide UI *)
  try_pass (hide_ui space ;;
            try_pass (setattr (assign_area area attr_tag_redraw))).

End WithHost.

(** ** The operator that opens a new window (lines 204-322) *)

Module VIEW3D_OT_open_silhouette_view_dual.

Definition bl_idname : string := "view3d.open_silhouette_view_dual"%string.

Section WithHost.

Variable host : Host.

Definition poll : Py bool :=
  w <- get_world ;;
  ret (String.eqb (context_mode (context w)) OBJECT
       && match context_active_object (context w) with Some _ => true | None => false end).

(** The body of [_deferred_setup]'s outer [try]; [new_win] is the variable the
    closure captures.  A float result asks the timer to run again after that
    many seconds, [None] ends it.  The source sets [ok = False], returns
    [0.05] from the inner handler and tests [if not ok: return 0.05]; here the
    handler yields [ok = False] and the test returns. *)
Definition _deferred_setup_body (new_win : option WindowRef) : Py (option float) :=
  found <- _find_window_view3d_area new_win ;;
  match found with
  | (Some area_a, Some region_a) =>
      (* Split horizontally to create TOP/BOTTOM *)
      screen <- getattr_screen new_win ;;
      before <- match screen with Some _ => list_screen_areas screen | None => ret [] end ;;
      let ov := {| ov_window := new_win; ov_screen := None;
                   ov_area := Some area_a; ov_region := Some region_a |} in
      ok <- (try_ (enter_override host ov ;;
                   call host (ctx_temp ov) (screen_area_split HORIZONTAL (Some 0.5%float) None) ;;
                   ret true)
             except_
              (try_ (y <- getattr_area area_y area_a ;;
                     h <- getattr_area area_height area_a ;;
                     let cy := (y + Z.max 1 (int_mul_half h))%Z in
                     enter_override host ov ;;
                     x <- getattr_area area_x area_a ;;
                     call host (ctx_temp ov)
                       (screen_area_split HORIZONTAL None (Some ((x + 5)%Z, cy))) ;;
                     ret true)
               except_ ret false)) ;;
      if negb ok then ret (Some 0.05%float) else
      (* Identify new area and map to top/bottom *)
      screen <- getattr_screen new_win ;;
      now <- match screen with Some _ => list_screen_areas screen | None => ret [] end ;;
      match filter (fun a => negb (py_in a before)) now with
      | [] => ret (Some 0.05%float)
      | new_area :: _ =>
          ya <- getattr_area area_y area_a ;;
          yn <- getattr_area area_y new_area ;;
          let (area_top, area_bottom) :=
            if Z.geb ya yn then (area_a, new_area) else (new_area, area_a) in
          reg_top <- next_window_region area_top ;;
          reg_bottom <- next_window_region area_bottom ;;
          match reg_top, reg_bottom with
          | Some reg_top, Some reg_bottom =>
              (* Configure both areas *)
              _configure_silhouette_area host new_win area_top reg_top FRONT ;;
              _configure_silhouette_area host new_win area_bottom reg_bottom RIGHT ;;
              _apply_view_axis host new_win area_top reg_top FRONT ;;
              _apply_view_axis host new_win area_bottom reg_bottom RIGHT ;;
              (* One-time UI reassert *)
              for_in [area_top; area_bottom]
                (fun a => try_pass (sp <- getattr_area area_spaces_active a ;; hide_ui sp)) ;;
              (* One-time distance backoff *)
              try_pass (sp_top <- spaces_active area_top ;; so_top <- the_space sp_top ;;
                        let r3d_top := space_region_3d so_top in
                        sp_bot <- spaces_active area_bottom ;; so_bot <- the_space sp_bot ;;
                        let d := match r3d_top with
                                 | Some r => view_distance r
                                 | None => 5.0%float
                                 end in
                        let dist := if PrimFloat.eqb d 0%float then 5.0%float else d in
                        let dist := (dist * 1.3)%float in
                        setattr (assign_space sp_top (attr_region_3d (attr_view_distance dist))) ;;
                        setattr (assign_space sp_bot (attr_region_3d (attr_view_distance dist)))) ;;
              ret None
          | _, _ => ret (Some 0.05%float)
          end
      end
  | _ => ret (Some 0.05%float)  (* retry shortly *)
  end.

Definition _deferred_setup (new_win : option WindowRef) : Py (option float) :=
  try_ _deferred_setup_body new_win except_ ret None.

Definition execute : Py OperatorResult :=
  (* 0) Create new window *)
  w0 <- get_world ;;
  let orig_win := context_window (context w0) in
  cancelled <- (try_ (call host ctx_current wm_window_new ;; ret false)
                except_ (report ERROR "Failed to open new window: " ;; ret true)) ;;
  if (cancelled : bool) then ret CANCELLED else
  w1 <- get_world ;;
  let new_win := context_window (context w1) in
  (* Modest size exactly 25% of the original window *)
  try_pass (ow <- getattr_window window_width orig_win 1600 ;;
            oh <- getattr_window window_height orig_win 900 ;;
            let target_w := Z.max 480 (int_mul_quarter ow) in
            let target_h := Z.max 360 (int_mul_quarter oh) in
            setattr_window host new_win (attr_width target_w) ;;
            setattr_window host new_win (attr_height target_h) ;;
            x <- getattr_window window_x orig_win 100 ;;
            setattr_window host new_win (attr_x (x + 80)%Z) ;;
            y <- getattr_window window_y orig_win 100 ;;
            setattr_window host new_win (attr_y (y - 80)%Z) ;;
            set_show_statusbar new_win false) ;;
  try_pass (set_show_statusbar new_win false) ;;
  (* Defer split and configuration *)
  try_pass (register_timer host (timer_deferred_setup new_win) 0.05%float) ;;
  ret FINISHED.

Definition invoke : Py OperatorResult := execute.

End WithHost.

End VIEW3D_OT_open_silhouette_view_dual.

(** ** The operator that splits the current 3D view (lines 326-456) *)

Module VIEW3D_OT_open_silhouette_split_current.

Definition bl_idname : string := "view3d.open_silhouette_split_current"%string.

Section WithHost.

Variable host : Host.

Definition poll : Py bool :=
  w <- get_world ;;
  let c := context w in
  if negb (String.eqb (context_mode c) OBJECT) then ret false else
  match context_area c with
  | None => ret false
  | Some a =>
      t <- getattr_area area_type a ;;
      if negb (String.eqb t VIEW_3D) then ret false else
      ret (match context_active_object c with Some _ => true | None => false end)
  end.

(** The closure [_post_fix], with the variables it captures. *)
Definition _post_fix (win : option WindowRef) (left_top : AreaRef) (reg_top : Region)
  (left_bottom : AreaRef) (reg_bottom : Region) : Py (option float) :=
  try_pass
    ((* Re-apply axis and UI hiding *)
     _apply_view_axis host win left_top reg_top FRONT ;;
     _apply_view_axis host win left_bottom reg_bottom RIGHT ;;
     (* If both ended up identical, rotate bottom by +90deg around Z *)
     try_pass (sp_t <- spaces_active left_top ;; so_t <- the_space sp_t ;;
               r_t <- not_None (space_region_3d so_t) ;;
               let qt := view_rotation r_t in
               sp_b <- spaces_active left_bottom ;; so_b <- the_space sp_b ;;
               r_b <- not_None (space_region_3d so_b) ;;
               let qb := view_rotation r_b in
               let same := forallb (fun ab => PrimFloat.ltb (abs (fst ab - snd ab)) 1e-5)%float
                                   (combine (quat_iter qt) (quat_iter qb)) in
               if same then
                 let z90 := mathutils_Quaternion host
                              (0.70710678, 0.0, 0.0, 0.70710678)%float in
                 sp <- spaces_active left_bottom ;;
                 setattr (assign_space sp
                            (attr_region_3d (attr_view_rotation (quat_matmul host z90 qt)))) ;;
                 sp' <- spaces_active left_bottom ;;
                 setattr (assign_space sp' (attr_region_3d (attr_view_perspective ORTHO)))
               else ret tt) ;;
     (* Re-hide UI explicitly *)
     for_in [left_top; left_bottom]
       (fun a => sp <- getattr_area area_spaces_active a ;; hide_ui sp)) ;;
  ret None.

(** [execute] returns from inside its handlers; here a handler yields
    [Some CANCELLED] and the code after the [try] runs on [None]. *)
Definition execute : Py OperatorResult :=
  w <- get_world ;;
  let c := context w in
  area <- not_None (context_area c) ;;
  region <- next_window_region area ;;
  match region with
  | None => report ERROR "No WINDOW region in current area." ;; ret CANCELLED
  | Some region =>
  let win := context_window c in
  let scr := context_screen c in
  (* 1) Split current area vertically into LEFT and RIGHT *)
  before <- list_screen_areas scr ;;
  orig_x <- getattr_area area_x area ;;
  failed <-
    (try_ (call host ctx_current (screen_area_split VERTICAL (Some 0.5%float) None) ;; ret None)
     except_
      (try_ (x <- getattr_area area_x area ;; wd <- getattr_area area_width area ;;
             let cx := (x + Z.max 1 (int_mul_half wd))%Z in
             y <- getattr_area area_y area ;; h <- getattr_area area_height area ;;
             let cy := (y + Z.max 1 (int_mul_half h))%Z in
             call host ctx_current (screen_area_split VERTICAL None (Some (cx, cy))) ;;
             ret None)
       except_ (report ERROR "Failed to split current area: " ;; ret (Some CANCELLED)))) ;;
  match failed with Some result => ret result | None =>
  now <- list_screen_areas scr ;;
  let new_areas := filter (fun a => negb (py_in a before)) now in
  (* Determine LEFT and RIGHT by x *)
  match new_areas with
  | [] => report ERROR "Could not determine new split area." ;; ret CANCELLED
  | first :: rest =>
  keyed <- for_each (fun a => x <- getattr_area area_x a ;; ret (a, x)) new_areas ;;
  let area_right := match keyed with k :: ks => max_by_key k ks | [] => first end in
  ax <- getattr_area area_x area ;;
  rx <- getattr_area area_x area_right ;;
  let area_left := if Z.leb ax rx then area else area_right in
  sides <-
    (if Nat.eqb area_right area_left then
       (* Fallback pick by x *)
       keyed <- for_each (fun a => x <- getattr_area area_x a ;; ret (a, x)) (area :: new_areas) ;;
       let sorted_by_x := sorted Z.leb keyed in
       ret (hd area sorted_by_x, last sorted_by_x area)
     else ret (area_left, area_right)) ;;
  let (area_left, area_right) := (sides : AreaRef * AreaRef) in
  (* 2) Split LEFT area horizontally into TOP/BOTTOM *)
  before2 <- list_screen_areas scr ;;
  failed <-
    (try_ (regs <- getattr_area area_regions area_left ;;
           match find is_WINDOW regs with
           | Some r =>
               let ov := {| ov_window := None; ov_screen := None;
                            ov_area := Some area_left; ov_region := Some r |} in
               enter_override host ov ;;
               try_ call host (ctx_temp ov) (screen_area_split HORIZONTAL (Some 0.5%float) None)
               except_ (y <- getattr_area area_y area_left ;;
                        h <- getattr_area area_height area_left ;;
                        let cy := (y + Z.max 1 (int_mul_half h))%Z in
                        x <- getattr_area area_x area_left ;;
                        call host (ctx_temp ov)
                          (screen_area_split HORIZONTAL None (Some ((x + 5)%Z, cy))))
           | None => ret tt
           end ;;
           ret None)
     except_ (report ERROR "Failed to split left area: " ;; ret (Some CANCELLED))) ;;
  match failed with Some result => ret result | None =>
  now2 <- list_screen_areas scr ;;
  let new_areas2 := filter (fun a => negb (py_in a before2)) now2 in
  match new_areas2 with
  | [] => report ERROR "Could not determine sub-areas of left split." ;; ret CANCELLED
  | _ :: _ =>
  (* Identify the two left sub-areas by x proximity to area_left.x *)
  view3d <- filter_m (fun a => t <- getattr_area area_type a ;; ret (String.eqb t VIEW_3D))
                     (new_areas2 ++ [area_left]) ;;
  keyed <- for_each (fun a => x <- getattr_area area_x a ;;
                              lx <- getattr_area area_x area_left ;;
                              y <- getattr_area area_y a ;;
                              ret (a, (Z.abs (x - lx), - y)%Z)) view3d ;;
  let left_subs := firstn 2 (sorted pair_leb keyed) in
  if Nat.ltb (List.length left_subs) 2 then
    report ERROR "Left split did not produce two VIEW_3D areas." ;; ret CANCELLED
  else
  (* top is higher y *)
  keyed <- for_each (fun a => y <- getattr_area area_y a ;; ret (a, y)) left_subs ;;
  match sorted (fun k1 k2 => Z.leb k2 k1) keyed with
  | [left_top; left_bottom] =>
      (* Resolve regions *)
      reg_top <- next_window_region left_top ;;
      reg_bottom <- next_window_region left_bottom ;;
      match reg_top, reg_bottom with
      | Some reg_top, Some reg_bottom =>
          (* Configure silhouettes on left sub-areas only: FRONT (top), RIGHT (bottom) *)
          _configure_silhouette_area host win left_top reg_top FRONT ;;
          _configure_silhouette_area host win left_bottom reg_bottom RIGHT ;;
          _apply_view_axis host win left_top reg_top FRONT ;;
          _apply_view_axis host win left_bottom reg_bottom RIGHT ;;
          (* Finalize with a tiny deferred re-apply *)
          try_pass (register_timer host
                      (timer_post_fix win left_top reg_top left_bottom reg_bottom)
                      0.05%float) ;;
          ret FINISHED
      | _, _ =>
          report ERROR "Could not get WINDOW regions for left sub-areas." ;; ret CANCELLED
      end
  | _ => raise  (* unpacking anything but two values *)
  end
  end end end end end.

End WithHost.

End VIEW3D_OT_open_silhouette_split_current.

(** ** The menu (lines 461-474) *)

Inductive LayoutItem :=
| layout_menu (idname text : string)
| layout_operator (idname text : string).

Module VIEW3D_MT_silhouette_menu.

Definition bl_idname : string := "VIEW3D_MT_silhouette_menu"%string.

(** [draw] appends to [self.layout]. *)
Definition draw (layout : list LayoutItem) : list LayoutItem :=
  layout
  ++ [layout_operator "view3d.open_silhouette_split_current" "Split Here (Front+Right)"]
  ++ [layout_operator "view3d.open_silhouette_view_dual" "New Window (Front+Right)"].

End VIEW3D_MT_silhouette_menu.

Definition draw_in_view_menu (w : World) (layout : list LayoutItem) : list LayoutItem :=
  if String.eqb (context_mode (context w)) OBJECT
  then layout ++ [layout_menu VIEW3D_MT_silhouette_menu.bl_idname "Silhouette"]
  else layout.

(** The timer loop's view of a registered callback. *)
Definition run_timer (host : Host) (t : Timer) : Py (option float) :=
  match t with
  | timer_deferred_setup new_win =>
      VIEW3D_OT_open_silhouette_view_dual._deferred_setup host new_win
  | timer_post_fix win left_top reg_top left_bottom reg_bottom =>
      VIEW3D_OT_open_silhouette_split_current._post_fix host win left_top reg_top
        left_bottom reg_bottom
  end.

(** * Reasoning about runs *)

(** ** Inversion of the monad's combinators *)

Lemma ret_inv {A} (a : A) s r s' : ret a s = (r, s') -> r = Return a /\ s' = s.
Proof. unfold ret; intros H; inversion H; auto. Qed.

Lemma raise_inv {A} s (r : Outcome A) s' : raise s = (r, s') -> r = Raise /\ s' = s.
Proof. unfold raise; intros H; inversion H; auto. Qed.

Lemma bind_inv {A B} (m : Py A) (k : A -> Py B) s r s' :
  bind m k s = (r, s') ->
  (exists a s1, m s = (Return a, s1) /\ k a s1 = (r, s'))
  \/ (m s = (Raise, s') /\ r = Raise).
Proof.
  unfold bind; destruct (m s) as [[a|] s1]; intros H.
  - left; eauto.
  - right; inversion H; auto.
Qed.

Lemma bind_Return_inv {A B} (m : Py A) (k : A -> Py B) s b s' :
  bind m k s = (Return b, s') ->
  exists a s1, m s = (Return a, s1) /\ k a s1 = (Return b, s').
Proof.
  intros H; apply bind_inv in H; destruct H as [H | [_ H]]; [exact H | discriminate].
Qed.

Lemma try_except_inv {A} (m h : Py A) s r s' :
  try_except m h s = (r, s') ->
  (exists a, m s = (Return a, s') /\ r = Return a)
  \/ (exists s1, m s = (Raise, s1) /\ h s1 = (r, s')).
Proof.
  unfold try_except; destruct (m s) as [[a|] s1]; intros H.
  - left; inversion H; eauto.
  - right; eauto.
Qed.

Lemma try_pass_Return (m : Py unit) s : exists s', try_pass m s = (Return tt, s').
Proof.
  unfold try_pass, try_except, ret; destruct (m s) as [[[]|] s1]; eauto.
Qed.

Lemma try_pass_inv (m : Py unit) s r s' :
  try_pass m s = (r, s') -> r = Return tt /\ exists r0, m s = (r0, s').
Proof.
  unfold try_pass, try_except, ret; destruct (m s) as [[[]|] s1]; intros H;
    inversion H; subst; eauto.
Qed.

Lemma not_None_inv {A} (o : option A) s r s' :
  not_None o s = (r, s') -> s' = s /\ (match o with Some a => r = Return a | None => r = Raise end).
Proof. destruct o; simpl; intros H; inversion H; auto. Qed.

Lemma get_world_inv s r s' : get_world s = (r, s') -> r = Return (world s) /\ s' = s.
Proof. unfold get_world; intros H; inversion H; auto. Qed.

(** Reads leave the state alone. *)
Definition pure_read {A} (m : Py A) : Prop := forall s r s', m s = (r, s') -> s' = s.

Lemma pure_ret {A} (a : A) : pure_read (ret a).
Proof. intros s r s' H; apply ret_inv in H; tauto. Qed.

Lemma pure_raise {A} : pure_read (@raise A).
Proof. intros s r s' H; apply raise_inv in H; tauto. Qed.

Lemma pure_bind {A B} (m : Py A) (k : A -> Py B) :
  pure_read m -> (forall a, pure_read (k a)) -> pure_read (bind m k).
Proof.
  intros Hm Hk s r s' H; apply bind_inv in H.
  destruct H as [(a & s1 & H1 & H2) | [H1 _]].
  - apply Hm in H1; subst; eapply Hk; eauto.
  - eapply Hm; eauto.
Qed.

Lemma pure_try_except {A} (m h : Py A) :
  pure_read m -> pure_read h -> pure_read (try_except m h).
Proof.
  intros Hm Hh s r s' H; apply try_except_inv in H.
  destruct H as [(a & H1 & _) | (s1 & H1 & H2)].
  - eapply Hm; eauto.
  - apply Hm in H1; subst; eapply Hh; eauto.
Qed.

Lemma pure_get_world : pure_read get_world.
Proof. intros s r s' H; apply get_world_inv in H; tauto. Qed.

Lemma pure_not_None {A} (o : option A) : pure_read (not_None o).
Proof. intros s r s' H; apply not_None_inv in H; tauto. Qed.

Ltac pure_tac :=
  repeat first
    [ apply pure_ret | apply pure_raise | apply pure_get_world | apply pure_not_None
    | apply pure_bind; [ | intros ] | apply pure_try_except
    | match goal with
      | |- pure_read (match ?x with _ => _ end) => destruct x
      | |- pure_read (if ?x then _ else _) => destruct x
      end ].

Lemma pure_the_window r : pure_read (the_window r).
Proof. unfold the_window; pure_tac. Qed.
Lemma pure_the_screen r : pure_read (the_screen r).
Proof. unfold the_screen; pure_tac. Qed.
Lemma pure_the_area r : pure_read (the_area r).
Proof. unfold the_area; pure_tac. Qed.
Lemma pure_the_space r : pure_read (the_space r).
Proof. unfold the_space; pure_tac. Qed.

Lemma pure_getattr_area {A} (f : Area -> A) a : pure_read (getattr_area f a).
Proof. unfold getattr_area; pure_tac; apply pure_the_area. Qed.

Lemma pure_spaces_active a : pure_read (spaces_active a).
Proof. unfold spaces_active; pure_tac; apply pure_getattr_area. Qed.

Lemma pure_getattr_screen win : pure_read (getattr_screen win).
Proof. unfold getattr_screen; pure_tac; apply pure_the_window. Qed.

Lemma pure_getattr_window f win d : pure_read (getattr_window f win d).
Proof. unfold getattr_window; pure_tac; apply pure_the_window. Qed.

Lemma pure_list_screen_areas scr : pure_read (list_screen_areas scr).
Proof. unfold list_screen_areas; pure_tac; apply pure_the_screen. Qed.

Lemma pure_next_window_region a : pure_read (next_window_region a).
Proof. unfold next_window_region; pure_tac; apply pure_getattr_area. Qed.

Lemma pure_for_first {A} (test : A -> Py bool) l :
  (forall x, pure_read (test x)) -> pure_read (for_first test l).
Proof. intros Ht; induction l; simpl; pure_tac; auto. Qed.

Lemma pure_for_each {A B} (f : A -> Py B) l :
  (forall x, pure_read (f x)) -> pure_read (for_each f l).
Proof. intros Hf; induction l; simpl; pure_tac; auto. Qed.

Lemma pure_filter_m {A} (test : A -> Py bool) l :
  (forall x, pure_read (test x)) -> pure_read (filter_m test l).
Proof. intros Ht; induction l; simpl; pure_tac; auto. Qed.

Lemma pure_find_window_view3d_area win : pure_read (_find_window_view3d_area win).
Proof.
  unfold _find_window_view3d_area; pure_tac;
    first [ apply pure_the_window | apply pure_the_screen | apply pure_getattr_area
          | apply pure_for_first; intros; pure_tac; apply pure_getattr_area ].
Qed.

(** ** What a run may do

    The assignments the add-on makes: a window's geometry, a view's rotation
    and distance take computed values; an area's type is only ever set to
    ['VIEW_3D'], a view's perspective to ['ORTHO'], a flag to [False], and the
    shading attributes to the silhouette style. *)
Definition addon_assign (g : Assign) : Prop :=
  match g with
  | assign_area _ (attr_type v) => v = VIEW_3D
  | assign_area _ (attr_ui_type v) => v = VIEW_3D
  | assign_area _ attr_tag_redraw => True
  | assign_space _ (attr_flag _ b) => b = false
  | assign_space _ (attr_show_overlays b) => b = false
  | assign_space _ (attr_shading (attr_sh_type v)) => v = SOLID
  | assign_space _ (attr_shading (attr_sh_light v)) => v = FLAT
  | assign_space _ (attr_shading (attr_sh_color_type v)) => v = SINGLE
  | assign_space _ (attr_shading (attr_sh_single_color c)) => c = (0.0, 0.0, 0.0)%float
  | assign_space _ (attr_shading (attr_sh_background_type v)) => v = VIEWPORT
  | assign_space _ (attr_shading (attr_sh_background_color c)) => c = (1.0, 1.0, 1.0)%float
  | assign_space _ (attr_region_3d (attr_view_perspective v)) => v = ORTHO
  | assign_space _ (attr_region_3d (attr_view_rotation _)) => True
  | assign_space _ (attr_region_3d (attr_view_distance _)) => True
  | assign_window _ _ => True
  | assign_show_statusbar _ b => b = false
  end.

(** An action is allowed by [Q] (host calls) and [N] (reports and timers). *)
Definition allowed (Q : CallCtx -> Operator -> Prop) (N : Action -> Prop) (a : Action) : Prop :=
  match a with
  | act_call ctx op _ _ => Q ctx op
  | _ => N a
  end.

(** [I] survives the host calls in [Q] and the assignments in [G]. *)
Record StableG (host : Host) (Q : CallCtx -> Operator -> Prop) (G : Assign -> Prop)
  (I : World -> Prop) : Prop := {
  stable_host : forall ctx op w w', Q ctx op -> bpy_ops host ctx op w = Some w' -> I w -> I w';
  stable_assign : forall g w w', G g -> do_assign g w = Some w' -> I w -> I w' }.

(** [I] survives the host calls in [Q] and the add-on's assignments. *)
Definition Stable (host : Host) (Q : CallCtx -> Operator -> Prop) (I : World -> Prop) : Prop :=
  StableG host Q addon_assign I.

Lemma Stable_True host Q : Stable host Q (fun _ => True).
Proof. split; auto. Qed.

(** Every run of [m] appends only allowed actions and keeps [I]. *)
Definition runs (Q : CallCtx -> Operator -> Prop) (N : Action -> Prop) (I : World -> Prop)
  {A} (m : Py A) : Prop :=
  forall s r s', m s = (r, s') ->
    (exists l, trace s' = trace s ++ l /\ Forall (allowed Q N) l)
    /\ (I (world s) -> I (world s')).

Section Runs.

Variable host : Host.
Variable Q : CallCtx -> Operator -> Prop.
Variable G : Assign -> Prop.
Variable N : Action -> Prop.
Variable I : World -> Prop.
Hypothesis HS : StableG host Q G I.

Lemma runs_pure {A} (m : Py A) : pure_read m -> runs Q N I m.
Proof.
  intros Hm s r s' H; apply Hm in H; subst; split; auto.
  exists []; rewrite app_nil_r; auto.
Qed.

Lemma runs_bind {A B} (m : Py A) (k : A -> Py B) :
  runs Q N I m -> (forall a, runs Q N I (k a)) -> runs Q N I (bind m k).
Proof.
  intros Hm Hk s r s' H; apply bind_inv in H.
  destruct H as [(a & s1 & H1 & H2) | [H1 _]]; [ | eapply Hm; eauto ].
  destruct (Hm _ _ _ H1) as [(l1 & E1 & F1) K1].
  destruct (Hk _ _ _ _ H2) as [(l2 & E2 & F2) K2].
  split; [ | auto ].
  exists (l1 ++ l2); split.
  - rewrite E2, E1, app_assoc; reflexivity.
  - apply Forall_app; auto.
Qed.

Lemma runs_try_except {A} (m h : Py A) :
  runs Q N I m -> runs Q N I h -> runs Q N I (try_except m h).
Proof.
  intros Hm Hh s r s' H; apply try_except_inv in H.
  destruct H as [(a & H1 & _) | (s1 & H1 & H2)]; [ eapply Hm; eauto | ].
  destruct (Hm _ _ _ H1) as [(l1 & E1 & F1) K1].
  destruct (Hh _ _ _ H2) as [(l2 & E2 & F2) K2].
  split; [ | auto ].
  exists (l1 ++ l2); split.
  - rewrite E2, E1, app_assoc; reflexivity.
  - apply Forall_app; auto.
Qed.

Lemma runs_try_pass (m : Py unit) : runs Q N I m -> runs Q N I (try_pass m).
Proof. intros; apply runs_try_except; auto; apply runs_pure, pure_ret. Qed.

Lemma runs_setattr g : G g -> runs Q N I (setattr g).
Proof.
  intros Hg s r s'; unfold setattr.
  destruct (do_assign g (world s)) as [w|] eqn:E; intros H; inversion H; subst; simpl.
  - split; [ exists []; rewrite app_nil_r; auto | ].
    eapply stable_assign; eauto.
  - split; [ exists []; rewrite app_nil_r; auto | auto ].
Qed.

Lemma runs_call ctx op : Q ctx op -> runs Q N I (call host ctx op).
Proof.
  intros Hq s r s'; unfold call.
  destruct (bpy_ops host ctx op (world s)) as [w|] eqn:E; intros H; inversion H; subst; simpl.
  - split; [ eexists; split; [ reflexivity | repeat constructor; exact Hq ] | ].
    eapply stable_host; eauto.
  - split; [ eexists; split; [ reflexivity | repeat constructor; exact Hq ] | auto ].
Qed.

Lemma runs_enter_override ov : runs Q N I (enter_override host ov).
Proof.
  apply runs_pure; intros s r s'; unfold enter_override.
  destruct (temp_override host ov (world s)); intros H; inversion H; auto.
Qed.

Lemma runs_report level msg : N (act_report level msg) -> runs Q N I (report level msg).
Proof.
  intros Hn s r s' H; inversion H; subst; simpl; split; auto.
  eexists; split; [ reflexivity | repeat constructor; exact Hn ].
Qed.

Lemma runs_register_timer t f : N (act_timer t f) -> runs Q N I (register_timer host t f).
Proof.
  intros Hn s r s'; unfold register_timer.
  destruct (timers_register host t f (world s)); intros H; inversion H; subst; simpl;
    split; auto.
  - eexists; split; [ reflexivity | repeat constructor; exact Hn ].
  - exists []; rewrite app_nil_r; auto.
Qed.

Lemma runs_for_in {A} (l : list A) (body : A -> Py unit) :
  (forall x, runs Q N I (body x)) -> runs Q N I (for_in l body).
Proof.
  intros Hb; induction l; simpl.
  - apply runs_pure, pure_ret.
  - apply runs_bind; auto.
Qed.

End Runs.

(** [runs_tac] walks a computation built from the combinators above; what is
    left are the side conditions on assignments, calls, reports and timers. *)
Ltac pure_all :=
  repeat first
    [ apply pure_ret | apply pure_raise | apply pure_get_world | apply pure_not_None
    | apply pure_the_window | apply pure_the_screen | apply pure_the_area
    | apply pure_the_space | apply pure_getattr_area | apply pure_spaces_active
    | apply pure_getattr_screen | apply pure_getattr_window
    | apply pure_list_screen_areas | apply pure_next_window_region
    | apply pure_find_window_view3d_area
    | apply pure_for_first; intros | apply pure_for_each; intros
    | apply pure_filter_m; intros
    | apply pure_bind; [ | intros ] | apply pure_try_except
    | match goal with
      | |- pure_read (match ?x with _ => _ end) => destruct x
      | |- pure_read (if ?x then _ else _) => destruct x
      end ].

Ltac runs_pure_tac := apply runs_pure; solve [ pure_all ].

Ltac runs_step :=
  lazymatch goal with
  | |- runs _ _ _ _ =>
      first
        [ runs_pure_tac
        | apply runs_bind; [ | intros ]
        | apply runs_try_pass
        | apply runs_try_except
        | apply runs_for_in; intros
        | eapply runs_setattr
        | eapply runs_call
        | eapply runs_enter_override
        | eapply runs_report
        | eapply runs_register_timer
        | match goal with
          | |- runs _ _ _ (match ?x with _ => _ end) => destruct x
          | |- runs _ _ _ (if ?x then _ else _) => destruct x
          | |- runs _ _ _ (let (_, _) := ?x in _) => destruct x
          end ]
  end.

Ltac runs_steps := repeat runs_step.

Ltac runs_tac :=
  runs_steps;
  try match goal with
      | h : Host |- StableG ?x _ _ (fun _ => True) =>
          first [ unify x h | idtac ]; apply Stable_True
      | |- StableG _ _ _ _ => eassumption
      end.

(** ... and [runs_done] closes those left by the add-on's own assignments. *)
Ltac runs_done := runs_tac; first [ exact Logic.I | reflexivity ].

(** ** Views and requests *)

(** [area.spaces.active.region_3d.view_perspective], when every object on the
    path exists. *)
Definition persp_of (w : World) (area : AreaRef) : option string :=
  match areas w area with
  | Some o =>
      match area_spaces_active o with
      | Some sp =>
          match spaces w sp with
          | Some so =>
              match space_region_3d so with
              | Some r => Some (view_perspective r)
              | None => None
              end
          | None => None
          end
      | None => None
      end
  | None => None
  end.

(** The view of [area], if it has one, is orthographic. *)
Definition view_is_ortho (w : World) (area : AreaRef) : Prop :=
  forall p, persp_of w area = Some p -> p = ORTHO.

Definition ctx_area (c : CallCtx) : option AreaRef :=
  match c with
  | ctx_current => None
  | ctx_temp ov => ov_area ov
  | ctx_dict ov => ov_area ov
  end.

(** The axis preset an operator call asks for. *)
Definition op_axis (op : Operator) : option string :=
  match op with
  | view3d_viewnumpad t _ => Some t
  | view3d_view_axis t _ => Some t
  | _ => None
  end.

Definition is_area_split (op : Operator) : Prop :=
  match op with screen_area_split _ _ _ => True | _ => False end.

Definition is_view_op (op : Operator) : Prop :=
  match op with
  | view3d_viewnumpad _ _ | view3d_view_axis _ _ | view3d_view_selected _ => True
  | _ => False
  end.

(** A call that applies the preset [axis] to [area]. *)
Definition axis_call (area : AreaRef) (axis : string) (ctx : CallCtx) (op : Operator) : Prop :=
  ctx_area ctx = Some area /\ op_axis op = Some axis.

(** A call that frames the selection in [area]. *)
Definition frame_call (area : AreaRef) (ctx : CallCtx) (op : Operator) : Prop :=
  ctx_area ctx = Some area /\ op = view3d_view_selected false.

(** What [_configure_silhouette_area] and [_apply_view_axis] ask of the host
    for one area. *)
Definition area_call (area : AreaRef) (axis : string) (ctx : CallCtx) (op : Operator) : Prop :=
  axis_call area axis ctx op \/ frame_call area ctx op.

Definition no_action (a : Action) : Prop := False.

Ltac unfold_py :=
  cbv beta delta [try_pass try_except bind ret raise setattr_space setattr_window
    set_show_statusbar list_screen_areas next_window_region spaces_active
    getattr_screen getattr_window getattr_area the_area the_space the_window
    the_screen get_world not_None setattr report enter_override call
    register_timer] in *.

Ltac destruct_innermost x :=
  match x with
  | context [match ?y with _ => _ end] => destruct_innermost y
  | _ => let E := fresh "E" in destruct x eqn:E
  end.

Ltac break_in H :=
  repeat (match type of H with
          | context [match ?x with _ => _ end] => destruct_innermost x
          end; simpl in H).

Lemma store_set_eq {A} (m : Store A) k v : store_set m k v k = Some v.
Proof. unfold store_set; rewrite Nat.eqb_refl; reflexivity. Qed.

Lemma store_set_neq {A} (m : Store A) k v j : j <> k -> store_set m k v j = m j.
Proof. unfold store_set; intros H; apply Nat.eqb_neq in H; rewrite H; reflexivity. Qed.

(** Line 51: after the guarded assignment the view is orthographic, or the
    area has no view to set. *)
Lemma force_ortho_spec area s r s' :
  try_pass (sp <- spaces_active area ;;
            setattr (assign_space sp (attr_region_3d (attr_view_perspective ORTHO)))) s
  = (r, s') ->
  trace s' = trace s /\ view_is_ortho (world s') area.
Proof.
  intros H; unfold_py; unfold do_assign, space_setattr in H.
  unfold view_is_ortho, persp_of.
  break_in H; inversion H; subst; clear H; simpl; split; try reflexivity; intros p;
    repeat match goal with
           | E : Some _ = Some _ |- _ => inversion E; subst; clear E
           | E : (_, _) = (_, _) |- _ => inversion E; subst; clear E
           | E : _ = _ |- _ => rewrite E
           end;
    simpl; rewrite ?store_set_eq; simpl;
    try congruence.
Qed.

(** ** [_apply_view_axis] *)

(** An axis call for [area] made in world [w]. *)
Definition axis_attempt (w : World) (area : AreaRef) (axis : string) (a : Action) : Prop :=
  exists ctx op ok, a = act_call ctx op w ok /\ axis_call area axis ctx op.

(** An axis call for [area] made while its view was orthographic. *)
Definition axis_request (area : AreaRef) (axis : string) (a : Action) : Prop :=
  exists w, view_is_ortho w area /\ axis_attempt w area axis a.

(** Lines 54-76: the chain of fallbacks makes at least one call, every call in
    the world the chain started in, and never raises. *)
Lemma axis_attempts_spec host win area region axis s r s' :
  (try_ (screen <- getattr_screen win ;;
         let ov := {| ov_window := win; ov_screen := screen;
                      ov_area := Some area; ov_region := Some region |} in
         enter_override host ov ;;
         try_ call host (ctx_temp ov) (view3d_viewnumpad axis (Some false))
         except_ (try_ call host (ctx_temp ov) (view3d_view_axis axis (Some false))
                  except_ call host (ctx_temp ov) (view3d_view_axis axis None)))
   except_
     (let ov := _override None (Some area) (Some region) in
      try_ call host (ctx_dict ov) (view3d_viewnumpad axis (Some false))
      except_ (try_ call host (ctx_dict ov) (view3d_view_axis axis (Some false))
               except_ (try_pass (call host (ctx_dict ov) (view3d_view_axis axis None)))))) s
  = (r, s') ->
  r = Return tt /\
  exists l, trace s' = trace s ++ l /\ l <> [] /\ Forall (axis_attempt (world s) area axis) l.
Proof.
  intros H; unfold_py; unfold _override in H.
  break_in H; inversion H; subst; clear H; simpl;
    repeat match goal with
           | E : (_, _) = (_, _) |- _ => inversion E; subst; clear E
           end; simpl;
    (split; [ try reflexivity | ]).
  all: rewrite <- ?app_assoc; simpl.
  all: try (eexists; split; [ reflexivity | split; [ discriminate | ] ]).
  all: try (repeat constructor; unfold axis_attempt, axis_call; simpl; eauto 10).
Qed.

(** A run that is allowed no action leaves the trace as it was. *)
Lemma silent_trace {A} (m : Py A) s r s' :
  runs (fun _ _ => False) no_action (fun _ => True) m ->
  m s = (r, s') -> trace s' = trace s.
Proof.
  intros Hm H; destruct (Hm _ _ _ H) as [(l & E & F) _].
  destruct l as [|a l]; [ rewrite app_nil_r in E; exact E | ].
  inversion F as [|? ? Ha _]; destruct a; contradiction.
Qed.

Lemma apply_view_axis_runs host Q N I win area region axis :
  Stable host Q I ->
  (forall ctx op, axis_call area axis ctx op -> Q ctx op) ->
  runs Q N I (_apply_view_axis host win area region axis).
Proof.
  intros HS HQ; unfold _apply_view_axis, _override; runs_tac;
    first [ exact I | reflexivity | apply HQ; split; reflexivity ].
Qed.

Lemma apply_view_axis_spec host win area region axis s r s' :
  _apply_view_axis host win area region axis s = (r, s') ->
  r = Return tt /\
  exists l, trace s' = trace s ++ l /\ l <> [] /\ Forall (axis_request area axis) l.
Proof.
  unfold _apply_view_axis; intros H.
  apply bind_inv in H; destruct H as [(u1 & s1 & H1 & H) | [H1 _]];
    [ | apply try_pass_inv in H1; destruct H1; discriminate ].
  apply force_ortho_spec in H1; destruct H1 as [T1 O1].
  apply bind_inv in H; destruct H as [(u2 & s2 & H2 & H) | [H2 _]];
    [ | apply axis_attempts_spec in H2; destruct H2; discriminate ].
  apply axis_attempts_spec in H2; destruct H2 as [_ (l & T2 & Hne & F2)].
  pose proof H as H3; apply try_pass_inv in H3; destruct H3 as [-> _].
  split; [ reflexivity | ].
  exists l; repeat split; auto.
  - rewrite <- T1, <- T2.
    eapply silent_trace; [ | exact H ].
    runs_done.
  - eapply Forall_impl; [ | exact F2 ].
    intros a Ha; exists (world s1); auto.
Qed.

(** ** [_configure_silhouette_area] *)

(** A call that frames the selection in [area]. *)
Definition frame_request (area : AreaRef) (a : Action) : Prop :=
  exists ctx op pre ok, a = act_call ctx op pre ok /\ frame_call area ctx op.

(** [win] is [None] or a window that exists. *)
Definition window_ok (w : World) (win : option WindowRef) : Prop :=
  match win with
  | Some r => windows w r <> None
  | None => True
  end.

Lemma configure_silhouette_area_runs host Q N I win area region axis :
  Stable host Q I ->
  (forall ctx op, area_call area axis ctx op -> Q ctx op) ->
  runs Q N I (_configure_silhouette_area host win area region axis).
Proof.
  intros HS HQ; unfold _configure_silhouette_area, hide_ui, setattr_space.
  runs_steps;
    try (eapply apply_view_axis_runs; [ eassumption | intros; apply HQ; left; assumption ]);
    runs_tac;
    first [ exact Logic.I | reflexivity | apply HQ; left; split; reflexivity
          | apply HQ; right; split; reflexivity ].
Qed.

(** Lines 129-134: the only framing call is [view_selected] in the area's own
    context, and it is made whenever the window is there and the host accepts
    the override. *)
Lemma frame_block_spec host win area region s r s' :
  try_pass (screen <- getattr_screen win ;;
            let ov := {| ov_window := win; ov_screen := screen;
                         ov_area := Some area; ov_region := Some region |} in
            enter_override host ov ;;
            call host (ctx_temp ov) (view3d_view_selected false)) s = (r, s') ->
  exists l, trace s' = trace s ++ l /\ Forall (frame_request area) l
            /\ (window_ok (world s) win ->
                (forall ov, temp_override host ov (world s) = true) -> l <> []).
Proof.
  intros H; unfold_py; unfold window_ok.
  break_in H; inversion H; subst; clear H; simpl;
    repeat match goal with
           | E : (_, _) = (_, _) |- _ => inversion E; subst; clear E
           end; simpl.
  all: first
         [ eexists; split; [ reflexivity | ]; split;
           [ repeat constructor; unfold frame_request, frame_call; simpl; eauto 10
           | intros; discriminate ]
         | exists []; rewrite app_nil_r; split; [ reflexivity | ]; split;
           [ constructor
           | intros Hw Ho; first [ congruence | rewrite Ho in *; discriminate ] ] ].
Qed.


(** ** Inversion of the reads *)

Lemma the_area_inv a s r s' :
  the_area a s = (r, s') ->
  s' = s /\ match r with Return o => areas (world s) a = Some o | Raise => areas (world s) a = None end.
Proof.
  intros H; unfold_py; simpl in H; destruct (areas (world s) a); inversion H; auto.
Qed.

Lemma getattr_area_inv {A} (f : Area -> A) a s v s' :
  getattr_area f a s = (Return v, s') ->
  s' = s /\ exists o, areas (world s) a = Some o /\ v = f o.
Proof.
  intros H; unfold_py; simpl in H; destruct (areas (world s) a) as [o|]; inversion H; eauto.
Qed.

Lemma getattr_screen_inv win s v s' :
  getattr_screen win s = (Return v, s') ->
  s' = s /\ match win with
            | Some r => exists wo, windows (world s) r = Some wo /\ v = window_screen wo
            | None => v = None
            end.
Proof.
  intros H; destruct win as [r|]; unfold_py; simpl in H;
    [ destruct (windows (world s) r) as [wo|] eqn:E | ]; inversion H; subst; eauto.
Qed.

Lemma list_screen_areas_inv scr s v s' :
  list_screen_areas scr s = (Return v, s') ->
  s' = s /\ exists r so, scr = Some r /\ screens (world s) r = Some so /\ v = screen_areas so.
Proof.
  intros H; destruct scr as [r|]; unfold_py; simpl in H;
    [ destruct (screens (world s) r) as [so|] eqn:E | ]; inversion H; subst; eauto 10.
Qed.

Lemma next_window_region_inv a s v s' :
  next_window_region a s = (Return v, s') ->
  s' = s /\ exists o, areas (world s) a = Some o /\ v = find is_WINDOW (area_regions o).
Proof.
  intros H; unfold_py; simpl in H; destruct (areas (world s) a) as [o|]; inversion H; eauto.
Qed.

Lemma for_first_In {A} (test : A -> Py bool) l s x s' :
  for_first test l s = (Return (Some x), s') -> In x l.
Proof.
  revert s; induction l as [|y l IH]; simpl; intros s H.
  - apply ret_inv in H; destruct H; discriminate.
  - apply bind_Return_inv in H; destruct H as (b & s1 & _ & H).
    destruct b.
    + apply ret_inv in H; destruct H as [H _]; inversion H; auto.
    + right; eapply IH; eauto.
Qed.

(** The screen [win] shows, and its areas. *)
Definition window_areas (w : World) (win : option WindowRef) : option (list AreaRef) :=
  match win with
  | Some r =>
      match windows w r with
      | Some wo =>
          match window_screen wo with
          | Some scr =>
              match screens w scr with
              | Some so => Some (screen_areas so)
              | None => None
              end
          | None => None
          end
      | None => None
      end
  | None => None
  end.

Lemma find_window_view3d_area_spec win s r s' :
  _find_window_view3d_area win s = (r, s') ->
  s' = s /\ exists fa fr, r = Return (fa, fr)
            /\ (forall a, fa = Some a ->
                  exists l, window_areas (world s) win = Some l /\ In a l).
Proof.
  intros H; pose proof (pure_find_window_view3d_area _ _ _ _ H) as ->.
  split; [ reflexivity | ].
  unfold _find_window_view3d_area in H.
  apply bind_inv in H; destruct H as [(fa & s1 & H1 & H) | [H1 _]].
  2:{ apply try_except_inv in H1; destruct H1 as [(? & _ & ?) | (? & _ & H1)];
        [ discriminate | apply ret_inv in H1; destruct H1; discriminate ]. }
  apply bind_inv in H; destruct H as [(fr & s2 & H2 & H) | [H2 _]].
  2:{ apply try_except_inv in H2; destruct H2 as [(? & _ & ?) | (? & _ & H2)];
        [ discriminate | apply ret_inv in H2; destruct H2; discriminate ]. }
  apply ret_inv in H; destruct H as [-> _].
  exists fa, fr; split; [ reflexivity | ].
  intros a ->.
  apply try_except_inv in H1; destruct H1 as [(x & H1 & Hx) | (? & _ & H1)].
  2:{ apply ret_inv in H1; destruct H1; discriminate. }
  inversion Hx; subst x; clear Hx.
  unfold window_areas.
  apply bind_Return_inv in H1; destruct H1 as (r & s3 & H3 & H1).
  apply not_None_inv in H3; destruct H3 as [-> H3]; destruct win as [r'|]; [ | discriminate ].
  inversion H3; subst r'; clear H3.
  apply bind_Return_inv in H1; destruct H1 as (wo & s4 & H4 & H1).
  unfold the_window in H4.
  apply bind_Return_inv in H4; destruct H4 as (w & s5 & H5 & H4).
  apply get_world_inv in H5; destruct H5 as [H5 ->]; inversion H5; subst w; clear H5.
  apply not_None_inv in H4; destruct H4 as [-> H4].
  destruct (windows (world s) r) as [wo'|]; [ | discriminate ].
  inversion H4; subst wo'; clear H4.
  apply bind_Return_inv in H1; destruct H1 as (scr & s6 & H6 & H1).
  apply not_None_inv in H6; destruct H6 as [-> H6].
  destruct (window_screen wo) as [scr'|]; [ | discriminate ].
  inversion H6; subst scr'; clear H6.
  apply bind_Return_inv in H1; destruct H1 as (so & s7 & H7 & H1).
  unfold the_screen in H7.
  apply bind_Return_inv in H7; destruct H7 as (w & s8 & H8 & H7).
  apply get_world_inv in H8; destruct H8 as [H8 ->]; inversion H8; subst w; clear H8.
  apply not_None_inv in H7; destruct H7 as [-> H7].
  destruct (screens (world s) scr) as [so'|]; [ | discriminate ].
  inversion H7; subst so'; clear H7.
  exists (screen_areas so); split; [ reflexivity | ].
  eapply for_first_In; eauto.
Qed.

(** ** Orthographic views survive the add-on's own assignments *)

Lemma area_setattr_spaces_active x o :
  area_spaces_active (area_setattr x o) = area_spaces_active o.
Proof. destruct x; reflexivity. Qed.

Lemma space_setattr_perspective x o o' p :
  addon_assign (assign_space 0 x) ->
  space_setattr x o = Some o' ->
  (match space_region_3d o' with Some r => Some (view_perspective r) | None => None end) = Some p ->
  p = ORTHO
  \/ (match space_region_3d o with Some r => Some (view_perspective r) | None => None end) = Some p.
Proof.
  intros Hg H Hp; destruct x as [f b|y|b|y]; simpl in H.
  - destruct (space_flag o f); inversion H; subst; auto.
  - destruct (space_shading o); inversion H; subst; auto.
  - destruct (space_show_overlays o); inversion H; subst; auto.
  - destruct (space_region_3d o) as [r|]; inversion H; subst; simpl in *.
    destruct y; simpl in *; auto.
    inversion Hp; subst; auto.
Qed.

Lemma ortho_assign g w w' a :
  addon_assign g -> do_assign g w = Some w' -> view_is_ortho w a -> view_is_ortho w' a.
Proof.
  intros Hg H Ho p Hp. unfold view_is_ortho in Ho.
  unfold persp_of in *.
  destruct g as [a0 x|sp x|r x|scr b]; simpl in H.
  - destruct (areas w a0) as [o|] eqn:Ea; inversion H; subst; clear H; simpl in *.
    apply Ho.
    unfold store_set in Hp; destruct (Nat.eqb a a0) eqn:En.
    + apply Nat.eqb_eq in En; subst a0; rewrite Ea.
      rewrite area_setattr_spaces_active in Hp; exact Hp.
    + exact Hp.
  - destruct (spaces w sp) as [o|] eqn:Es; [ | discriminate ].
    destruct (space_setattr x o) as [o'|] eqn:Ex; inversion H; subst; clear H; simpl in *.
    destruct (areas w a) as [oa|]; [ | discriminate ].
    destruct (area_spaces_active oa) as [sp'|]; [ | discriminate ].
    unfold store_set in Hp; destruct (Nat.eqb sp' sp) eqn:En.
    + apply Nat.eqb_eq in En; subst sp'; rewrite Es in Ho.
      destruct (space_setattr_perspective x o o' p Hg Ex Hp) as [Hq | Hq]; auto.
    + auto.
  - destruct (windows w r); inversion H; subst; auto.
  - destruct (screens w scr); inversion H; subst; auto.
Qed.

(** The host's view operators never leave an orthographic view in another
    perspective, nor give a view to an area that had none. *)
Definition host_keeps_ortho (host : Host) : Prop :=
  forall ctx op w w' a,
    is_view_op op -> bpy_ops host ctx op w = Some w' ->
    view_is_ortho w a -> view_is_ortho w' a.

Definition view_call (ctx : CallCtx) (op : Operator) : Prop := is_view_op op.

Lemma Stable_ortho host a :
  host_keeps_ortho host -> Stable host view_call (fun w => view_is_ortho w a).
Proof.
  intros Hk; split.
  - intros ctx op w w' Hq H Ho; eapply Hk; eauto.
  - intros g w w' Hg H Ho; eapply ortho_assign; eauto.
Qed.

Lemma area_call_view area axis ctx op : area_call area axis ctx op -> view_call ctx op.
Proof.
  unfold area_call, axis_call, frame_call, view_call.
  intros [[_ H] | [_ H]]; destruct op; simpl in *; try discriminate; auto.
Qed.

Lemma runs_keeps Q N (I : World -> Prop) {A} (m : Py A) s r s' :
  runs Q N I m -> m s = (r, s') -> I (world s) -> I (world s').
Proof. intros Hm H; exact (proj2 (Hm _ _ _ H)). Qed.

Lemma runs_trace Q N (I : World -> Prop) {A} (m : Py A) s r s' :
  runs Q N I m -> m s = (r, s') ->
  exists l, trace s' = trace s ++ l /\ Forall (allowed Q N) l.
Proof. intros Hm H; exact (proj1 (Hm _ _ _ H)). Qed.

Lemma apply_view_axis_ortho_end host win area region axis s r s' :
  host_keeps_ortho host ->
  _apply_view_axis host win area region axis s = (r, s') ->
  view_is_ortho (world s') area.
Proof.
  intros Hk H; unfold _apply_view_axis in H.
  apply bind_inv in H; destruct H as [(u1 & s1 & H1 & H) | [H1 _]];
    [ | apply try_pass_inv in H1; destruct H1; discriminate ].
  apply force_ortho_spec in H1; destruct H1 as [_ O1].
  eapply (runs_keeps view_call no_action (fun w => view_is_ortho w area));
    [ | exact H | exact O1 ].
  pose proof (Stable_ortho host area Hk) as HS.
  unfold _override; runs_done.
Qed.

(** ** Lines 286-289 and 415-418: configuring the pair *)

(** The four calls both operators make once they have the two areas. *)
Definition configure_pair (host : Host) (win : option WindowRef)
  (top : AreaRef) (reg_top : Region) (bottom : AreaRef) (reg_bottom : Region) : Py unit :=
  _configure_silhouette_area host win top reg_top FRONT ;;
  _configure_silhouette_area host win bottom reg_bottom RIGHT ;;
  _apply_view_axis host win top reg_top FRONT ;;
  _apply_view_axis host win bottom reg_bottom RIGHT.

Definition pair_call (top bottom : AreaRef) (ctx : CallCtx) (op : Operator) : Prop :=
  area_call top FRONT ctx op \/ area_call bottom RIGHT ctx op.

Definition pair_request (top bottom : AreaRef) (a : Action) : Prop :=
  (axis_request top FRONT a \/ frame_request top a)
  \/ (axis_request bottom RIGHT a \/ frame_request bottom a).

Lemma configure_pair_runs host Q N I win top rt bottom rb :
  Stable host Q I ->
  (forall ctx op, pair_call top bottom ctx op -> Q ctx op) ->
  runs Q N I (configure_pair host win top rt bottom rb).
Proof.
  intros HS HQ; unfold configure_pair.
  (apply runs_bind; [ | intros; apply runs_bind; [ | intros; apply runs_bind; [ | intros ] ] ]);
    first [ eapply configure_silhouette_area_runs; [ eassumption | ]
          | eapply apply_view_axis_runs; [ eassumption | ] ];
    intros ctx op Hc; apply HQ; unfold pair_call, area_call in *; tauto.
Qed.


Lemma configure_pair_ortho host win top rt bottom rb s s' :
  host_keeps_ortho host ->
  configure_pair host win top rt bottom rb s = (Return tt, s') ->
  view_is_ortho (world s') top /\ view_is_ortho (world s') bottom.
Proof.
  unfold configure_pair; intros Hk H.
  apply bind_Return_inv in H; destruct H as (u1 & s1 & H1 & H).
  apply bind_Return_inv in H; destruct H as (u2 & s2 & H2 & H).
  apply bind_Return_inv in H; destruct H as (u3 & s3 & H3 & H).
  split.
  - eapply (runs_keeps view_call no_action (fun w => view_is_ortho w top));
      [ | exact H | eapply apply_view_axis_ortho_end; eauto ].
    eapply apply_view_axis_runs; [ apply Stable_ortho; assumption | ].
    intros ctx op Hc; eapply area_call_view; left; exact Hc.
  - eapply apply_view_axis_ortho_end; eauto.
Qed.

(** ** The deferred setup, taken apart *)

Definition split_call (ctx : CallCtx) (op : Operator) : Prop := is_area_split op.
Definition no_call (ctx : CallCtx) (op : Operator) : Prop := False.

Lemma py_in_In a l : py_in a l = true <-> In a l.
Proof.
  unfold py_in; rewrite existsb_exists; split.
  - intros (x & Hx & E); apply Nat.eqb_eq in E; subst; auto.
  - intros H; exists a; split; auto; apply Nat.eqb_refl.
Qed.

Ltac step H v s1 H1 :=
  apply bind_inv in H; destruct H as [(v & s1 & H1 & H) | [_ ->]];
  [ | simpl; exact Logic.I ].

(** ** The worlds in which the two areas are chosen *)

(** World [w1] is what the host made of world [w] in a call of
    [screen.area_split] that the actions [l] record as having returned. *)
Definition split_result (host : Host) (w : World) (l : list Action) (w1 : World) : Prop :=
  exists ctx op,
    is_area_split op /\ In (act_call ctx op w true) l /\ bpy_ops host ctx op w = Some w1.

Lemma split_result_app host w l l' w1 :
  split_result host w l w1 -> split_result host w (l' ++ l) w1 /\ split_result host w (l ++ l') w1.
Proof.
  intros (ctx & op & Hop & Hin & Hw); split; exists ctx, op; repeat split; auto;
    apply in_or_app; auto.
Qed.

(** Lines 257-268: when the block ends with [ok] set, one of its two calls
    returned, in the world the block started in, and it is the last action
    recorded. *)
Lemma split_block_world host (ov : Override) (area_a : AreaRef) s s' :
  (try_ (enter_override host ov ;;
         call host (ctx_temp ov) (screen_area_split HORIZONTAL (Some 0.5%float) None) ;;
         ret true)
   except_
    (try_ (y <- getattr_area area_y area_a ;;
           h <- getattr_area area_height area_a ;;
           let cy := (y + Z.max 1 (int_mul_half h))%Z in
           enter_override host ov ;;
           x <- getattr_area area_x area_a ;;
           call host (ctx_temp ov)
             (screen_area_split HORIZONTAL None (Some ((x + 5)%Z, cy))) ;;
           ret true)
     except_ ret false)) s = (Return true, s') ->
  exists l, trace s' = trace s ++ l /\ split_result host (world s) l (world s').
Proof.
  intros H; unfold_py.
  break_in H; inversion H; subst; clear H.
  all: repeat match goal with
              | E : (_, _) = (_, _) |- _ => inversion E; subst; clear E
              end.
  all: cbn [trace world with_action with_world] in *.
  all: eexists; (split; [ rewrite <- ?app_assoc; reflexivity | ]).
  all: eexists; eexists; (split; [ | split ]); [ | | eassumption ];
    [ exact Logic.I | simpl; auto ].
Qed.

Lemma deferred_setup_body_inv_world host new_win s r s' :
  VIEW3D_OT_open_silhouette_view_dual._deferred_setup_body host new_win s = (r, s') ->
  match r with
  | Raise => True
  | Return (Some f) =>
      f = 0.05%float
      /\ exists l, trace s' = trace s ++ l /\ Forall (allowed split_call no_action) l
  | Return None =>
      exists top rt bottom rb s1 s2,
        (exists l, trace s1 = trace s ++ l /\ Forall (allowed split_call no_action) l)
        /\ (forall I, Stable host split_call I -> I (world s) -> I (world s1))
        /\ top <> bottom
        /\ (exists ot ob, areas (world s1) top = Some ot /\ areas (world s1) bottom = Some ob
                          /\ (area_y ob <= area_y ot)%Z)
        /\ window_ok (world s1) new_win
        /\ configure_pair host new_win top rt bottom rb s1 = (Return tt, s2)
        /\ (exists l, trace s1 = trace s ++ l /\ split_result host (world s) l (world s1))
        /\ trace s' = trace s2
        /\ (forall I, Stable host no_call I -> I (world s2) -> I (world s'))
  end.
Proof.
  unfold VIEW3D_OT_open_silhouette_view_dual._deferred_setup_body; intros H.
  step H found s0 H0.
  apply find_window_view3d_area_spec in H0; destruct H0 as [-> (fa & fr & E & Hfa)].
  inversion E; subst found; clear E.
  assert (Hnil : exists l, trace s = trace s ++ l /\ Forall (allowed split_call no_action) l)
    by (exists []; rewrite app_nil_r; auto).
  destruct fa as [area_a|];
    [ | apply ret_inv in H; destruct H as [-> ->]; simpl; auto ].
  destruct fr as [region_a|];
    [ | apply ret_inv in H; destruct H as [-> ->]; simpl; auto ].
  destruct (Hfa _ eq_refl) as (l0 & Hwa & Hin); clear Hfa.
  step H screen s1 H1.
  apply getattr_screen_inv in H1; destruct H1 as [-> H1].
  step H before s2 H2.
  assert (Hb : s2 = s /\ In area_a before).
  { unfold window_areas in Hwa. destruct new_win as [r0|]; [ | discriminate ].
    destruct H1 as (wo & Ew & ->). rewrite Ew in Hwa.
    destruct (window_screen wo) as [scr|]; [ | discriminate ].
    apply list_screen_areas_inv in H2; destruct H2 as [-> (r1 & so & E1 & E2 & ->)].
    inversion E1; subst r1; clear E1. rewrite E2 in Hwa. inversion Hwa; subst. auto. }
  destruct Hb as [-> Hb]; clear H2 H1 Hwa.
  step H ok s3 H3.
  assert (R3 : forall I, Stable host split_call I ->
                 (exists l, trace s3 = trace s ++ l /\ Forall (allowed split_call no_action) l)
                 /\ (I (world s) -> I (world s3))).
  { intros I HS.
    match type of H3 with ?m _ = _ =>
      cut (runs split_call no_action I m); [ intros Hr; exact (Hr _ _ _ H3) | ] end.
    runs_done. }
  destruct ok; simpl in H;
    [ | apply ret_inv in H; destruct H as [-> ->]; simpl; split; auto;
        exact (proj1 (R3 _ (Stable_True host split_call))) ].
  step H screen' s4 H4.
  apply getattr_screen_inv in H4; destruct H4 as [-> H4].
  step H now s5 H5.
  assert (Hs5 : s5 = s3 /\ window_ok (world s3) new_win).
  { destruct screen' as [scr|].
    - apply list_screen_areas_inv in H5; destruct H5 as [-> _]. split; auto.
      destruct new_win as [r0|]; simpl; auto.
      destruct H4 as (wo & Ew & _); congruence.
    - apply ret_inv in H5; destruct H5 as [_ ->]. split; auto.
      destruct new_win as [r0|]; simpl; auto.
      destruct H4 as (wo & Ew & _); congruence. }
  destruct Hs5 as [-> Hwok]; clear H5 H4.
  destruct (filter (fun a => negb (py_in a before)) now) as [|new_area cands] eqn:Ef;
    [ apply ret_inv in H; destruct H as [-> ->]; simpl; split; auto;
      exact (proj1 (R3 _ (Stable_True host split_call))) | ].
  assert (Hnew : new_area <> area_a).
  { assert (Hi : In new_area (filter (fun a => negb (py_in a before)) now))
      by (rewrite Ef; left; reflexivity).
    apply filter_In in Hi; destruct Hi as [_ Hi].
    intros ->. apply negb_true_iff in Hi.
    apply py_in_In in Hb. congruence. }
  step H ya s6 H6.
  apply getattr_area_inv in H6; destruct H6 as [-> (oa & Eoa & ->)].
  step H yn s7 H7.
  apply getattr_area_inv in H7; destruct H7 as [-> (on & Eon & ->)].
  set (tb := if Z.geb (area_y oa) (area_y on) then (area_a, new_area) else (new_area, area_a)) in H.
  assert (Htb : fst tb <> snd tb
                /\ exists ot ob, areas (world s3) (fst tb) = Some ot
                                 /\ areas (world s3) (snd tb) = Some ob
                                 /\ (area_y ob <= area_y ot)%Z).
  { subst tb; destruct (Z.geb (area_y oa) (area_y on)) eqn:Eg; simpl; split; auto.
    - exists oa, on; repeat split; auto. apply Z.geb_le; exact Eg.
    - exists on, oa; repeat split; auto.
      rewrite Z.geb_leb in Eg. apply Z.leb_gt in Eg. lia. }
  destruct tb as [area_top area_bottom]; simpl in Htb; destruct Htb as [Hne Hy].
  step H reg_top s8 H8.
  apply next_window_region_inv in H8; destruct H8 as [-> _].
  step H reg_bottom s9 H9.
  apply next_window_region_inv in H9; destruct H9 as [-> _].
  destruct reg_top as [reg_top|];
    [ | apply ret_inv in H; destruct H as [-> ->]; simpl; split; auto;
        exact (proj1 (R3 _ (Stable_True host split_call))) ].
  destruct reg_bottom as [reg_bottom|];
    [ | apply ret_inv in H; destruct H as [-> ->]; simpl; split; auto;
        exact (proj1 (R3 _ (Stable_True host split_call))) ].
  step H u1 t1 C1. step H u2 t2 C2. step H u3 t3 C3. step H u4 t4 C4.
  step H u5 t5 C5. step H u6 t6 C6.
  apply ret_inv in H; destruct H as [-> ->]; simpl.
  exists area_top, reg_top, area_bottom, reg_bottom, s3, t4.
  split; [ exact (proj1 (R3 _ (Stable_True host split_call))) | ].
  split; [ intros I HS; exact (proj2 (R3 I HS)) | ].
  split; [ exact Hne | ].
  split; [ exact Hy | ].
  split; [ exact Hwok | ].
  split; [ unfold configure_pair, bind; rewrite C1, C2, C3; destruct u4; exact C4 | ].
  split; [ exact (split_block_world _ _ _ _ _ H3) | ].
  split.
  - transitivity (trace t5).
    + eapply silent_trace; [ | exact C6 ]. runs_done.
    + eapply silent_trace; [ | exact C5 ].
      unfold hide_ui, setattr_space; runs_done.
  - intros I HS Hi.
    eapply (runs_keeps no_call no_action I); [ | exact C6 | ].
    + runs_done.
    + eapply (runs_keeps no_call no_action I); [ | exact C5 | exact Hi ].
      unfold hide_ui, setattr_space; runs_done.
Qed.

Lemma deferred_setup_body_inv host new_win s r s' :
  VIEW3D_OT_open_silhouette_view_dual._deferred_setup_body host new_win s = (r, s') ->
  match r with
  | Raise => True
  | Return (Some f) =>
      f = 0.05%float
      /\ exists l, trace s' = trace s ++ l /\ Forall (allowed split_call no_action) l
  | Return None =>
      exists top rt bottom rb s1 s2,
        (exists l, trace s1 = trace s ++ l /\ Forall (allowed split_call no_action) l)
        /\ (forall I, Stable host split_call I -> I (world s) -> I (world s1))
        /\ top <> bottom
        /\ (exists ot ob, areas (world s1) top = Some ot /\ areas (world s1) bottom = Some ob
                          /\ (area_y ob <= area_y ot)%Z)
        /\ window_ok (world s1) new_win
        /\ configure_pair host new_win top rt bottom rb s1 = (Return tt, s2)
        /\ trace s' = trace s2
        /\ (forall I, Stable host no_call I -> I (world s2) -> I (world s'))
  end.
Proof.
  intros H; apply deferred_setup_body_inv_world in H.
  destruct r as [[f|]|]; [ exact H | | exact H ].
  destruct H as (top & rt & bottom & rb & s1 & s2 & T0 & K1 & Hne & Hy & Hw & Hc & _ & T & K2).
  exists top, rt, bottom, rb, s1, s2; repeat split; assumption.
Qed.

(** ** Lists: [sorted], [max], comprehensions *)

Lemma insert_sorted_perm {A K} (le : K -> K -> bool) (x : A * K) l :
  Permutation (insert_sorted le x l) (x :: l).
Proof.
  induction l as [|y l IH]; simpl; auto.
  destruct (le (snd x) (snd y)); auto.
  rewrite IH; apply perm_swap.
Qed.

Lemma sorted_perm {A K} (le : K -> K -> bool) (l : list (A * K)) :
  Permutation (sorted le l) (map fst l).
Proof.
  unfold sorted; apply Permutation_map.
  induction l as [|x l IH]; simpl; auto.
  rewrite insert_sorted_perm; auto.
Qed.

Lemma sorted_In {A K} (le : K -> K -> bool) (l : list (A * K)) a :
  In a (sorted le l) <-> In a (map fst l).
Proof.
  split; apply Permutation_in; [ | symmetry ]; apply sorted_perm.
Qed.

Lemma sorted_NoDup {A K} (le : K -> K -> bool) (l : list (A * K)) :
  NoDup (map fst l) -> NoDup (sorted le l).
Proof. intros H; eapply Permutation_NoDup; [ symmetry; apply sorted_perm | exact H ]. Qed.

Lemma max_by_key_In {A} (best : A * Z) (l : list (A * Z)) :
  In (max_by_key best l) (map fst (best :: l)).
Proof.
  revert best; induction l as [|y l IH]; intros best; simpl; auto.
  specialize (IH (if Z.ltb (snd best) (snd y) then y else best)).
  destruct (Z.ltb (snd best) (snd y)); simpl in IH; tauto.
Qed.

Lemma firstn_In {A} n (l : list A) a : In a (firstn n l) -> In a l.
Proof.
  revert n; induction l as [|x l IH]; intros [|n]; simpl; try tauto.
  intros [H | H]; auto; right; eapply IH; eauto.
Qed.

Lemma firstn_NoDup {A} n (l : list A) : NoDup l -> NoDup (firstn n l).
Proof.
  revert n; induction l as [|x l IH]; intros [|n] H; simpl; try constructor.
  - inversion H; subst. intros Hin; apply H2. eapply firstn_In; eauto.
  - inversion H; auto.
Qed.

(** [[f(x) for x in l]] where [f] reads and pairs [x] with what it read. *)
Lemma for_each_keyed {A K} (f : A -> Py (A * K)) (R : A -> K -> State -> Prop) l :
  (forall a s r s', f a s = (Return r, s') -> s' = s /\ fst r = a /\ R a (snd r) s) ->
  forall s keyed s', for_each f l s = (Return keyed, s') ->
    s' = s /\ map fst keyed = l /\ Forall (fun r => R (fst r) (snd r) s) keyed.
Proof.
  intros Hf; induction l as [|x l IH]; simpl; intros s keyed s' H.
  - apply ret_inv in H; destruct H as [E ->]; inversion E; auto.
  - apply bind_Return_inv in H; destruct H as (y & s1 & H1 & H).
    apply Hf in H1; destruct H1 as (-> & E1 & R1).
    apply bind_Return_inv in H; destruct H as (ys & s2 & H2 & H).
    apply IH in H2; destruct H2 as (-> & E2 & R2).
    apply ret_inv in H; destruct H as [E ->]; inversion E; subst; simpl.
    repeat split; auto.
Qed.

(** [[x for x in l if test(x)]] where [test] reads. *)
Lemma filter_m_spec {A} (test : A -> Py bool) (T : A -> State -> Prop) l :
  (forall a s b s', test a s = (Return b, s') -> s' = s /\ (b = true -> T a s)) ->
  forall s res s', filter_m test l s = (Return res, s') ->
    s' = s /\ (forall a, In a res -> In a l /\ T a s) /\ (NoDup l -> NoDup res).
Proof.
  intros Ht; induction l as [|x l IH]; simpl; intros s res s' H.
  - apply ret_inv in H; destruct H as [E ->]; inversion E; subst.
    split; [ reflexivity | split; [ intros ? [] | auto ] ].
  - apply bind_Return_inv in H; destruct H as (b & s1 & H1 & H).
    apply Ht in H1; destruct H1 as (-> & Hb).
    apply bind_Return_inv in H; destruct H as (r0 & s2 & H2 & H).
    apply IH in H2; destruct H2 as (-> & Hin & Hnd).
    apply ret_inv in H; destruct H as [E ->]; inversion E; subst; clear E.
    split; [ reflexivity | ]. split.
    + intros a Ha; destruct b.
      * destruct Ha as [<- | Ha]; [ split; auto | ].
        destruct (Hin _ Ha); split; auto.
      * destruct (Hin _ Ha); split; auto.
    + intros Hn; inversion Hn; subst. destruct b; auto.
      constructor; auto. intros Hx; apply H1. apply Hin; exact Hx.
Qed.

Lemma filter_not_in_NoDup (before l : list nat) x :
  NoDup l -> In x before ->
  NoDup (filter (fun a => negb (py_in a before)) l ++ [x]).
Proof.
  intros Hn Hx. apply NoDup_app.
  - apply NoDup_filter; exact Hn.
  - repeat constructor; simpl; tauto.
  - intros a Ha [<- | []]. apply filter_In in Ha; destruct Ha as [_ Ha].
    apply negb_true_iff in Ha. apply py_in_In in Hx. congruence.
Qed.

(** ** Screens *)

Definition screens_nodup (w : World) : Prop :=
  forall scr so, screens w scr = Some so -> NoDup (screen_areas so).

Definition listed (a : AreaRef) (scr : ScreenRef) (w : World) : Prop :=
  exists so, screens w scr = Some so /\ In a (screen_areas so).

(** The current area belongs to the current screen. *)
Definition context_area_listed (w : World) : Prop :=
  forall a scr, context_area (context w) = Some a -> context_screen (context w) = Some scr ->
                listed a scr w.

(** Splitting an area removes no area from a screen and lists none twice. *)
Definition host_keeps_screens (host : Host) : Prop :=
  forall ctx op w w',
    is_area_split op -> bpy_ops host ctx op w = Some w' ->
    (screens_nodup w -> screens_nodup w')
    /\ (forall a scr, listed a scr w -> listed a scr w').

Lemma do_assign_screen_areas g w w' scr :
  do_assign g w = Some w' ->
  option_map screen_areas (screens w' scr) = option_map screen_areas (screens w scr).
Proof.
  destruct g as [a x|sp x|r x|scr0 b]; simpl; intros H.
  - destruct (areas w a); inversion H; reflexivity.
  - destruct (spaces w sp) as [o|]; [ | discriminate ].
    destruct (space_setattr x o); inversion H; reflexivity.
  - destruct (windows w r); inversion H; reflexivity.
  - destruct (screens w scr0) as [o|] eqn:E; inversion H; subst; simpl.
    unfold store_set; destruct (Nat.eqb scr scr0) eqn:En; auto.
    apply Nat.eqb_eq in En; subst; rewrite E; reflexivity.
Qed.

Lemma Stable_screens_nodup host :
  host_keeps_screens host -> Stable host split_call screens_nodup.
Proof.
  intros Hk; split.
  - intros ctx op w w' Hq H; exact (proj1 (Hk _ _ _ _ Hq H)).
  - intros g w w' _ H Hn scr so' E.
    pose proof (do_assign_screen_areas g w w' scr H) as Ha.
    rewrite E in Ha; simpl in Ha.
    destruct (screens w scr) as [so|] eqn:Es; [ | discriminate ].
    inversion Ha as [Hb]; rewrite Hb; eapply Hn; eauto.
Qed.

Lemma Stable_listed host a scr :
  host_keeps_screens host -> Stable host split_call (listed a scr).
Proof.
  intros Hk; split.
  - intros ctx op w w' Hq H; exact (proj2 (Hk _ _ _ _ Hq H) a scr).
  - intros g w w' _ H (so & E & Hin).
    pose proof (do_assign_screen_areas g w w' scr H) as Ha.
    rewrite E in Ha; simpl in Ha.
    destruct (screens w' scr) as [so'|] eqn:E'; [ | discriminate ].
    inversion Ha as [Hb]; exists so'; split; auto; rewrite Hb; exact Hin.
Qed.

(** ** The values a computation can return *)

Definition returns {A} (P : A -> Prop) (m : Py A) : Prop :=
  forall s a s', m s = (Return a, s') -> P a.

Lemma returns_ret {A} (P : A -> Prop) a : P a -> returns P (ret a).
Proof. intros Hp s b s' H; apply ret_inv in H; destruct H as [E _]; inversion E; subst; auto. Qed.

Lemma returns_bind {A B} (P : B -> Prop) (m : Py A) (k : A -> Py B) :
  (forall a, returns P (k a)) -> returns P (bind m k).
Proof.
  intros Hk s b s' H; apply bind_Return_inv in H; destruct H as (a & s1 & _ & H).
  eapply Hk; eauto.
Qed.

Lemma returns_try_except {A} (P : A -> Prop) (m h : Py A) :
  returns P m -> returns P h -> returns P (try_except m h).
Proof.
  intros Hm Hh s a s' H; apply try_except_inv in H.
  destruct H as [(x & H & E) | (s1 & _ & H)].
  - inversion E; subst; eapply Hm; eauto.
  - eapply Hh; eauto.
Qed.

Ltac returns_tac :=
  repeat first [ apply returns_try_except | apply returns_bind; intros
               | apply returns_ret
               | match goal with
                 | |- returns _ (match ?x with _ => _ end) => destruct x
                 end ].

Definition is_report (a : Action) : Prop :=
  match a with act_report _ _ => True | _ => False end.

(** A [try] that starts with a host call records that call first. *)
Lemma call_first host ctx op {A} (k h : Py A) s r s' :
  (exists Q N, runs Q N (fun _ => True) k /\ runs Q N (fun _ => True) h) ->
  (try_ (call host ctx op ;; k) except_ h) s = (r, s') ->
  exists ok l, trace s' = trace s ++ act_call ctx op (world s) ok :: l.
Proof.
  intros (Q & N & Hk & Hh) H.
  apply try_except_inv in H; destruct H as [(a & H & _) | (s1 & H & H')].
  - apply bind_Return_inv in H; destruct H as (u & s2 & Hc & H).
    destruct (runs_trace _ _ _ _ _ _ _ Hk H) as (l & E & _).
    revert Hc; unfold call; destruct (bpy_ops host ctx op (world s)); intros Hc;
      inversion Hc; subst; clear Hc; simpl in E.
    exists true, l; rewrite E, <- app_assoc; reflexivity.
  - destruct (runs_trace _ _ _ _ _ _ _ Hh H') as (l' & E' & _).
    apply bind_inv in H; destruct H as [(u & s2 & Hc & H) | [Hc _]].
    + destruct (runs_trace _ _ _ _ _ _ _ Hk H) as (l & E & _).
      revert Hc; unfold call; destruct (bpy_ops host ctx op (world s)); intros Hc;
        inversion Hc; subst; clear Hc; simpl in E.
      exists true, (l ++ l'); rewrite E', E, <- !app_assoc; reflexivity.
    + revert Hc; unfold call; destruct (bpy_ops host ctx op (world s)); intros Hc;
        inversion Hc; subst; clear Hc; simpl in E'.
      exists false, l'; rewrite E', <- app_assoc; reflexivity.
Qed.

(** ** The split-current operator, taken apart *)

Ltac stepR H v s1 H1 :=
  apply bind_Return_inv in H; destruct H as (v & s1 & H1 & H).

Ltac cancelled H :=
  solve [ apply bind_Return_inv in H; destruct H as (? & ? & _ & H);
          apply ret_inv in H; destruct H as [H _]; discriminate H ].

(** Lines 353-363: when the first split of the split-current operator does
    not cancel, one of its two calls returned, in the world it started in. *)
Lemma first_split_world host (area : AreaRef) s s' :
  (try_ (call host ctx_current (screen_area_split VERTICAL (Some 0.5%float) None) ;; ret None)
   except_
    (try_ (x <- getattr_area area_x area ;; wd <- getattr_area area_width area ;;
           let cx := (x + Z.max 1 (int_mul_half wd))%Z in
           y <- getattr_area area_y area ;; h <- getattr_area area_height area ;;
           let cy := (y + Z.max 1 (int_mul_half h))%Z in
           call host ctx_current (screen_area_split VERTICAL None (Some (cx, cy))) ;;
           ret None)
     except_ (report ERROR "Failed to split current area: " ;; ret (Some CANCELLED)))) s
  = (Return (@None OperatorResult), s') ->
  exists l, trace s' = trace s ++ l /\ split_result host (world s) l (world s').
Proof.
  intros H; unfold_py.
  break_in H; inversion H; subst; clear H.
  all: repeat match goal with
              | E : (_, _) = (_, _) |- _ => inversion E; subst; clear E
              end.
  all: cbn [trace world with_action with_world] in *.
  all: eexists; (split; [ rewrite <- ?app_assoc; reflexivity | ]).
  all: eexists; eexists; (split; [ | split ]); [ | | eassumption ];
    [ exact Logic.I | simpl; auto ].
Qed.

(** Lines 378-390: when the second split does not cancel, either the left
    area has no WINDOW region and nothing happened, or one of the two calls
    returned, in the world the block started in. *)
Lemma second_split_world host (area_left : AreaRef) s s' :
  (try_ (regs <- getattr_area area_regions area_left ;;
         match find is_WINDOW regs with
         | Some r =>
             let ov := {| ov_window := None; ov_screen := None;
                          ov_area := Some area_left; ov_region := Some r |} in
             enter_override host ov ;;
             try_ call host (ctx_temp ov) (screen_area_split HORIZONTAL (Some 0.5%float) None)
             except_ (y <- getattr_area area_y area_left ;;
                      h <- getattr_area area_height area_left ;;
                      let cy := (y + Z.max 1 (int_mul_half h))%Z in
                      x <- getattr_area area_x area_left ;;
                      call host (ctx_temp ov)
                        (screen_area_split HORIZONTAL None (Some ((x + 5)%Z, cy))))
         | None => ret tt
         end ;;
         ret None)
   except_ (report ERROR "Failed to split left area: " ;; ret (Some CANCELLED))) s
  = (Return (@None OperatorResult), s') ->
  s' = s
  \/ exists l, trace s' = trace s ++ l /\ split_result host (world s) l (world s').
Proof.
  intros H; unfold_py.
  break_in H; inversion H; subst; clear H.
  all: repeat match goal with
              | E : (_, _) = (_, _) |- _ => inversion E; subst; clear E
              end.
  all: cbn [trace world with_action with_world] in *.
  all: try (left; reflexivity).
  all: right; eexists; (split; [ rewrite <- ?app_assoc; reflexivity | ]).
  all: eexists; eexists; (split; [ | split ]); [ | | eassumption ];
    [ exact Logic.I | simpl; auto ].
Qed.

Lemma filter_not_in_self (l : list AreaRef) : filter (fun a => negb (py_in a l)) l = [].
Proof.
  assert (H : forall l', incl l' l -> filter (fun a => negb (py_in a l)) l' = []).
  { induction l' as [|x l' IH]; simpl; intros Hi; auto.
    assert (Hx : py_in x l = true) by (apply py_in_In, Hi; left; reflexivity).
    rewrite Hx; simpl. apply IH. intros a Ha; apply Hi; right; exact Ha. }
  apply H, incl_refl.
Qed.

Lemma split_execute_inv_world host s s' :
  VIEW3D_OT_open_silhouette_split_current.execute host s = (Return FINISHED, s') ->
  exists top rt bottom rb s1 s2,
    (exists l, trace s1 = trace s ++ l /\ Forall (allowed split_call is_report) l)
    /\ (exists ok l, trace s1 = trace s
                                ++ act_call ctx_current
                                     (screen_area_split VERTICAL (Some 0.5%float) None)
                                     (world s) ok :: l)
    /\ (forall I, Stable host split_call I -> I (world s) -> I (world s1))
    /\ (host_keeps_screens host -> screens_nodup (world s) ->
        context_area_listed (world s) -> top <> bottom)
    /\ (exists ot ob, areas (world s1) top = Some ot /\ areas (world s1) bottom = Some ob
                      /\ area_type ot = VIEW_3D /\ area_type ob = VIEW_3D
                      /\ (area_y ob <= area_y ot)%Z)
    /\ configure_pair host (context_window (context (world s))) top rt bottom rb s1
       = (Return tt, s2)
    /\ (exists wa l, trace s1 = trace s ++ l
                     /\ split_result host (world s) l wa
                     /\ split_result host wa l (world s1))
    /\ world s' = world s2
    /\ (trace s' = trace s2
        \/ trace s' = trace s2
                      ++ [act_timer (timer_post_fix (context_window (context (world s)))
                                       top rt bottom rb) 0.05%float]).
Proof.
  unfold VIEW3D_OT_open_silhouette_split_current.execute; intros H.
  stepR H w s0 H0. apply get_world_inv in H0; destruct H0 as [E ->]; inversion E; subst w; clear E.
  stepR H area s0 H0. apply not_None_inv in H0; destruct H0 as [-> H0].
  destruct (context_area (context (world s))) as [area'|] eqn:Earea; [ | discriminate ].
  inversion H0; subst area'; clear H0.
  stepR H region s0 H0. apply next_window_region_inv in H0; destruct H0 as [-> _].
  destruct region as [region|]; [ | cancelled H ].
  stepR H before s0 H0.
  apply list_screen_areas_inv in H0; destruct H0 as [-> (scr & so & Escr & Eso & ->)].
  stepR H orig_x s0 H0. apply getattr_area_inv in H0; destruct H0 as [-> _].
  stepR H failed sa H1.
  assert (R1 : forall I, Stable host split_call I ->
                 (exists l, trace sa = trace s ++ l /\ Forall (allowed split_call is_report) l)
                 /\ (I (world s) -> I (world sa))).
  { intros I HS.
    match type of H1 with ?m _ = _ =>
      cut (runs split_call is_report I m); [ intros Hr; exact (Hr _ _ _ H1) | ] end.
    runs_done. }
  assert (First : exists ok l, trace sa = trace s
                                       ++ act_call ctx_current
                                            (screen_area_split VERTICAL (Some 0.5%float) None)
                                            (world s) ok :: l).
  { eapply call_first; [ | exact H1 ].
    exists (fun _ _ => True), (fun _ => True); split; runs_done. }
  assert (V1 : failed = None \/ failed = Some CANCELLED).
  { revert H1. match goal with |- ?m _ = _ -> _ =>
      cut (returns (fun v => v = None \/ v = Some CANCELLED) m);
        [ intros Hr H1; exact (Hr _ _ _ H1) | ] end.
    returns_tac; auto. }
  destruct V1 as [-> | ->];
    [ | apply ret_inv in H; destruct H as [H _]; discriminate H ].
  pose proof (first_split_world _ _ _ _ H1) as W1.
  clear H1.
  stepR H now s0 H0.
  apply list_screen_areas_inv in H0; destruct H0 as [-> (scr' & soa & Escr' & Esoa & ->)].
  rewrite Escr in Escr'; inversion Escr'; subst scr'; clear Escr'.
  remember (filter (fun a => negb (py_in a (screen_areas so))) (screen_areas soa))
    as new_areas eqn:Enew.
  destruct new_areas as [|first rest]; [ cancelled H | ].
  cbv beta iota in H.
  set (new_areas := first :: rest) in *.
  stepR H keyed s0 H0.
  apply (for_each_keyed _ (fun _ _ _ => True)) in H0.
  2:{ intros a s2 r s2' Hf. apply bind_Return_inv in Hf; destruct Hf as (x & s3 & Hx & Hf).
      apply getattr_area_inv in Hx; destruct Hx as [-> _].
      apply ret_inv in Hf; destruct Hf as [E ->]; inversion E; auto. }
  destruct H0 as (-> & Ekeyed & _).
  set (area_right := match keyed with k :: ks => max_by_key k ks | [] => first end) in *.
  assert (Hright : In area_right new_areas).
  { subst area_right. destruct keyed as [|k ks].
    - left; reflexivity.
    - rewrite <- Ekeyed. apply max_by_key_In. }
  stepR H ax s0 H0. apply getattr_area_inv in H0; destruct H0 as [-> _].
  stepR H rx s0 H0. apply getattr_area_inv in H0; destruct H0 as [-> _].
  stepR H sides s0 H0.
  assert (Hsides : s0 = sa /\ In (fst sides) (area :: new_areas)).
  { match type of H0 with (if ?c then _ else _) _ = _ => destruct c end.
    - stepR H0 keyed' s1 H1.
      apply (for_each_keyed _ (fun _ _ _ => True)) in H1.
      2:{ intros a s2 r s2' Hf. apply bind_Return_inv in Hf; destruct Hf as (x & s3 & Hx & Hf).
          apply getattr_area_inv in Hx; destruct Hx as [-> _].
          apply ret_inv in Hf; destruct Hf as [E ->]; inversion E; auto. }
      destruct H1 as (-> & Ek' & _).
      apply ret_inv in H0; destruct H0 as [E ->]; inversion E; subst sides; clear E.
      split; auto. simpl fst.
      destruct (sorted Z.leb keyed') as [|h t] eqn:Es; [ left; reflexivity | ].
      change (In h (area :: new_areas)). rewrite <- Ek'. apply (sorted_In Z.leb). rewrite Es; left; reflexivity.
    - apply ret_inv in H0; destruct H0 as [E ->]; inversion E; subst sides; clear E.
      split; auto. simpl fst. destruct (Z.leb ax rx); [ left; reflexivity | right; exact Hright ]. }
  destruct Hsides as [-> Hleft]. clear H0.
  destruct sides as [area_left area_right'];
    change (In area_left (area :: new_areas)) in Hleft.
  stepR H before2 s0 H0.
  apply list_screen_areas_inv in H0; destruct H0 as [-> (scr' & soa' & Escr' & Esoa' & ->)].
  rewrite Escr in Escr'; inversion Escr'; subst scr'; clear Escr'.
  rewrite Esoa in Esoa'; inversion Esoa'; subst soa'; clear Esoa'.
  stepR H failed sb H2.
  assert (R2 : forall I, Stable host split_call I ->
                 (exists l, trace sb = trace sa ++ l /\ Forall (allowed split_call is_report) l)
                 /\ (I (world sa) -> I (world sb))).
  { intros I HS.
    match type of H2 with ?m _ = _ =>
      cut (runs split_call is_report I m); [ intros Hr; exact (Hr _ _ _ H2) | ] end.
    runs_done. }
  assert (V2 : failed = None \/ failed = Some CANCELLED).
  { revert H2. match goal with |- ?m _ = _ -> _ =>
      cut (returns (fun v => v = None \/ v = Some CANCELLED) m);
        [ intros Hr H2; exact (Hr _ _ _ H2) | ] end.
    returns_tac; auto. }
  destruct V2 as [-> | ->];
    [ | apply ret_inv in H; destruct H as [H _]; discriminate H ].
  pose proof (second_split_world _ _ _ _ H2) as W2.
  clear H2.
  stepR H now2 s0 H0.
  apply list_screen_areas_inv in H0; destruct H0 as [-> (scr' & sob & Escr' & Esob & ->)].
  rewrite Escr in Escr'; inversion Escr'; subst scr'; clear Escr'.
  remember (filter (fun a => negb (py_in a (screen_areas soa))) (screen_areas sob))
    as new_areas2 eqn:Enew2.
  destruct new_areas2 as [|first2 rest2]; [ cancelled H | ].
  assert (W2' : exists l, trace sb = trace sa ++ l
                          /\ split_result host (world sa) l (world sb)).
  { destruct W2 as [W2 | W2]; [ exfalso | exact W2 ].
    rewrite W2, Esoa in Esob; inversion Esob; subst sob.
    rewrite filter_not_in_self in Enew2; discriminate. }
  clear W2.
  cbv beta iota in H.
  set (new_areas2 := first2 :: rest2) in *.
  stepR H view3d s0 H0.
  apply (filter_m_spec _ (fun a st => exists o, areas (world st) a = Some o /\ area_type o = VIEW_3D))
    in H0.
  2:{ intros a s2 b s2' Hf. apply bind_Return_inv in Hf; destruct Hf as (t & s3 & Ht & Hf).
      apply getattr_area_inv in Ht; destruct Ht as [-> (o & Eo & ->)].
      apply ret_inv in Hf; destruct Hf as [E ->]; inversion E; subst b; clear E.
      split; auto. intros Eq; apply String.eqb_eq in Eq; eauto. }
  destruct H0 as (-> & Hview & Hvnd).
  stepR H keyed3 s0 H0.
  apply (for_each_keyed _ (fun _ _ _ => True)) in H0.
  2:{ intros a s2 r s2' Hf.
      apply bind_Return_inv in Hf; destruct Hf as (x & s3 & Hx & Hf).
      apply getattr_area_inv in Hx; destruct Hx as [-> _].
      apply bind_Return_inv in Hf; destruct Hf as (lx & s3 & Hx & Hf).
      apply getattr_area_inv in Hx; destruct Hx as [-> _].
      apply bind_Return_inv in Hf; destruct Hf as (y & s3 & Hx & Hf).
      apply getattr_area_inv in Hx; destruct Hx as [-> _].
      apply ret_inv in Hf; destruct Hf as [E ->]; inversion E; auto. }
  destruct H0 as (-> & Ekeyed3 & _).
  set (left_subs := firstn 2 (sorted pair_leb keyed3)) in *.
  assert (Hsubs_in : forall a, In a left_subs -> In a view3d).
  { intros a Ha. rewrite <- Ekeyed3. apply (sorted_In pair_leb).
    eapply firstn_In; exact Ha. }
  assert (Hsubs_nd : NoDup view3d -> NoDup left_subs).
  { intros Hn. apply firstn_NoDup, sorted_NoDup. rewrite Ekeyed3; exact Hn. }
  assert (Hlen : (List.length left_subs <= 2)%nat) by (apply firstn_le_length).
  destruct (Nat.ltb (List.length left_subs) 2) eqn:Elt; [ cancelled H | ].
  apply Nat.ltb_ge in Elt.
  destruct left_subs as [|p [|q [|z zs]]] eqn:Esubs; simpl in Elt, Hlen; try lia.
  clear Elt Hlen.
  stepR H keyed4 s0 H0.
  apply (for_each_keyed _ (fun a y st => exists o, areas (world st) a = Some o /\ y = area_y o))
    in H0.
  2:{ intros a s2 r s2' Hf. apply bind_Return_inv in Hf; destruct Hf as (y & s3 & Hy & Hf).
      apply getattr_area_inv in Hy; destruct Hy as [-> (o & Eo & ->)].
      apply ret_inv in Hf; destruct Hf as [E ->]; inversion E; simpl; eauto. }
  destruct H0 as (-> & Ekeyed4 & Hys).
  destruct keyed4 as [|[p' yp] [|[q' yq] [|z zs]]]; simpl in Ekeyed4; try discriminate.
  inversion Ekeyed4; subst p' q'; clear Ekeyed4.
  inversion Hys as [|? ? Hyp Hys']; subst. inversion Hys' as [|? ? Hyq _]; subst.
  simpl in Hyp, Hyq. destruct Hyp as (op & Eop & ->). destruct Hyq as (oq & Eoq & ->).
  clear Hys Hys'.
  assert (Htype : forall a, In a [p; q] ->
            exists o, areas (world sb) a = Some o /\ area_type o = VIEW_3D).
  { intros a Ha. apply Hsubs_in in Ha. apply Hview in Ha. tauto. }
  destruct (Htype p (or_introl eq_refl)) as (op' & Eop' & Tp).
  rewrite Eop in Eop'; inversion Eop'; subst op'; clear Eop'.
  destruct (Htype q (or_intror (or_introl eq_refl))) as (oq' & Eoq' & Tq).
  rewrite Eoq in Eoq'; inversion Eoq'; subst oq'; clear Eoq'.
  assert (Hdistinct : host_keeps_screens host -> screens_nodup (world s) ->
                      context_area_listed (world s) -> p <> q).
  { intros Hk Hnd Hl.
    assert (Hn : NoDup [p; q]).
    { apply Hsubs_nd, Hvnd. rewrite Enew2.
      apply filter_not_in_NoDup.
      - pose proof (Stable_screens_nodup host Hk) as HS.
        eapply (proj2 (R2 _ HS) (proj2 (R1 _ HS) Hnd)); exact Esob.
      - destruct Hleft as [<- | Hin].
        + destruct (proj2 (R1 _ (Stable_listed host area scr Hk))
                      (Hl _ _ Earea Escr)) as (so1 & E1 & Hi).
          rewrite Esoa in E1; inversion E1; subst; exact Hi.
        + rewrite Enew in Hin.
          apply filter_In in Hin; tauto. }
    inversion Hn as [|? ? Hni _]; subst. intros ->. apply Hni; left; reflexivity. }
  unfold sorted in H; simpl in H.
  set (tb := if Z.leb (area_y oq) (area_y op) then (p, q) else (q, p)).
  assert (Htb : exists ot ob, areas (world sb) (fst tb) = Some ot
                              /\ areas (world sb) (snd tb) = Some ob
                              /\ area_type ot = VIEW_3D /\ area_type ob = VIEW_3D
                              /\ (area_y ob <= area_y ot)%Z
                              /\ (p <> q -> fst tb <> snd tb)).
  { subst tb; destruct (Z.leb (area_y oq) (area_y op)) eqn:El; simpl.
    - exists op, oq; repeat split; auto. apply Z.leb_le; exact El.
    - exists oq, op; repeat split; auto. apply Z.leb_gt in El; lia. }
  assert (Hcont : exists top bottom, tb = (top, bottom)) by (destruct tb; eauto).
  destruct Hcont as (top & bottom & Etb).
  assert (H' : (reg_top <- next_window_region top ;;
                reg_bottom <- next_window_region bottom ;;
                match reg_top, reg_bottom with
                | Some reg_top, Some reg_bottom =>
                    _configure_silhouette_area host (context_window (context (world s)))
                      top reg_top FRONT ;;
                    _configure_silhouette_area host (context_window (context (world s)))
                      bottom reg_bottom RIGHT ;;
                    _apply_view_axis host (context_window (context (world s))) top reg_top FRONT ;;
                    _apply_view_axis host (context_window (context (world s)))
                      bottom reg_bottom RIGHT ;;
                    try_pass (register_timer host
                                (timer_post_fix (context_window (context (world s)))
                                   top reg_top bottom reg_bottom) 0.05%float) ;;
                    ret FINISHED
                | _, _ =>
                    report ERROR "Could not get WINDOW regions for left sub-areas." ;;
                    ret CANCELLED
                end) sb = (Return FINISHED, s')).
  { subst tb. destruct (Z.leb (area_y oq) (area_y op)); inversion Etb; subst; exact H. }
  clear H. rewrite Etb in Htb; simpl in Htb.
  destruct Htb as (ot & ob & Eot & Eob & Tt & Tb & Hy & Hd).
  stepR H' reg_top s0 H0. apply next_window_region_inv in H0; destruct H0 as [-> _].
  stepR H' reg_bottom s0 H0. apply next_window_region_inv in H0; destruct H0 as [-> _].
  destruct reg_top as [reg_top|]; [ | cancelled H' ].
  destruct reg_bottom as [reg_bottom|]; [ | cancelled H' ].
  stepR H' u1 t1 C1. stepR H' u2 t2 C2. stepR H' u3 t3 C3. stepR H' u4 t4 C4.
  stepR H' u5 t5 C5. apply ret_inv in H'; destruct H' as [_ ->].
  exists top, reg_top, bottom, reg_bottom, sb, t4.
  split.
  { destruct (proj1 (R1 _ (Stable_True host split_call))) as (l1 & T1 & F1).
    destruct (proj1 (R2 _ (Stable_True host split_call))) as (l2 & T2 & F2).
    exists (l1 ++ l2); split; [ rewrite T2, T1, app_assoc; reflexivity | ].
    apply Forall_app; auto. }
  split.
  { destruct First as (ok & l1 & T1).
    destruct (proj1 (R2 _ (Stable_True host split_call))) as (l2 & T2 & _).
    exists ok, (l1 ++ l2); rewrite T2, T1, <- app_assoc; reflexivity. }
  split; [ intros I HS Hi; exact (proj2 (R2 I HS) (proj2 (R1 I HS) Hi)) | ].
  split; [ intros Hk Hnd Hl; apply Hd; apply Hdistinct; auto | ].
  split; [ exists ot, ob; repeat split; auto | ].
  split; [ unfold configure_pair, bind; rewrite C1, C2, C3; destruct u4; exact C4 | ].
  split.
  { destruct W1 as (l1 & T1 & S1). destruct W2' as (l2 & T2 & S2).
    exists (world sa), (l1 ++ l2); split; [ rewrite T2, T1, app_assoc; reflexivity | ].
    split; [ exact (proj2 (split_result_app _ _ _ l2 _ S1))
          | exact (proj1 (split_result_app _ _ _ l1 _ S2)) ]. }
  revert C5; unfold try_pass, try_except, register_timer, ret.
  destruct (timers_register host _ _ (world t4)); intros C5; inversion C5; subst; simpl; auto.
Qed.

Lemma split_execute_inv host s s' :
  VIEW3D_OT_open_silhouette_split_current.execute host s = (Return FINISHED, s') ->
  exists top rt bottom rb s1 s2,
    (exists l, trace s1 = trace s ++ l /\ Forall (allowed split_call is_report) l)
    /\ (exists ok l, trace s1 = trace s
                                ++ act_call ctx_current
                                     (screen_area_split VERTICAL (Some 0.5%float) None)
                                     (world s) ok :: l)
    /\ (forall I, Stable host split_call I -> I (world s) -> I (world s1))
    /\ (host_keeps_screens host -> screens_nodup (world s) ->
        context_area_listed (world s) -> top <> bottom)
    /\ (exists ot ob, areas (world s1) top = Some ot /\ areas (world s1) bottom = Some ob
                      /\ area_type ot = VIEW_3D /\ area_type ob = VIEW_3D
                      /\ (area_y ob <= area_y ot)%Z)
    /\ configure_pair host (context_window (context (world s))) top rt bottom rb s1
       = (Return tt, s2)
    /\ world s' = world s2
    /\ (trace s' = trace s2
        \/ trace s' = trace s2
                      ++ [act_timer (timer_post_fix (context_window (context (world s)))
                                       top rt bottom rb) 0.05%float]).
Proof.
  intros H; apply split_execute_inv_world in H.
  destruct H as (top & rt & bottom & rb & s1 & s2 & T0 & F1 & K1 & Hne & Hy & Hc & _ & Hw & T).
  exists top, rt, bottom, rb, s1, s2; repeat split; assumption.
Qed.

(** ** A cooperative host *)

(** The host accepts every context override. *)
Definition host_accepts_overrides (host : Host) : Prop :=
  forall ov w, temp_override host ov w = true.

(** No operator removes a window. *)
Definition host_keeps_windows (host : Host) : Prop :=
  forall ctx op w w' r,
    bpy_ops host ctx op w = Some w' -> windows w r <> None -> windows w' r <> None.

(** The view operators remove no area and change no area's type. *)
Definition host_keeps_areas (host : Host) : Prop :=
  forall ctx op w w' a o,
    is_view_op op -> bpy_ops host ctx op w = Some w' -> areas w a = Some o ->
    exists o', areas w' a = Some o' /\ area_type o' = area_type o.

Definition is_view3d (w : World) (a : AreaRef) : Prop :=
  exists o, areas w a = Some o /\ area_type o = VIEW_3D.

Lemma do_assign_windows g w w' r :
  do_assign g w = Some w' -> windows w r <> None -> windows w' r <> None.
Proof.
  destruct g as [a x|sp x|r0 x|scr b]; simpl; intros H.
  - destruct (areas w a); inversion H; auto.
  - destruct (spaces w sp) as [o|]; [ | discriminate ].
    destruct (space_setattr x o); inversion H; auto.
  - destruct (windows w r0) as [o|] eqn:E; inversion H; subst; simpl.
    unfold store_set; destruct (Nat.eqb r r0); auto; discriminate.
  - destruct (screens w scr); inversion H; auto.
Qed.

Lemma Stable_window_ok host Q win :
  host_keeps_windows host -> Stable host Q (fun w => window_ok w win).
Proof.
  intros Hk; split.
  - intros ctx op w w' _ H; destruct win as [r|]; simpl; auto. eapply Hk; eauto.
  - intros g w w' _ H; destruct win as [r|]; simpl; auto. eapply do_assign_windows; eauto.
Qed.

Lemma Stable_view3d host a :
  host_keeps_areas host -> Stable host view_call (fun w => is_view3d w a).
Proof.
  intros Hk; split.
  - intros ctx op w w' Hq H (o & E & T).
    destruct (Hk _ _ _ _ _ _ Hq H E) as (o' & E' & T'); exists o'; split; congruence.
  - intros g w w' Hg H (o & E & T).
    destruct g as [a0 x|sp x|r x|scr b]; simpl in H.
    + destruct (areas w a0) as [o0|] eqn:E0; inversion H; subst; clear H; simpl.
      unfold is_view3d; simpl. unfold store_set.
      destruct (Nat.eqb a a0) eqn:En.
      * apply Nat.eqb_eq in En; subst a0. rewrite E in E0; inversion E0; subst o0.
        eexists; split; [ reflexivity | ].
        destruct x; simpl in *; auto.
      * eauto.
    + destruct (spaces w sp) as [o0|]; [ | discriminate ].
      destruct (space_setattr x o0); inversion H; subst; exists o; auto.
    + destruct (windows w r); inversion H; subst; exists o; auto.
    + destruct (screens w scr); inversion H; subst; exists o; auto.
Qed.

(** [area.type = 'VIEW_3D'] on an area that exists. *)
Lemma set_type_spec area s r s' :
  try_pass (setattr (assign_area area (attr_type VIEW_3D))) s = (r, s') ->
  (areas (world s) area = None /\ s' = s) \/ is_view3d (world s') area.
Proof.
  intros H; unfold_py; unfold do_assign in H.
  break_in H; inversion H; subst; clear H; simpl; auto.
  all: repeat match goal with
              | E : Some _ = Some _ |- _ => inversion E; subst; clear E
              | E : (_, _) = (_, _) |- _ => inversion E; subst; clear E
              end; simpl.
  all: try (right; unfold is_view3d; simpl; rewrite store_set_eq; eexists; split;
            [ reflexivity | reflexivity ]).
  all: try (left; split; auto; fail).
  all: try discriminate.
Qed.

Lemma configure_silhouette_area_view3d host win area region axis s s' :
  host_keeps_areas host ->
  _configure_silhouette_area host win area region axis s = (Return tt, s') ->
  is_view3d (world s') area.
Proof.
  unfold _configure_silhouette_area; intros Hk H.
  apply bind_Return_inv in H; destruct H as (u1 & s1 & H1 & H).
  pose proof (Stable_view3d host area Hk) as HS.
  apply set_type_spec in H1; destruct H1 as [[En ->] | Hv].
  - apply bind_Return_inv in H; destruct H as (u2 & s2 & H2 & H).
    assert (s2 = s).
    { revert H2; unfold_py; unfold do_assign; rewrite En; simpl.
      intros H2; inversion H2; auto. }
    subst s2.
    apply bind_Return_inv in H; destruct H as (space & s3 & H3 & _).
    apply getattr_area_inv in H3; destruct H3 as [_ (o & Eo & _)]; congruence.
  - eapply (runs_keeps view_call no_action (fun w => is_view3d w area)); [ | exact H | exact Hv ].
    unfold hide_ui, setattr_space, _apply_view_axis, _override.
    runs_done.
Qed.

Lemma configure_silhouette_area_spec host win area region axis s s' :
  _configure_silhouette_area host win area region axis s = (Return tt, s') ->
  exists l, trace s' = trace s ++ l
            /\ Forall (fun a => axis_request area axis a \/ frame_request area a) l
            /\ (exists a, In a l /\ axis_request area axis a)
            /\ (host_accepts_overrides host -> host_keeps_windows host ->
                window_ok (world s) win -> exists a, In a l /\ frame_request area a).
Proof.
  unfold _configure_silhouette_area; intros H.
  apply bind_Return_inv in H; destruct H as (u1 & s1 & H1 & H).
  apply bind_Return_inv in H; destruct H as (u2 & s2 & H2 & H).
  apply bind_Return_inv in H; destruct H as (space & s3 & H3 & H).
  apply bind_Return_inv in H; destruct H as (u4 & s4 & H4 & H).
  apply bind_Return_inv in H; destruct H as (u5 & s5 & H5 & H).
  apply bind_Return_inv in H; destruct H as (u6 & s6 & H6 & H).
  apply bind_Return_inv in H; destruct H as (u7 & s7 & H7 & H).
  apply bind_Return_inv in H; destruct H as (u8 & s8 & H8 & H).
  assert (T1 : trace s1 = trace s)
    by (eapply silent_trace; [ | exact H1 ]; runs_done).
  assert (T2 : trace s2 = trace s1)
    by (eapply silent_trace; [ | exact H2 ]; runs_done).
  assert (T3 : trace s3 = trace s2)
    by (eapply silent_trace; [ | exact H3 ]; runs_tac).
  assert (T4 : trace s4 = trace s3)
    by (eapply silent_trace; [ | exact H4 ]; runs_done).
  assert (T5 : trace s5 = trace s4)
    by (eapply silent_trace; [ | exact H5 ]; unfold setattr_space; runs_done).
  assert (T9 : trace s' = trace s8)
    by (eapply silent_trace; [ | exact H ]; unfold hide_ui, setattr_space; runs_done).
  assert (W6 : host_keeps_windows host -> window_ok (world s) win -> window_ok (world s6) win).
  { intros Hk Hw. pose proof (Stable_window_ok host view_call win Hk) as HS.
    eapply (runs_keeps view_call no_action (fun w => window_ok w win)); [ | exact H6 | ].
    { unfold _apply_view_axis, _override; runs_done. }
    eapply (runs_keeps view_call no_action (fun w => window_ok w win)); [ | exact H5 | ].
    { unfold setattr_space; runs_done. }
    eapply (runs_keeps view_call no_action (fun w => window_ok w win)); [ | exact H4 | ].
    { runs_done. }
    eapply (runs_keeps view_call no_action (fun w => window_ok w win)); [ | exact H3 | ].
    { runs_tac. }
    eapply (runs_keeps view_call no_action (fun w => window_ok w win)); [ | exact H2 | ].
    { runs_done. }
    eapply (runs_keeps view_call no_action (fun w => window_ok w win)); [ | exact H1 | exact Hw ].
    runs_done. }
  apply apply_view_axis_spec in H6; destruct H6 as [_ (l6 & T6 & N6 & F6)].
  apply frame_block_spec in H7; destruct H7 as (l7 & T7 & F7 & N7).
  apply apply_view_axis_spec in H8; destruct H8 as [_ (l8 & T8 & N8 & F8)].
  exists (l6 ++ l7 ++ l8); split; [ | split; [ | split ] ].
  - rewrite T9, T8, T7, T6, T5, T4, T3, T2, T1, <- !app_assoc; reflexivity.
  - rewrite !Forall_app; repeat split;
      (eapply Forall_impl; [ | eassumption ]); simpl; auto.
  - destruct l6 as [|a l6]; [ congruence | ].
    exists a; split; [ left; reflexivity | ].
    inversion F6; assumption.
  - intros Ha Hk Hw.
    destruct l7 as [|a l7]; [ exfalso; apply N7; auto | ].
    exists a; split; [ | inversion F7; assumption ].
    apply in_or_app; right; left; reflexivity.
Qed.

Lemma configure_pair_spec host win top rt bottom rb s s' :
  configure_pair host win top rt bottom rb s = (Return tt, s') ->
  exists l, trace s' = trace s ++ l
            /\ Forall (pair_request top bottom) l
            /\ (exists a, In a l /\ axis_request top FRONT a)
            /\ (exists a, In a l /\ axis_request bottom RIGHT a)
            /\ (host_accepts_overrides host -> host_keeps_windows host ->
                window_ok (world s) win ->
                (exists a, In a l /\ frame_request top a)
                /\ (exists a, In a l /\ frame_request bottom a)).
Proof.
  unfold configure_pair; intros H.
  apply bind_Return_inv in H; destruct H as (u1 & s1 & H1 & H).
  apply bind_Return_inv in H; destruct H as (u2 & s2 & H2 & H).
  apply bind_Return_inv in H; destruct H as (u3 & s3 & H3 & H).
  destruct u1, u2.
  assert (W1 : host_keeps_windows host -> window_ok (world s) win -> window_ok (world s1) win).
  { intros Hk Hw.
    eapply (runs_keeps view_call no_action (fun w => window_ok w win)); [ | exact H1 | exact Hw ].
    eapply configure_silhouette_area_runs; [ apply Stable_window_ok; exact Hk | ].
    intros ctx op Hc; eapply area_call_view; exact Hc. }
  apply configure_silhouette_area_spec in H1;
    destruct H1 as (l1 & T1 & F1 & (a1 & I1 & A1) & Fr1).
  apply configure_silhouette_area_spec in H2;
    destruct H2 as (l2 & T2 & F2 & (a2 & I2 & A2) & Fr2).
  apply apply_view_axis_spec in H3; destruct H3 as [_ (l3 & T3 & _ & F3)].
  apply apply_view_axis_spec in H; destruct H as [_ (l4 & T4 & _ & F4)].
  exists (l1 ++ l2 ++ l3 ++ l4); split; [ | split; [ | split; [ | split ] ] ].
  - rewrite T4, T3, T2, T1, <- !app_assoc; reflexivity.
  - rewrite !Forall_app; repeat split;
      (eapply Forall_impl; [ | eassumption ]); unfold pair_request; simpl; tauto.
  - exists a1; split; auto; apply in_or_app; auto.
  - exists a2; split; auto; apply in_or_app; right; apply in_or_app; auto.
  - intros Ha Hk Hw.
    destruct (Fr1 Ha Hk Hw) as (b1 & J1 & B1).
    destruct (Fr2 Ha Hk (W1 Hk Hw)) as (b2 & J2 & B2).
    split.
    + exists b1; split; auto; apply in_or_app; auto.
    + exists b2; split; auto; apply in_or_app; right; apply in_or_app; auto.
Qed.

Lemma configure_pair_view3d host win top rt bottom rb s s' :
  host_keeps_areas host ->
  configure_pair host win top rt bottom rb s = (Return tt, s') ->
  is_view3d (world s') top /\ is_view3d (world s') bottom.
Proof.
  unfold configure_pair; intros Hk H.
  apply bind_Return_inv in H; destruct H as (u1 & s1 & H1 & H).
  apply bind_Return_inv in H; destruct H as (u2 & s2 & H2 & H).
  destruct u1, u2.
  pose proof (configure_silhouette_area_view3d _ _ _ _ _ _ _ Hk H1) as V1.
  pose proof (configure_silhouette_area_view3d _ _ _ _ _ _ _ Hk H2) as V2.
  assert (V1' : is_view3d (world s2) top).
  { eapply (runs_keeps view_call no_action (fun w => is_view3d w top)); [ | exact H2 | exact V1 ].
    eapply configure_silhouette_area_runs; [ apply Stable_view3d; exact Hk | ].
    intros ctx op Hc; eapply area_call_view; exact Hc. }
  split.
  - eapply (runs_keeps view_call no_action (fun w => is_view3d w top)); [ | exact H | exact V1' ].
    pose proof (Stable_view3d host top Hk) as HS.
    unfold _apply_view_axis, _override; runs_done.
  - eapply (runs_keeps view_call no_action (fun w => is_view3d w bottom)); [ | exact H | exact V2 ].
    pose proof (Stable_view3d host bottom Hk) as HS.
    unfold _apply_view_axis, _override; runs_done.
Qed.

(** ** Whole operators and callbacks *)

Section OperatorRuns.

Variable host : Host.
Variable Q : CallCtx -> Operator -> Prop.
Variable N : Action -> Prop.
Variable I : World -> Prop.
Hypothesis HS : Stable host Q I.
Hypothesis HN : forall a, N a.

Lemma deferred_setup_runs new_win :
  (forall ctx op, op <> wm_window_new -> Q ctx op) ->
  runs Q N I (VIEW3D_OT_open_silhouette_view_dual._deferred_setup host new_win).
Proof.
  intros HQ.
  unfold VIEW3D_OT_open_silhouette_view_dual._deferred_setup,
    VIEW3D_OT_open_silhouette_view_dual._deferred_setup_body,
    _configure_silhouette_area, _apply_view_axis, _override, hide_ui, setattr_space.
  runs_tac;
    first [ exact Logic.I | reflexivity | apply HN | apply HQ; discriminate ].
Qed.

Lemma post_fix_runs win left_top reg_top left_bottom reg_bottom :
  (forall ctx op, op <> wm_window_new -> Q ctx op) ->
  runs Q N I (VIEW3D_OT_open_silhouette_split_current._post_fix host win left_top reg_top
                left_bottom reg_bottom).
Proof.
  intros HQ.
  unfold VIEW3D_OT_open_silhouette_split_current._post_fix,
    _apply_view_axis, _override, hide_ui, setattr_space.
  runs_tac;
    first [ exact Logic.I | reflexivity | apply HN | apply HQ; discriminate ].
Qed.

Lemma split_execute_runs :
  (forall ctx op, op <> wm_window_new -> Q ctx op) ->
  runs Q N I (VIEW3D_OT_open_silhouette_split_current.execute host).
Proof.
  intros HQ.
  unfold VIEW3D_OT_open_silhouette_split_current.execute,
    _configure_silhouette_area, _apply_view_axis, _override, hide_ui, setattr_space.
  runs_tac;
    first [ exact Logic.I | reflexivity | apply HN | apply HQ; discriminate ].
Qed.

Lemma dual_execute_runs :
  (forall ctx op, Q ctx op) ->
  runs Q N I (VIEW3D_OT_open_silhouette_view_dual.execute host).
Proof.
  intros HQ.
  unfold VIEW3D_OT_open_silhouette_view_dual.execute, setattr_window, set_show_statusbar.
  runs_tac;
    first [ exact Logic.I | reflexivity | apply HN | apply HQ ].
Qed.

End OperatorRuns.

(** * A small host to run the add-on on

    It opens windows, splits areas in halves and turns views; it accepts every
    override and timer, and refuses the dictionary form of a context. *)

Definition demo_shading : Shading :=
  {| shading_type := "MATERIAL"; shading_light := "STUDIO"; shading_color_type := "MATERIAL";
     shading_single_color := (0.8, 0.8, 0.8)%float; shading_background_type := "THEME";
     shading_background_color := (0.05, 0.05, 0.05)%float |}.

Definition demo_view3d : RegionView3D :=
  {| view_perspective := "PERSP";
     view_rotation := {| quat_w := 1; quat_x := 0; quat_y := 0; quat_z := 0 |};
     view_distance := 5 |}.

Definition demo_space : Space :=
  {| space_flag := fun _ => Some true;
     space_shading := Some demo_shading;
     space_show_overlays := Some true;
     space_region_3d := Some demo_view3d |}.

Definition demo_area (sp : SpaceRef) : Area :=
  {| area_type := VIEW_3D; area_ui_type := VIEW_3D;
     area_x := 0; area_y := 0; area_width := 800; area_height := 600;
     area_regions := [ {| region_id := 0; region_type := "HEADER" |};
                       {| region_id := 1; region_type := WINDOW |} ];
     area_spaces_active := Some sp; area_redraw_tagged := false |}.

Definition demo_window_new (w : World) : World :=
  {| windows := store_set (windows w) 2
                  {| window_width := Some 1280%Z; window_height := Some 720%Z;
                     window_x := Some 0%Z; window_y := Some 0%Z; window_screen := Some 2 |};
     screens := store_set (screens w) 2 {| screen_areas := [20]; show_statusbar := true |};
     areas := store_set (areas w) 20 (demo_area 20);
     spaces := store_set (spaces w) 20 demo_space;
     context := {| context_mode := context_mode (context w);
                   context_window := Some 2; context_screen := Some 2;
                   context_area := Some 20;
                   context_active_object := context_active_object (context w) |};
     persistent := persistent w |}.

(** The area a call acts on. *)
Definition demo_target (ctx : CallCtx) (w : World) : option AreaRef :=
  match ctx with
  | ctx_current => context_area (context w)
  | ctx_temp ov => ov_area ov
  | ctx_dict _ => None
  end.

Definition demo_add_area (a fresh : AreaRef) (l : list AreaRef) : list AreaRef :=
  if py_in a l && negb (py_in fresh l) then l ++ [fresh] else l.

(** Splitting [a]: the new area is the upper half [a + 200] or the right half
    [a + 100]. *)
Definition demo_split (direction : string) (a : AreaRef) (w : World) : option World :=
  match areas w a with
  | None => None
  | Some o =>
      let horizontal := String.eqb direction HORIZONTAL in
      let fresh := if horizontal then a + 200 else a + 100 in
      let wd := if horizontal then area_width o else Z.quot (area_width o) 2 in
      let ht := if horizontal then Z.quot (area_height o) 2 else area_height o in
      let kept :=
        {| area_type := area_type o; area_ui_type := area_ui_type o;
           area_x := area_x o; area_y := area_y o; area_width := wd; area_height := ht;
           area_regions := area_regions o; area_spaces_active := area_spaces_active o;
           area_redraw_tagged := area_redraw_tagged o |} in
      let added :=
        {| area_type := area_type o; area_ui_type := area_ui_type o;
           area_x := if horizontal then area_x o else (area_x o + wd)%Z;
           area_y := if horizontal then (area_y o + ht)%Z else area_y o;
           area_width := wd; area_height := ht;
           area_regions := area_regions o;
           area_spaces_active := match area_spaces_active o with
                                 | Some _ => Some fresh
                                 | None => None
                                 end;
           area_redraw_tagged := false |} in
      Some {| windows := windows w;
              screens := fun scr =>
                match screens w scr with
                | Some so => Some {| screen_areas := demo_add_area a fresh (screen_areas so);
                                     show_statusbar := show_statusbar so |}
                | None => None
                end;
              areas := store_set (store_set (areas w) a kept) fresh added;
              spaces := match area_spaces_active o with
                        | Some sp => match spaces w sp with
                                     | Some so => store_set (spaces w) fresh so
                                     | None => spaces w
                                     end
                        | None => spaces w
                        end;
              context := context w;
              persistent := persistent w |}
  end.

Definition demo_axis_rotation (axis : string) : Quaternion :=
  if String.eqb axis FRONT
  then {| quat_w := 0.7071068; quat_x := 0.7071068; quat_y := 0; quat_z := 0 |}
  else if String.eqb axis RIGHT
  then {| quat_w := 0.5; quat_x := 0.5; quat_y := 0.5; quat_z := 0.5 |}
  else {| quat_w := 1; quat_x := 0; quat_y := 0; quat_z := 0 |}.

(** A view operator changes one attribute of the target area's view. *)
Definition demo_view (x : View3DAttr) (a : AreaRef) (w : World) : option World :=
  match areas w a with
  | Some o =>
      match area_spaces_active o with
      | Some sp => do_assign (assign_space sp (attr_region_3d x)) w
      | None => None
      end
  | None => None
  end.

Definition demo_view_attr (op : Operator) : View3DAttr :=
  match op with
  | view3d_viewnumpad t _ => attr_view_rotation (demo_axis_rotation t)
  | view3d_view_axis t _ => attr_view_rotation (demo_axis_rotation t)
  | _ => attr_view_distance 10
  end.

Definition demo_ops (ctx : CallCtx) (op : Operator) (w : World) : option World :=
  match op with
  | wm_window_new => Some (demo_window_new w)
  | screen_area_split direction _ _ =>
      match demo_target ctx w with
      | Some a => demo_split direction a w
      | None => None
      end
  | _ =>
      match demo_target ctx w with
      | Some a => demo_view (demo_view_attr op) a w
      | None => None
      end
  end.

(** The Hamilton product, in binary64. *)
Definition demo_matmul (p q : Quaternion) : Quaternion :=
  {| quat_w := quat_w p * quat_w q - quat_x p * quat_x q - quat_y p * quat_y q - quat_z p * quat_z q;
     quat_x := quat_w p * quat_x q + quat_x p * quat_w q + quat_y p * quat_z q - quat_z p * quat_y q;
     quat_y := quat_w p * quat_y q - quat_x p * quat_z q + quat_y p * quat_w q + quat_z p * quat_x q;
     quat_z := quat_w p * quat_z q + quat_x p * quat_y q - quat_y p * quat_x q + quat_z p * quat_w q
  |}%float.

Definition demo_host : Host :=
  {| bpy_ops := demo_ops;
     temp_override := fun _ _ => true;
     timers_register := fun _ _ _ => true;
     window_writable := fun _ _ _ => true;
     mathutils_Quaternion := fun c =>
       match c with (w, x, y, z) => {| quat_w := w; quat_x := x; quat_y := y; quat_z := z |} end;
     quat_matmul := demo_matmul |}.

(** The same host with a timer queue that refuses every callback. *)
Definition demo_host_no_timers : Host :=
  {| bpy_ops := demo_ops;
     temp_override := fun _ _ => true;
     timers_register := fun _ _ _ => false;
     window_writable := fun _ _ _ => true;
     mathutils_Quaternion := mathutils_Quaternion demo_host;
     quat_matmul := demo_matmul |}.

(** One window showing one 3D view, an object active, nothing done yet. *)
Definition demo_world : World :=
  {| windows := store_set (fun _ => None) 1
                  {| window_width := Some 2560%Z; window_height := Some 1440%Z;
                     window_x := Some 40%Z; window_y := Some 120%Z; window_screen := Some 1 |};
     screens := store_set (fun _ => None) 1 {| screen_areas := [10]; show_statusbar := true |};
     areas := store_set (fun _ => None) 10 (demo_area 10);
     spaces := store_set (fun _ => None) 10 demo_space;
     context := {| context_mode := OBJECT; context_window := Some 1; context_screen := Some 1;
                   context_area := Some 10; context_active_object := Some 7 |};
     persistent := [("userpref.blend"%string, "defaults"%string)] |}.

Definition demo_state : State := {| world := demo_world; trace := [] |}.

(** The state the timer finds after the new-window operator has run. *)
Definition demo_state_new_window : State :=
  snd (VIEW3D_OT_open_silhouette_view_dual.execute demo_host demo_state).

Example demo_dual_finished :
  fst (VIEW3D_OT_open_silhouette_view_dual.execute demo_host demo_state) = Return FINISHED.
Proof. vm_compute. reflexivity. Qed.

Example demo_deferred_done :
  fst (VIEW3D_OT_open_silhouette_view_dual._deferred_setup_body demo_host (Some 2)
         demo_state_new_window) = Return None.
Proof. vm_compute. reflexivity. Qed.

Example demo_split_finished :
  fst (VIEW3D_OT_open_silhouette_split_current.execute demo_host demo_state) = Return FINISHED.
Proof. vm_compute. reflexivity. Qed.

Example demo_split_views :
  let w := world (snd (VIEW3D_OT_open_silhouette_split_current.execute demo_host demo_state)) in
  persp_of w 210 = Some ORTHO /\ persp_of w 10 = Some ORTHO
  /\ option_map area_y (areas w 210) = Some 300%Z /\ option_map area_y (areas w 10) = Some 0%Z.
Proof. vm_compute. repeat split. Qed.

(** ** The demo host cooperates *)

Lemma demo_view_op_inv ctx op w w' :
  is_view_op op -> demo_ops ctx op w = Some w' ->
  exists sp x, addon_assign (assign_space sp (attr_region_3d x))
               /\ do_assign (assign_space sp (attr_region_3d x)) w = Some w'.
Proof.
  intros Hv H.
  assert (Hd : exists a, demo_view (demo_view_attr op) a w = Some w').
  { destruct op; simpl in Hv; try contradiction; simpl in H;
      destruct (demo_target ctx w); try discriminate; eauto. }
  destruct Hd as (a & Hd); unfold demo_view in Hd.
  destruct (areas w a) as [o|]; [ | discriminate ].
  destruct (area_spaces_active o) as [sp|]; [ | discriminate ].
  exists sp, (demo_view_attr op); split; [ | exact Hd ].
  destruct op; simpl; exact Logic.I.
Qed.

Lemma demo_keeps_ortho : host_keeps_ortho demo_host.
Proof.
  intros ctx op w w' a Hv H Ho; simpl in H.
  destruct (demo_view_op_inv _ _ _ _ Hv H) as (sp & x & Hg & Hd).
  eapply ortho_assign; eauto.
Qed.

Lemma demo_keeps_areas : host_keeps_areas demo_host.
Proof.
  intros ctx op w w' a o Hv H E; simpl in H.
  destruct (demo_view_op_inv _ _ _ _ Hv H) as (sp & x & _ & Hd).
  simpl in Hd. destruct (spaces w sp) as [so|]; [ | discriminate ].
  destruct (space_region_3d so); inversion Hd; subst; simpl; eauto.
Qed.

Lemma demo_accepts_overrides : host_accepts_overrides demo_host.
Proof. intros ov w; reflexivity. Qed.

Lemma demo_split_inv ctx op w w' :
  is_area_split op -> demo_ops ctx op w = Some w' ->
  exists a fresh,
    forall scr,
      screens w' scr
      = match screens w scr with
        | Some so => Some {| screen_areas := demo_add_area a fresh (screen_areas so);
                             show_statusbar := show_statusbar so |}
        | None => None
        end.
Proof.
  intros Hs H; destruct op; simpl in Hs; try contradiction; simpl in H.
  destruct (demo_target ctx w) as [a|]; [ | discriminate ].
  unfold demo_split in H. destruct (areas w a) as [o|]; [ | discriminate ].
  inversion H; subst; clear H; simpl. eauto.
Qed.

Lemma demo_add_area_NoDup a fresh l : NoDup l -> NoDup (demo_add_area a fresh l).
Proof.
  intros Hn; unfold demo_add_area.
  destruct (py_in a l && negb (py_in fresh l)) eqn:E; auto.
  apply andb_true_iff in E; destruct E as [_ E]; apply negb_true_iff in E.
  apply NoDup_app; auto.
  - repeat constructor; simpl; tauto.
  - intros x Hx [<- | []]. apply py_in_In in Hx; congruence.
Qed.

Lemma demo_add_area_incl a fresh l x : In x l -> In x (demo_add_area a fresh l).
Proof.
  intros Hx; unfold demo_add_area.
  destruct (py_in a l && negb (py_in fresh l)); auto. apply in_or_app; auto.
Qed.

Lemma demo_keeps_screens : host_keeps_screens demo_host.
Proof.
  intros ctx op w w' Hs H; simpl in H.
  destruct (demo_split_inv _ _ _ _ Hs H) as (a & fresh & Hscr).
  split.
  - intros Hn scr so' E. rewrite Hscr in E.
    destruct (screens w scr) as [so|] eqn:Es; inversion E; subst; simpl.
    apply demo_add_area_NoDup; eapply Hn; eauto.
  - intros x scr (so & E & Hin). unfold listed. rewrite Hscr, E.
    eexists; split; [ reflexivity | ]. simpl. apply demo_add_area_incl; exact Hin.
Qed.

Lemma demo_keeps_windows : host_keeps_windows demo_host.
Proof.
  intros ctx op w w' r H Hw; simpl in H.
  destruct op; simpl in H.
  - inversion H; subst; simpl. unfold store_set; destruct (Nat.eqb r 2); auto; discriminate.
  - destruct (demo_target ctx w) as [a|]; [ | discriminate ].
    unfold demo_split in H. destruct (areas w a); inversion H; subst; exact Hw.
  - destruct (demo_view_op_inv ctx (view3d_viewnumpad type align_active) w w' Logic.I H)
      as (sp & x & _ & Hd).
    eapply do_assign_windows; eauto.
  - destruct (demo_view_op_inv ctx (view3d_view_axis type align_active) w w' Logic.I H)
      as (sp & x & _ & Hd).
    eapply do_assign_windows; eauto.
  - destruct (demo_view_op_inv ctx (view3d_view_selected use_all_regions) w w' Logic.I H)
      as (sp & x & _ & Hd).
    eapply do_assign_windows; eauto.
Qed.

Lemma demo_world_nodup : screens_nodup demo_world.
Proof.
  intros scr so; simpl; unfold store_set.
  destruct (Nat.eqb scr 1); intros E; inversion E; subst; simpl.
  repeat constructor; simpl; tauto.
Qed.

Lemma demo_world_listed : context_area_listed demo_world.
Proof.
  intros a scr Ea Es; simpl in *. inversion Ea; inversion Es; subst.
  eexists; split; [ reflexivity | left; reflexivity ].
Qed.

(** * Properties of the operators *)

(** ** Running forward *)

Lemma run_bind {A B} (m : Py A) (k : A -> Py B) s a s1 :
  m s = (Return a, s1) -> bind m k s = k a s1.
Proof. intros H; unfold bind; rewrite H; reflexivity. Qed.

(** [getattr(win, '<attr>', default)] as a value of the world [w]. *)
Definition getattr_or (f : Window -> option Z) (w : World) (win : option WindowRef)
  (default : Z) : Z :=
  match win with
  | Some r =>
      match windows w r with
      | Some o => match f o with Some v => v | None => default end
      | None => default
      end
  | None => default
  end.













Lemma run_get_world s : get_world s = (Return (world s), s).
Proof. reflexivity. Qed.

(** The state right after a host call that succeeded. *)
Definition after_call (ctx : CallCtx) (op : Operator) (w' : World) (s : State) : State :=
  with_world w' (with_action (act_call ctx op (world s) true) s).

Lemma run_call host ctx op s w' :
  bpy_ops host ctx op (world s) = Some w' ->
  call host ctx op s = (Return tt, after_call ctx op w' s).
Proof. intros H; unfold call; rewrite H; reflexivity. Qed.

Lemma run_try_Return {A} (m h : Py A) s a s1 :
  m s = (Return a, s1) -> try_except m h s = (Return a, s1).
Proof. intros H; unfold try_except; rewrite H; reflexivity. Qed.

(** ** C6: the size and position of the new window *)



Example C6_demo_values :
  let w := world demo_state_new_window in
  option_map window_width (windows w 2) = Some (Some 640%Z)
  /\ option_map window_height (windows w 2) = Some (Some 360%Z)
  /\ option_map window_x (windows w 2) = Some (Some 120%Z)
  /\ option_map window_y (windows w 2) = Some (Some 40%Z).
Proof. vm_compute. repeat split. Qed.

(** The demo host with windows whose width, height, x and y are read-only. *)
Definition readonly_host : Host :=
  {| bpy_ops := demo_ops;
     temp_override := fun _ _ => true;
     timers_register := fun _ _ _ => true;
     window_writable := fun _ _ _ => false;
     mathutils_Quaternion := mathutils_Quaternion demo_host;
     quat_matmul := demo_matmul |}.


(** In the read-only host the operator finishes with the new window still
    1280 by 720 at (0, 0), not 640 by 360 at (120, 40): the sizes of the
    claim are not set. *)
Lemma C6_counterexample :
  bpy_ops readonly_host ctx_current wm_window_new (world demo_state)
  = Some (demo_window_new demo_world)
  /\ context_window (context (demo_window_new demo_world)) = Some 2%nat
  /\ fst (VIEW3D_OT_open_silhouette_view_dual.execute readonly_host demo_state)
     = Return FINISHED
  /\ ~ (exists o,
         windows (world (snd (VIEW3D_OT_open_silhouette_view_dual.execute readonly_host
                                demo_state))) 2 = Some o
         /\ window_width o
            = Some (Z.max 480 (getattr_or window_width (demo_window_new demo_world)
                                 (Some 1%nat) 1600 / 4))
         /\ window_height o
            = Some (Z.max 360 (getattr_or window_height (demo_window_new demo_world)
                                 (Some 1%nat) 900 / 4))
         /\ window_x o
            = Some (getattr_or window_x (demo_window_new demo_world) (Some 1%nat) 100 + 80)%Z
         /\ window_y o
            = Some (getattr_or window_y (demo_window_new demo_world) (Some 1%nat) 100 - 80)%Z).
Proof.
  split; [ reflexivity | split; [ reflexivity | split; [ vm_compute; reflexivity | ] ] ].
  intros (o & Eo & Hw & _).
  vm_compute in Eo. inversion Eo; subst o; clear Eo.
  vm_compute in Hw. discriminate Hw.
Qed.

(** ** The new-window operator from end to end *)


Definition any_call (ctx : CallCtx) (op : Operator) : Prop := True.
Definition any_action (a : Action) : Prop := True.

Lemma dual_execute_cancelled host s :
  bpy_ops host ctx_current wm_window_new (world s) = None ->
  VIEW3D_OT_open_silhouette_view_dual.execute host s
  = (Return CANCELLED,
     with_action (act_report ERROR "Failed to open new window: ")
       (with_action (act_call ctx_current wm_window_new (world s) false) s)).
Proof.
  intros H; unfold VIEW3D_OT_open_silhouette_view_dual.execute.
  unfold_py; simpl. rewrite H. reflexivity.
Qed.

Lemma dual_execute_finished host s w1 :
  bpy_ops host ctx_current wm_window_new (world s) = Some w1 ->
  exists s',
    VIEW3D_OT_open_silhouette_view_dual.execute host s = (Return FINISHED, s')
    /\ (trace s' = trace s ++ [act_call ctx_current wm_window_new (world s) true]
        \/ trace s' = trace s ++ [act_call ctx_current wm_window_new (world s) true;
                                  act_timer (timer_deferred_setup (context_window (context w1)))
                                    0.05%float]).
Proof.
  intros Hnew. unfold VIEW3D_OT_open_silhouette_view_dual.execute.
  rewrite (run_bind _ _ _ _ _ (run_get_world s)).
  set (s1 := after_call ctx_current wm_window_new w1 s).
  assert (T : (try_ (call host ctx_current wm_window_new ;; ret false)
               except_ (report ERROR "Failed to open new window: " ;; ret true)) s
              = (Return false, s1)).
  { apply run_try_Return. rewrite (run_bind _ _ _ _ _ (run_call _ _ _ _ _ Hnew)). reflexivity. }
  rewrite (run_bind _ _ _ _ _ T). cbv iota.
  rewrite (run_bind _ _ _ _ _ (run_get_world s1)).
  change (world s1) with w1.
  match goal with |- context [bind (try_pass ?m) _ s1] =>
    destruct (try_pass_Return m s1) as (s2 & E2) end.
  rewrite (run_bind _ _ _ _ _ E2).
  match goal with |- context [bind (try_pass ?m) _ s2] =>
    destruct (try_pass_Return m s2) as (s3 & E3) end.
  rewrite (run_bind _ _ _ _ _ E3).
  match goal with |- context [bind (try_pass ?m) _ s3] =>
    destruct (try_pass_Return m s3) as (s4 & E4) end.
  rewrite (run_bind _ _ _ _ _ E4).
  exists s4; split; [ reflexivity | ].
  assert (T2 : trace s2 = trace s1).
  { eapply silent_trace; [ | exact E2 ].
    unfold setattr_window, set_show_statusbar; runs_done. }
  assert (T3 : trace s3 = trace s2).
  { eapply silent_trace; [ | exact E3 ]. unfold set_show_statusbar; runs_done. }
  revert E4; unfold try_pass, try_except, register_timer, ret.
  destruct (timers_register host _ _ (world s3)); intros E4; inversion E4; subst; simpl.
  - right. rewrite T3, T2. simpl. rewrite <- app_assoc. reflexivity.
  - left. rewrite T3, T2. reflexivity.
Qed.

Lemma deferred_setup_returns host new_win s :
  exists r s',
    VIEW3D_OT_open_silhouette_view_dual._deferred_setup host new_win s = (Return r, s')
    /\ (r = None \/ r = Some 0.05%float).
Proof.
  unfold VIEW3D_OT_open_silhouette_view_dual._deferred_setup, try_except.
  destruct (VIEW3D_OT_open_silhouette_view_dual._deferred_setup_body host new_win s)
    as [[r|] s1] eqn:E.
  - exists r, s1; split; [ reflexivity | ].
    apply deferred_setup_body_inv in E. destruct r as [f|]; [ right | left; reflexivity ].
    destruct E as [-> _]; reflexivity.
  - exists None, s1; split; [ reflexivity | left; reflexivity ].
Qed.

(** ** C8: what the result of the new-window operator guarantees *)

(** C8.  The new-window operator returns [{'CANCELLED'}] exactly when
    [wm.window_new] raises.  Otherwise it returns [{'FINISHED'}] having made no
    report, whether or not the timer could be registered; the deferred setup
    never raises and never reports; and there is a host on which the operator
    finishes although nothing is ever configured. *)
Theorem C8_finished_does_not_mean_configured :
  (forall host s,
     fst (VIEW3D_OT_open_silhouette_view_dual.execute host s) = Return CANCELLED
     <-> bpy_ops host ctx_current wm_window_new (world s) = None)
  /\ (forall host s,
        bpy_ops host ctx_current wm_window_new (world s) <> None ->
        exists s' l,
          VIEW3D_OT_open_silhouette_view_dual.execute host s = (Return FINISHED, s')
          /\ trace s' = trace s ++ l
          /\ Forall (fun a => ~ is_report a) l)
  /\ (forall host new_win s,
        exists r s' l,
          VIEW3D_OT_open_silhouette_view_dual._deferred_setup host new_win s = (Return r, s')
          /\ trace s' = trace s ++ l
          /\ Forall (fun a => ~ is_report a) l)
  /\ (fst (VIEW3D_OT_open_silhouette_view_dual.execute demo_host_no_timers demo_state)
      = Return FINISHED
      /\ trace (snd (VIEW3D_OT_open_silhouette_view_dual.execute demo_host_no_timers demo_state))
         = [act_call ctx_current wm_window_new demo_world true]).
Proof.
  split; [ | split; [ | split ] ].
  - intros host s.
    destruct (bpy_ops host ctx_current wm_window_new (world s)) as [w1|] eqn:E.
    + destruct (dual_execute_finished host s w1 E) as (s' & -> & _); simpl.
      split; discriminate.
    + rewrite (dual_execute_cancelled host s E); simpl. split; reflexivity.
  - intros host s Hne.
    destruct (bpy_ops host ctx_current wm_window_new (world s)) as [w1|] eqn:E;
      [ | congruence ].
    destruct (dual_execute_finished host s w1 E) as (s' & Ex & [T | T]).
    + exists s'; eexists; split; [ exact Ex | split; [ exact T | ] ].
      repeat constructor; simpl; tauto.
    + exists s'; eexists; split; [ exact Ex | split; [ exact T | ] ].
      repeat constructor; simpl; tauto.
  - intros host new_win s.
    destruct (deferred_setup_returns host new_win s) as (r & s' & E & _).
    destruct (runs_trace _ _ _ _ _ _ _
                (deferred_setup_runs host any_call no_action (fun _ => True)
                   (Stable_True host any_call) new_win (fun _ _ _ => Logic.I)) E)
      as (l & T & F).
    exists r, s', l; split; [ exact E | split; [ exact T | ] ].
    eapply Forall_impl; [ | exact F ].
    intros a Ha; destruct a; simpl in *; auto.
  - split; vm_compute; reflexivity.
Qed.

(** ** C2: two commands, two modes *)




Lemma Stable_True_any host Q : StableG host Q addon_assign (fun _ => True).
Proof. apply Stable_True. Qed.


(** ** C4: what retries *)

(** The area and the axis preset an action asks for. *)
Definition axis_of (a : Action) : option (option AreaRef * string) :=
  match a with
  | act_call ctx op _ _ =>
      match op_axis op with
      | Some t => Some (ctx_area ctx, t)
      | None => None
      end
  | _ => None
  end.

Lemma split_action_no_axis N a :
  (forall b, N b -> axis_of b = None) -> allowed split_call N a -> axis_of a = None.
Proof.
  intros HN; destruct a as [ctx op pre ok| |]; simpl; intros H;
    try (apply (HN _ H)).
  unfold split_call in H; destruct op; simpl in *; tauto.
Qed.




(** ** C7: nothing is kept outside the host's objects *)

(** The host's operators leave alone what the host keeps outside the object
    graph. *)
Definition host_keeps_persistent (host : Host) : Prop :=
  forall ctx op w w', bpy_ops host ctx op w = Some w' -> persistent w' = persistent w.

Lemma do_assign_persistent g w w' : do_assign g w = Some w' -> persistent w' = persistent w.
Proof.
  destruct g as [a x|sp x|r x|scr b]; simpl; intros H.
  - destruct (areas w a); inversion H; reflexivity.
  - destruct (spaces w sp) as [o|]; [ | discriminate ].
    destruct (space_setattr x o); inversion H; reflexivity.
  - destruct (windows w r); inversion H; reflexivity.
  - destruct (screens w scr); inversion H; reflexivity.
Qed.

Lemma Stable_persistent host Q p :
  host_keeps_persistent host -> Stable host Q (fun w => persistent w = p).
Proof.
  intros Hk; split.
  - intros ctx op w w' _ H E; rewrite (Hk _ _ _ _ H); exact E.
  - intros g w w' _ H E; rewrite (do_assign_persistent _ _ _ H); exact E.
Qed.

Lemma run_timer_runs host Q N I t :
  Stable host Q I -> (forall ctx op, Q ctx op) -> runs Q N I (run_timer host t).
Proof.
  intros HS HQ; destruct t; simpl.
  - apply deferred_setup_runs; auto.
  - apply post_fix_runs; auto.
Qed.

(** Every entry point of the add-on: the two operators' [poll] and [execute]
    and the two timer callbacks. *)
Inductive EntryPoint :=
| entry_dual_poll
| entry_dual_execute
| entry_split_poll
| entry_split_execute
| entry_timer (t : Timer).

Definition run_entry (host : Host) (e : EntryPoint) (s : State) : State :=
  match e with
  | entry_dual_poll => snd (VIEW3D_OT_open_silhouette_view_dual.poll s)
  | entry_dual_execute => snd (VIEW3D_OT_open_silhouette_view_dual.execute host s)
  | entry_split_poll => snd (VIEW3D_OT_open_silhouette_split_current.poll s)
  | entry_split_execute => snd (VIEW3D_OT_open_silhouette_split_current.execute host s)
  | entry_timer t => snd (run_timer host t s)
  end.

Lemma run_entry_keeps host I e s :
  Stable host any_call I -> I (world s) -> I (world (run_entry host e s)).
Proof.
  intros HS Hi; destruct e; unfold run_entry.
  - destruct (VIEW3D_OT_open_silhouette_view_dual.poll s) as [r s'] eqn:E; simpl.
    eapply (runs_keeps any_call any_action I); [ | exact E | exact Hi ].
    unfold VIEW3D_OT_open_silhouette_view_dual.poll; runs_tac.
  - destruct (VIEW3D_OT_open_silhouette_view_dual.execute host s) as [r s'] eqn:E; simpl.
    eapply (runs_keeps any_call any_action I); [ | exact E | exact Hi ].
    apply dual_execute_runs; auto; intros; exact Logic.I.
  - destruct (VIEW3D_OT_open_silhouette_split_current.poll s) as [r s'] eqn:E; simpl.
    eapply (runs_keeps any_call any_action I); [ | exact E | exact Hi ].
    unfold VIEW3D_OT_open_silhouette_split_current.poll; runs_tac.
  - destruct (VIEW3D_OT_open_silhouette_split_current.execute host s) as [r s'] eqn:E; simpl.
    eapply (runs_keeps any_call any_action I); [ | exact E | exact Hi ].
    apply split_execute_runs; auto; intros; exact Logic.I.
  - destruct (run_timer host t s) as [r s'] eqn:E; simpl.
    eapply (runs_keeps any_call any_action I); [ | exact E | exact Hi ].
    apply run_timer_runs; auto; intros; exact Logic.I.
Qed.

(** C7.  Whatever entry point runs, the world changes only by host operator
    calls and by the add-on's attribute assignments on areas, spaces, windows
    and screens: every property of the world that those keep is kept by the
    run.  In particular, when the host's operators leave its persistent state
    (files, preferences) alone, so does every run of the add-on. *)
Theorem C7_no_state_outside_host_objects (host : Host) :
  host_keeps_persistent host ->
  forall e s,
    (forall I, Stable host any_call I -> I (world s) -> I (world (run_entry host e s)))
    /\ persistent (world (run_entry host e s)) = persistent (world s).
Proof.
  intros Hk e s; split.
  - intros I HS Hi; apply run_entry_keeps; assumption.
  - apply (run_entry_keeps host (fun w => persistent w = persistent (world s)));
      [ apply Stable_persistent; exact Hk | reflexivity ].
Qed.

Lemma demo_keeps_persistent : host_keeps_persistent demo_host.
Proof.
  intros ctx op w w' H; simpl in H. destruct op; simpl in H.
  - inversion H; reflexivity.
  - destruct (demo_target ctx w) as [a|]; [ | discriminate ].
    unfold demo_split in H. destruct (areas w a); inversion H; reflexivity.
  - destruct (demo_view_op_inv ctx (view3d_viewnumpad type align_active) w w' Logic.I H)
      as (sp & x & _ & Hd).
    eapply do_assign_persistent; eauto.
  - destruct (demo_view_op_inv ctx (view3d_view_axis type align_active) w w' Logic.I H)
      as (sp & x & _ & Hd).
    eapply do_assign_persistent; eauto.
  - destruct (demo_view_op_inv ctx (view3d_view_selected use_all_regions) w w' Logic.I H)
      as (sp & x & _ & Hd).
    eapply do_assign_persistent; eauto.
Qed.

Lemma C7_witness :
  persistent (world (run_entry demo_host entry_split_execute demo_state))
  = persistent demo_world.
Proof.
  exact (proj2 (C7_no_state_outside_host_objects demo_host demo_keeps_persistent
                  entry_split_execute demo_state)).
Defined.

(** ** C9 and C1: which area gets which view *)

(** An action leaves the axes alone, or asks for FRONT in [top], or for RIGHT
    in [bottom]; in the last two cases the area's view was orthographic
    when the host was called. *)
Definition front_right (top bottom : AreaRef) (a : Action) : Prop :=
  axis_of a = None \/ axis_request top FRONT a \/ axis_request bottom RIGHT a.

Lemma pair_request_front_right top bottom a :
  pair_request top bottom a -> front_right top bottom a.
Proof.
  unfold pair_request, front_right.
  intros [[H | H] | [H | H]]; auto;
    destruct H as (ctx & op & pre & ok & -> & _ & ->); left; reflexivity.
Qed.

Lemma report_no_axis b : is_report b -> axis_of b = None.
Proof. destruct b; simpl; tauto. Qed.

Lemma no_action_no_axis b : no_action b -> axis_of b = None.
Proof. intros []. Qed.

(** The trace of a run that reaches [configure_pair] after some splits. *)
Lemma pair_trace host win top rt bottom rb N s s1 s2 :
  (forall b, N b -> axis_of b = None) ->
  (exists l, trace s1 = trace s ++ l /\ Forall (allowed split_call N) l) ->
  configure_pair host win top rt bottom rb s1 = (Return tt, s2) ->
  exists l, trace s2 = trace s ++ l
            /\ Forall (front_right top bottom) l
            /\ (exists a, In a l /\ axis_request top FRONT a)
            /\ (exists a, In a l /\ axis_request bottom RIGHT a).
Proof.
  intros HN (l0 & T0 & F0) H.
  apply configure_pair_spec in H; destruct H as (l1 & T1 & F1 & (a1 & I1 & A1) & (a2 & I2 & A2) & _).
  exists (l0 ++ l1); split; [ | split; [ | split ] ].
  - rewrite T1, T0, <- app_assoc; reflexivity.
  - apply Forall_app; split.
    + eapply Forall_impl; [ | exact F0 ].
      intros a Ha; left; eapply split_action_no_axis; eauto.
    + eapply Forall_impl; [ | exact F1 ]. apply pair_request_front_right.
  - exists a1; split; auto; apply in_or_app; auto.
  - exists a2; split; auto; apply in_or_app; auto.
Qed.

(** The upper area gets FRONT and the lower one RIGHT: [top] and [bottom]
    were picked in world [w1] with [bottom] not above [top], and the actions
    [l] of the run ask for FRONT only in [top] and for RIGHT only in
    [bottom], each at least once. *)
Definition front_above_right (w1 : World) (top bottom : AreaRef) (l : list Action) : Prop :=
  (exists ot ob, areas w1 top = Some ot /\ areas w1 bottom = Some ob
                 /\ (area_y ob <= area_y ot)%Z)
  /\ Forall (front_right top bottom) l
  /\ (exists a, In a l /\ axis_request top FRONT a)
  /\ (exists a, In a l /\ axis_request bottom RIGHT a).

(** A call recorded before the configuration is recorded in the whole run. *)
Lemma split_result_run host w w1 s s1 s2 l0 l :
  trace s1 = trace s ++ l0 ->
  (exists l1, trace s2 = trace s1 ++ l1) ->
  trace s2 = trace s ++ l ->
  split_result host w l0 w1 -> split_result host w l w1.
Proof.
  intros T0 (l1 & T1) T S.
  rewrite T1, T0, <- app_assoc in T. apply app_inv_head in T; subst l.
  exact (proj2 (split_result_app _ _ _ l1 _ S)).
Qed.

Lemma deferred_setup_front_above_right host new_win s s' :
  VIEW3D_OT_open_silhouette_view_dual._deferred_setup_body host new_win s = (Return None, s') ->
  exists top bottom w1 l,
    trace s' = trace s ++ l
    /\ split_result host (world s) l w1
    /\ front_above_right w1 top bottom l.
Proof.
  intros H; apply deferred_setup_body_inv_world in H.
  destruct H as (top & rt & bottom & rb & s1 & s2 & T0 & _ & _ & Hy & _ & Hc & W & T & _).
  destruct (pair_trace _ _ _ _ _ _ _ _ _ _ no_action_no_axis T0 Hc) as (l & Tl & Fl & A1 & A2).
  destruct W as (l0 & Tl0 & S0).
  assert (T1 : exists l1, trace s2 = trace s1 ++ l1).
  { apply configure_pair_spec in Hc; destruct Hc as (l1 & T1 & _); eauto. }
  exists top, bottom, (world s1), l; split; [ congruence | split ].
  - exact (split_result_run _ _ _ _ _ _ _ _ Tl0 T1 Tl S0).
  - repeat split; assumption.
Qed.

Lemma split_execute_front_above_right host s s' :
  VIEW3D_OT_open_silhouette_split_current.execute host s = (Return FINISHED, s') ->
  exists top bottom wa wb l,
    trace s' = trace s ++ l
    /\ split_result host (world s) l wa
    /\ split_result host wa l wb
    /\ front_above_right wb top bottom l.
Proof.
  intros H; apply split_execute_inv_world in H.
  destruct H as (top & rt & bottom & rb & s1 & s2 & T0 & _ & _ & _ & Hy & Hc & W & _ & T).
  destruct Hy as (ot & ob & Et & Eb & _ & _ & Hy).
  destruct (pair_trace _ _ _ _ _ _ _ _ _ _ report_no_axis T0 Hc)
    as (l & Tl & Fl & (a1 & I1 & A1) & (a2 & I2 & A2)).
  destruct W as (wa & l0 & Tl0 & Sa & Sb).
  assert (T1 : exists l1, trace s2 = trace s1 ++ l1).
  { apply configure_pair_spec in Hc; destruct Hc as (l1 & T1 & _); eauto. }
  pose proof (split_result_run _ _ _ _ _ _ _ _ Tl0 T1 Tl Sa) as Sa'.
  pose proof (split_result_run _ _ _ _ _ _ _ _ Tl0 T1 Tl Sb) as Sb'.
  destruct T as [T | T].
  - exists top, bottom, wa, (world s1), l; split; [ congruence | ].
    split; [ exact Sa' | split; [ exact Sb' | ] ].
    split; [ exists ot, ob; auto | split; [ exact Fl | split; eauto ] ].
  - exists top, bottom, wa, (world s1),
      (l ++ [act_timer (timer_post_fix (context_window (context (world s))) top rt bottom rb)
               0.05%float]).
    split; [ rewrite T, Tl, <- app_assoc; reflexivity | ].
    split; [ exact (proj2 (split_result_app _ _ _ _ _ Sa')) | ].
    split; [ exact (proj2 (split_result_app _ _ _ _ _ Sb')) | ].
    split; [ exists ot, ob; auto | split; [ | split ] ].
    + apply Forall_app; split; [ exact Fl | ].
      constructor; [ left; reflexivity | constructor ].
    + exists a1; split; auto; apply in_or_app; auto.
    + exists a2; split; auto; apply in_or_app; auto.
Qed.

(** C9.  In a run of the deferred setup that ends normally, the two areas are
    chosen in the world [w1] that the host made of the initial world in the
    [screen.area_split] call the run records as returned; in a finished run
    of the split-current operator they are chosen in the world [wb] that the
    host made, in the second recorded split, of the world [wa] it had made of
    the initial world in the first.  In that world [bottom]'s y is not above
    [top]'s, and every axis request of the run is FRONT for [top] or RIGHT
    for [bottom], each made at least once. *)
Theorem C9_front_above_right (host : Host) :
  (forall new_win s s',
     VIEW3D_OT_open_silhouette_view_dual._deferred_setup_body host new_win s = (Return None, s') ->
     exists top bottom w1 l,
       trace s' = trace s ++ l
       /\ split_result host (world s) l w1
       /\ front_above_right w1 top bottom l)
  /\ (forall s s',
        VIEW3D_OT_open_silhouette_split_current.execute host s = (Return FINISHED, s') ->
        exists top bottom wa wb l,
          trace s' = trace s ++ l
          /\ split_result host (world s) l wa
          /\ split_result host wa l wb
          /\ front_above_right wb top bottom l).
Proof.
  split.
  - intros new_win s s' H. exact (deferred_setup_front_above_right host new_win s s' H).
  - intros s s' H. exact (split_execute_front_above_right host s s' H).
Qed.

Lemma pair_eta_fst {A B} (p : A * B) (a : A) : fst p = a -> p = (a, snd p).
Proof. destruct p; simpl; intros ->; reflexivity. Qed.

Lemma demo_split_run :
  VIEW3D_OT_open_silhouette_split_current.execute demo_host demo_state
  = (Return FINISHED,
     snd (VIEW3D_OT_open_silhouette_split_current.execute demo_host demo_state)).
Proof. apply pair_eta_fst, demo_split_finished. Qed.

Lemma demo_deferred_run :
  VIEW3D_OT_open_silhouette_view_dual._deferred_setup_body demo_host (Some 2)
    demo_state_new_window
  = (Return None,
     snd (VIEW3D_OT_open_silhouette_view_dual._deferred_setup_body demo_host (Some 2)
            demo_state_new_window)).
Proof. apply pair_eta_fst, demo_deferred_done. Qed.

Lemma C9_witness :
  (exists top bottom w1 l,
     trace (snd (VIEW3D_OT_open_silhouette_view_dual._deferred_setup_body demo_host (Some 2)
                   demo_state_new_window))
     = trace demo_state_new_window ++ l
     /\ split_result demo_host (world demo_state_new_window) l w1
     /\ front_above_right w1 top bottom l)
  /\ (exists top bottom wa wb l,
        trace (snd (VIEW3D_OT_open_silhouette_split_current.execute demo_host demo_state))
        = trace demo_state ++ l
        /\ split_result demo_host (world demo_state) l wa
        /\ split_result demo_host wa l wb
        /\ front_above_right wb top bottom l).
Proof.
  split.
  - exact (proj1 (C9_front_above_right demo_host) (Some 2%nat) demo_state_new_window _
             demo_deferred_run).
  - exact (proj2 (C9_front_above_right demo_host) demo_state _ demo_split_run).
Defined.

Lemma Stable_sub host (Q Q' : CallCtx -> Operator -> Prop) I :
  (forall ctx op, Q' ctx op -> Q ctx op) -> Stable host Q I -> Stable host Q' I.
Proof.
  intros Hq [Hh Ha]; split.
  - intros ctx op w w' H; apply Hh, Hq, H.
  - exact Ha.
Qed.

(** Two distinct areas, both VIEW_3D and orthographic in world [w]; the
    actions [l] ask for FRONT only in [top] and for RIGHT only in [bottom],
    each at least once and each time with the area's view already
    orthographic. *)
Definition two_orthographic_views (w : World) (top bottom : AreaRef) (l : list Action) : Prop :=
  top <> bottom
  /\ Forall (front_right top bottom) l
  /\ (exists a, In a l /\ axis_request top FRONT a)
  /\ (exists a, In a l /\ axis_request bottom RIGHT a)
  /\ is_view3d w top /\ is_view3d w bottom
  /\ view_is_ortho w top /\ view_is_ortho w bottom.

Lemma deferred_setup_two_views host new_win s s' :
  host_keeps_ortho host -> host_keeps_areas host ->
  VIEW3D_OT_open_silhouette_view_dual._deferred_setup_body host new_win s = (Return None, s') ->
  exists top bottom l, trace s' = trace s ++ l /\ two_orthographic_views (world s') top bottom l.
Proof.
  intros Ho Ha H; apply deferred_setup_body_inv in H.
  destruct H as (top & rt & bottom & rb & s1 & s2 & T0 & _ & Hne & _ & _ & Hc & T & Hkeep).
  destruct (pair_trace _ _ _ _ _ _ _ _ _ _ no_action_no_axis T0 Hc) as (l & Tl & Fl & A1 & A2).
  destruct (configure_pair_ortho _ _ _ _ _ _ _ _ Ho Hc) as [O1 O2].
  destruct (configure_pair_view3d _ _ _ _ _ _ _ _ Ha Hc) as [V1 V2].
  assert (Sub : forall ctx op, no_call ctx op -> view_call ctx op) by (intros ctx op []).
  exists top, bottom, l; split; [ congruence | ].
  split; [ exact Hne | split; [ exact Fl | split; [ exact A1 | split; [ exact A2 | ] ] ] ].
  split; [ | split; [ | split ] ].
  - exact (Hkeep (fun w => is_view3d w top)
             (Stable_sub _ _ _ _ Sub (Stable_view3d host top Ha)) V1).
  - exact (Hkeep (fun w => is_view3d w bottom)
             (Stable_sub _ _ _ _ Sub (Stable_view3d host bottom Ha)) V2).
  - exact (Hkeep (fun w => view_is_ortho w top)
             (Stable_sub _ _ _ _ Sub (Stable_ortho host top Ho)) O1).
  - exact (Hkeep (fun w => view_is_ortho w bottom)
             (Stable_sub _ _ _ _ Sub (Stable_ortho host bottom Ho)) O2).
Qed.

Lemma split_execute_two_views host s s' :
  host_keeps_ortho host -> host_keeps_areas host -> host_keeps_screens host ->
  screens_nodup (world s) -> context_area_listed (world s) ->
  VIEW3D_OT_open_silhouette_split_current.execute host s = (Return FINISHED, s') ->
  exists top bottom l, trace s' = trace s ++ l /\ two_orthographic_views (world s') top bottom l.
Proof.
  intros Ho Ha Hs Hnd Hl H.
  destruct (split_execute_front_above_right _ _ _ H)
    as (top' & bottom' & wa' & wb' & l & Tl & _).
  clear top' bottom' wa' wb'.
  pose proof H as H'; apply split_execute_inv in H'.
  destruct H' as (top & rt & bottom & rb & s1 & s2 & T0 & _ & _ & Hne & _ & Hc & W & T).
  destruct (pair_trace _ _ _ _ _ _ _ _ _ _ report_no_axis T0 Hc)
    as (l2 & Tl2 & Fl & (a1 & I1 & A1) & (a2 & I2 & A2)).
  destruct (configure_pair_ortho _ _ _ _ _ _ _ _ Ho Hc) as [O1 O2].
  destruct (configure_pair_view3d _ _ _ _ _ _ _ _ Ha Hc) as [V1 V2].
  rewrite <- W in O1, O2, V1, V2.
  assert (Hfin : forall l', trace s' = trace s ++ l' ->
                            Forall (front_right top bottom) l' ->
                            (exists a, In a l' /\ axis_request top FRONT a) ->
                            (exists a, In a l' /\ axis_request bottom RIGHT a) ->
                            exists top bottom l,
                              trace s' = trace s ++ l
                              /\ two_orthographic_views (world s') top bottom l).
  { intros l' E F B1 B2; exists top, bottom, l'; split; [ exact E | ].
    split; [ apply Hne; assumption | ]. repeat (split; [ assumption | ]). assumption. }
  destruct T as [T | T].
  - apply (Hfin l2); [ congruence | exact Fl | eauto | eauto ].
  - apply (Hfin (l2 ++ [act_timer (timer_post_fix (context_window (context (world s)))
                                     top rt bottom rb) 0.05%float])).
    + rewrite T, Tl2, <- app_assoc; reflexivity.
    + apply Forall_app; split; [ exact Fl | ].
      constructor; [ left; reflexivity | constructor ].
    + exists a1; split; auto; apply in_or_app; auto.
    + exists a2; split; auto; apply in_or_app; auto.
Qed.

(** C1.  On a host whose view operators keep an orthographic view
    orthographic, keep every area and its type, and keep the screens' area
    lists free of duplicates: a run of the deferred setup that ends normally,
    and a finished run of the split-current operator started in a listed
    area, configure two distinct areas.  Every axis request of the run is
    FRONT for the first or RIGHT for the second, each is made at least once,
    each is made after the area's view was set to ORTHO, and at the end both
    areas are VIEW_3D and orthographic. *)
Theorem C1_two_orthographic_views (host : Host) :
  host_keeps_ortho host -> host_keeps_areas host -> host_keeps_screens host ->
  (forall new_win s s',
     VIEW3D_OT_open_silhouette_view_dual._deferred_setup_body host new_win s = (Return None, s') ->
     exists top bottom l,
       trace s' = trace s ++ l /\ two_orthographic_views (world s') top bottom l)
  /\ (forall s s',
        screens_nodup (world s) -> context_area_listed (world s) ->
        VIEW3D_OT_open_silhouette_split_current.execute host s = (Return FINISHED, s') ->
        exists top bottom l,
          trace s' = trace s ++ l /\ two_orthographic_views (world s') top bottom l).
Proof.
  intros Ho Ha Hs; split.
  - intros new_win s s'; apply deferred_setup_two_views; assumption.
  - intros s s' Hnd Hl; apply split_execute_two_views; assumption.
Qed.

Lemma C1_witness :
  (exists top bottom l,
     trace (snd (VIEW3D_OT_open_silhouette_view_dual._deferred_setup_body demo_host (Some 2)
                   demo_state_new_window))
     = trace demo_state_new_window ++ l
     /\ two_orthographic_views
          (world (snd (VIEW3D_OT_open_silhouette_view_dual._deferred_setup_body demo_host
                         (Some 2) demo_state_new_window)))
          top bottom l)
  /\ (exists top bottom l,
        trace (snd (VIEW3D_OT_open_silhouette_split_current.execute demo_host demo_state))
        = trace demo_state ++ l
        /\ two_orthographic_views
             (world (snd (VIEW3D_OT_open_silhouette_split_current.execute demo_host demo_state)))
             top bottom l).
Proof.
  split.
  - exact (proj1 (C1_two_orthographic_views demo_host demo_keeps_ortho demo_keeps_areas
                    demo_keeps_screens) (Some 2%nat) demo_state_new_window _ demo_deferred_run).
  - exact (proj2 (C1_two_orthographic_views demo_host demo_keeps_ortho demo_keeps_areas
                    demo_keeps_screens) demo_state _ demo_world_nodup demo_world_listed
             demo_split_run).
Defined.

(** ** C3: the operators need an active object and frame the selection *)

(** The condition both [poll]s share. *)
Definition object_selected (c : Context) : Prop :=
  context_mode c = OBJECT /\ context_active_object c <> None.

Lemma dual_poll_spec s :
  VIEW3D_OT_open_silhouette_view_dual.poll s
  = (Return (String.eqb (context_mode (context (world s))) OBJECT
             && match context_active_object (context (world s)) with
                | Some _ => true
                | None => false
                end), s).
Proof. reflexivity. Qed.

Lemma dual_poll_true s :
  fst (VIEW3D_OT_open_silhouette_view_dual.poll s) = Return true
  <-> object_selected (context (world s)).
Proof.
  rewrite dual_poll_spec; simpl; unfold object_selected.
  destruct (String.eqb_spec (context_mode (context (world s))) OBJECT) as [E | E];
    destruct (context_active_object (context (world s))); simpl;
    split; intros H; try discriminate; try (split; congruence);
    destruct H as [H1 H2]; congruence.
Qed.

Lemma split_poll_true s :
  fst (VIEW3D_OT_open_silhouette_split_current.poll s) = Return true
  <-> object_selected (context (world s))
      /\ exists a, context_area (context (world s)) = Some a /\ is_view3d (world s) a.
Proof.
  unfold VIEW3D_OT_open_silhouette_split_current.poll, object_selected, is_view3d.
  unfold_py; simpl.
  destruct (String.eqb_spec (context_mode (context (world s))) OBJECT) as [E | E]; simpl.
  - destruct (context_area (context (world s))) as [a|]; simpl.
    + unfold the_area; unfold_py; simpl.
      destruct (areas (world s) a) as [o|] eqn:Ea; simpl.
      * destruct (String.eqb_spec (area_type o) VIEW_3D) as [T | T]; simpl.
        -- destruct (context_active_object (context (world s))); simpl; split.
           ++ intros _; split; [ split; congruence | ]. exists a; split; eauto.
           ++ reflexivity.
           ++ discriminate.
           ++ intros [[_ H] _]; congruence.
        -- split; [ discriminate | ].
           intros [_ (a' & Ea' & o' & Eo' & T')]. congruence.
      * split; [ discriminate | ].
        intros [_ (a' & Ea' & o' & Eo' & T')]. congruence.
    + split; [ discriminate | ]. intros [_ (a' & Ea' & _)]; discriminate.
  - split; [ discriminate | ]. intros [[H _] _]; congruence.
Qed.

(** Each of the two areas gets its axis request and a [view_selected] call
    in its own context, and the run frames nothing else. *)
Definition frames_of (a : Action) : option (option AreaRef) :=
  match a with
  | act_call ctx (view3d_view_selected _) _ _ => Some (ctx_area ctx)
  | _ => None
  end.

Definition both_framed (top bottom : AreaRef) (l : list Action) : Prop :=
  (exists a, In a l /\ axis_request top FRONT a)
  /\ (exists a, In a l /\ axis_request bottom RIGHT a)
  /\ (exists a, In a l /\ frame_request top a)
  /\ (exists a, In a l /\ frame_request bottom a)
  /\ Forall (fun a => forall x, frames_of a = Some x -> x = Some top \/ x = Some bottom) l.

Lemma pair_request_frames top bottom a x :
  pair_request top bottom a -> frames_of a = Some x -> x = Some top \/ x = Some bottom.
Proof.
  unfold pair_request.
  intros [[H | H] | [H | H]].
  - destruct H as (w & _ & ctx & op & ok & -> & _ & Hop); simpl.
    destruct op; simpl in *; discriminate.
  - destruct H as (ctx & op & pre & ok & -> & Hc & ->); simpl.
    intros E; inversion E; auto.
  - destruct H as (w & _ & ctx & op & ok & -> & _ & Hop); simpl.
    destruct op; simpl in *; discriminate.
  - destruct H as (ctx & op & pre & ok & -> & Hc & ->); simpl.
    intros E; inversion E; auto.
Qed.

Lemma split_action_no_frame N a :
  (forall b, N b -> frames_of b = None) -> allowed split_call N a -> frames_of a = None.
Proof.
  intros HN; destruct a as [ctx op pre ok| |]; simpl; intros H;
    try (apply (HN _ H)).
  unfold split_call in H; destruct op; simpl in *; tauto.
Qed.

Lemma pair_frames host win top rt bottom rb N s s1 s2 :
  host_accepts_overrides host -> host_keeps_windows host ->
  (forall b, N b -> frames_of b = None) ->
  (exists l, trace s1 = trace s ++ l /\ Forall (allowed split_call N) l) ->
  window_ok (world s1) win ->
  configure_pair host win top rt bottom rb s1 = (Return tt, s2) ->
  exists l, trace s2 = trace s ++ l /\ both_framed top bottom l.
Proof.
  intros Ho Hk HN (l0 & T0 & F0) Hw H.
  apply configure_pair_spec in H;
    destruct H as (l1 & T1 & F1 & (a1 & I1 & A1) & (a2 & I2 & A2) & Fr).
  destruct (Fr Ho Hk Hw) as [(b1 & J1 & B1) (b2 & J2 & B2)].
  exists (l0 ++ l1); split; [ rewrite T1, T0, <- app_assoc; reflexivity | ].
  split; [ exists a1; split; auto; apply in_or_app; auto | ].
  split; [ exists a2; split; auto; apply in_or_app; auto | ].
  split; [ exists b1; split; auto; apply in_or_app; auto | ].
  split; [ exists b2; split; auto; apply in_or_app; auto | ].
  apply Forall_app; split.
  - eapply Forall_impl; [ | exact F0 ].
    intros a Ha x E. rewrite (split_action_no_frame _ _ HN Ha) in E; discriminate.
  - eapply Forall_impl; [ | exact F1 ].
    intros a Ha x; apply pair_request_frames; exact Ha.
Qed.

Lemma both_framed_app top bottom l l' :
  both_framed top bottom l -> Forall (fun a => frames_of a = None) l' ->
  both_framed top bottom (l ++ l').
Proof.
  intros ((a1 & I1 & A1) & (a2 & I2 & A2) & (b1 & J1 & B1) & (b2 & J2 & B2) & F) F'.
  split; [ exists a1; split; auto; apply in_or_app; auto | ].
  split; [ exists a2; split; auto; apply in_or_app; auto | ].
  split; [ exists b1; split; auto; apply in_or_app; auto | ].
  split; [ exists b2; split; auto; apply in_or_app; auto | ].
  apply Forall_app; split; [ exact F | ].
  eapply Forall_impl; [ | exact F' ].
  intros a Ha x E; rewrite Ha in E; discriminate.
Qed.

Lemma deferred_setup_frames host new_win s s' :
  host_accepts_overrides host -> host_keeps_windows host ->
  VIEW3D_OT_open_silhouette_view_dual._deferred_setup_body host new_win s = (Return None, s') ->
  exists top bottom l, trace s' = trace s ++ l /\ both_framed top bottom l.
Proof.
  intros Ho Hk H; apply deferred_setup_body_inv in H.
  destruct H as (top & rt & bottom & rb & s1 & s2 & T0 & _ & _ & _ & Hw & Hc & T & _).
  assert (HN : forall b, no_action b -> frames_of b = None) by (intros b []).
  destruct (pair_frames _ _ _ _ _ _ _ _ _ _ Ho Hk HN T0 Hw Hc) as (l & Tl & Fl).
  exists top, bottom, l; split; [ congruence | exact Fl ].
Qed.

Lemma split_execute_frames host s s' :
  host_accepts_overrides host -> host_keeps_windows host ->
  window_ok (world s) (context_window (context (world s))) ->
  VIEW3D_OT_open_silhouette_split_current.execute host s = (Return FINISHED, s') ->
  exists top bottom l, trace s' = trace s ++ l /\ both_framed top bottom l.
Proof.
  intros Ho Hk Hw H; apply split_execute_inv in H.
  destruct H as (top & rt & bottom & rb & s1 & s2 & T0 & _ & Hkeep & _ & _ & Hc & _ & T).
  assert (HN : forall b, is_report b -> frames_of b = None) by (intros []; simpl; tauto).
  assert (Hw1 : window_ok (world s1) (context_window (context (world s)))).
  { apply (Hkeep (fun w => window_ok w (context_window (context (world s)))));
      [ apply Stable_window_ok; exact Hk | exact Hw ]. }
  destruct (pair_frames _ _ _ _ _ _ _ _ _ _ Ho Hk HN T0 Hw1 Hc) as (l & Tl & Fl).
  destruct T as [T | T].
  - exists top, bottom, l; split; [ congruence | exact Fl ].
  - exists top, bottom,
      (l ++ [act_timer (timer_post_fix (context_window (context (world s))) top rt bottom rb)
               0.05%float]).
    split; [ rewrite T, Tl, <- app_assoc; reflexivity | ].
    apply both_framed_app; [ exact Fl | repeat constructor ].
Qed.

(** C3.  The new-window operator's [poll] is true exactly when the mode is
    OBJECT and there is an active object; the split-current operator's [poll]
    asks in addition that the current area is a VIEW_3D.  On a host that
    accepts the context overrides and removes no window, a run of the
    deferred setup that ends normally and a finished run of the split-current
    operator call [view3d.view_selected] in the context of each of the two
    areas that get an axis preset, and in no other context. *)
Theorem C3_poll_and_framing :
  (forall s,
     fst (VIEW3D_OT_open_silhouette_view_dual.poll s) = Return true
     <-> object_selected (context (world s)))
  /\ (forall s,
        fst (VIEW3D_OT_open_silhouette_split_current.poll s) = Return true
        <-> object_selected (context (world s))
            /\ exists a, context_area (context (world s)) = Some a /\ is_view3d (world s) a)
  /\ (forall host,
        host_accepts_overrides host -> host_keeps_windows host ->
        (forall new_win s s',
           VIEW3D_OT_open_silhouette_view_dual._deferred_setup_body host new_win s
           = (Return None, s') ->
           exists top bottom l, trace s' = trace s ++ l /\ both_framed top bottom l)
        /\ (forall s s',
              window_ok (world s) (context_window (context (world s))) ->
              VIEW3D_OT_open_silhouette_split_current.execute host s = (Return FINISHED, s') ->
              exists top bottom l, trace s' = trace s ++ l /\ both_framed top bottom l)).
Proof.
  split; [ exact dual_poll_true | split; [ exact split_poll_true | ] ].
  intros host Ho Hk; split.
  - intros new_win s s'; apply deferred_setup_frames; assumption.
  - intros s s'; apply split_execute_frames; assumption.
Qed.

Lemma demo_window_ok : window_ok (world demo_state) (context_window (context (world demo_state))).
Proof. simpl; discriminate. Qed.

Lemma C3_witness :
  (fst (VIEW3D_OT_open_silhouette_split_current.poll demo_state) = Return true)
  /\ (exists top bottom l,
        trace (snd (VIEW3D_OT_open_silhouette_view_dual._deferred_setup_body demo_host
                      (Some 2%nat) demo_state_new_window))
        = trace demo_state_new_window ++ l
        /\ both_framed top bottom l)
  /\ (exists top bottom l,
        trace (snd (VIEW3D_OT_open_silhouette_split_current.execute demo_host demo_state))
        = trace demo_state ++ l
        /\ both_framed top bottom l).
Proof.
  split; [ vm_compute; reflexivity | split ].
  - exact (proj1 (proj2 (proj2 C3_poll_and_framing) demo_host demo_accepts_overrides
                    demo_keeps_windows)
             (Some 2%nat) demo_state_new_window _ demo_deferred_run).
  - exact (proj2 (proj2 (proj2 C3_poll_and_framing) demo_host demo_accepts_overrides
                    demo_keeps_windows)
             demo_state _ demo_window_ok demo_split_run).
Defined.

(** ** C5: the silhouette style *)

(** Solid, flat, single black on a white viewport background. *)
Definition silhouette_shading : Shading :=
  {| shading_type := SOLID;
     shading_light := FLAT;
     shading_color_type := SINGLE;
     shading_single_color := (0.0, 0.0, 0.0)%float;
     shading_background_type := VIEWPORT;
     shading_background_color := (1.0, 1.0, 1.0)%float |}.

(** The flags lines 109-117 and 138-143 both clear. *)
Definition hidden_flags : list SpaceFlag :=
  [show_region_header; show_region_tool_header; show_region_toolbar; show_region_ui;
   show_gizmo; show_gizmo_navigate].

(** The space has the attributes the styling assigns. *)
Definition has_toggles (so : Space) : Prop :=
  space_shading so <> None
  /\ (forall f, In f hidden_flags -> space_flag so f <> None)
  /\ space_show_overlays so <> None.

Definition styled (so : Space) : Prop :=
  space_shading so = Some silhouette_shading
  /\ (forall f, In f hidden_flags -> space_flag so f = Some false)
  /\ space_show_overlays so = Some false.

Definition silhouette_styled (w : World) (sp : SpaceRef) : Prop :=
  exists so, spaces w sp = Some so /\ styled so.

(** The view operators leave the shading, the flags and the overlay switch
    of every space as they are. *)
Definition host_keeps_style (host : Host) : Prop :=
  forall ctx op w w' sp so,
    is_view_op op -> bpy_ops host ctx op w = Some w' -> spaces w sp = Some so ->
    exists so', spaces w' sp = Some so'
                /\ space_shading so' = space_shading so
                /\ (forall f, space_flag so' f = space_flag so f)
                /\ space_show_overlays so' = space_show_overlays so.

(** [m] turns the space [sp] from [so] into [f so], touches nothing else of
    the areas, and is silent. *)
Definition sets (sp : SpaceRef) (f : Space -> option Space) (m : Py unit) : Prop :=
  forall s so so',
    spaces (world s) sp = Some so -> f so = Some so' ->
    exists s', m s = (Return tt, s')
               /\ spaces (world s') sp = Some so'
               /\ areas (world s') = areas (world s)
               /\ trace s' = trace s.

Definition and_then (f g : Space -> option Space) (so : Space) : option Space :=
  match f so with Some o => g o | None => None end.

Definition or_skip (f : Space -> option Space) (so : Space) : option Space :=
  match f so with Some o => Some o | None => Some so end.

Lemma sets_setattr sp x : sets sp (space_setattr x) (setattr_space (Some sp) x).
Proof.
  intros s so so' Es Ex.
  unfold setattr_space, bind, not_None, ret, setattr, do_assign; rewrite Es, Ex.
  eexists; split; [ reflexivity | ]; simpl; rewrite store_set_eq; auto.
Qed.

Lemma sets_seq sp f g (m k : Py unit) :
  sets sp f m -> sets sp g k -> sets sp (and_then f g) (m ;; k).
Proof.
  intros Hm Hk s so so' Es E; unfold and_then in E.
  destruct (f so) as [o|] eqn:Ef; [ | discriminate ].
  destruct (Hm s so o Es Ef) as (s1 & R1 & S1 & A1 & T1).
  destruct (Hk s1 o so' S1 E) as (s2 & R2 & S2 & A2 & T2).
  exists s2; split; [ unfold bind; rewrite R1; exact R2 | ].
  split; [ exact S2 | split; congruence ].
Qed.

Lemma sets_try_setattr sp x :
  sets sp (or_skip (space_setattr x)) (try_pass (setattr_space (Some sp) x)).
Proof.
  intros s so so' Es E; unfold or_skip in E.
  unfold try_pass, try_except, setattr_space, bind, not_None, ret, setattr, do_assign;
    rewrite Es.
  destruct (space_setattr x so) as [o|]; inversion E; subst; clear E.
  - eexists; split; [ reflexivity | ]; simpl; rewrite store_set_eq; auto.
  - exists s; auto.
Qed.

Lemma sets_try sp f (m : Py unit) : sets sp f m -> sets sp f (try_pass m).
Proof.
  intros Hm s so so' Es E.
  destruct (Hm s so so' Es E) as (s1 & R1 & H).
  exists s1; split; [ | exact H ].
  unfold try_pass, try_except; rewrite R1; reflexivity.
Qed.

(** Lines 99-104 as a function on the space. *)
Definition style_space : Space -> option Space :=
  and_then (space_setattr (attr_shading (attr_sh_type SOLID)))
    (and_then (space_setattr (attr_shading (attr_sh_light FLAT)))
       (and_then (space_setattr (attr_shading (attr_sh_color_type SINGLE)))
          (and_then (space_setattr (attr_shading (attr_sh_single_color (0.0, 0.0, 0.0)%float)))
             (and_then (space_setattr (attr_shading (attr_sh_background_type VIEWPORT)))
                (space_setattr
                   (attr_shading (attr_sh_background_color (1.0, 1.0, 1.0)%float))))))).

(** Lines 109-119 as a function on the space. *)
Definition hide_space : Space -> option Space :=
  and_then (space_setattr (attr_flag show_region_header false))
    (and_then (space_setattr (attr_flag show_region_tool_header false))
       (and_then (space_setattr (attr_flag show_region_toolbar false))
          (and_then (space_setattr (attr_flag show_region_ui false))
             (and_then (or_skip (space_setattr (attr_flag show_region_hud false)))
                (and_then (space_setattr (attr_flag show_gizmo false))
                   (and_then (space_setattr (attr_flag show_gizmo_navigate false))
                      (space_setattr (attr_show_overlays false)))))))).

Lemma style_space_spec so :
  has_toggles so ->
  exists so', style_space so = Some so'
              /\ space_shading so' = Some silhouette_shading
              /\ space_flag so' = space_flag so
              /\ space_show_overlays so' = space_show_overlays so.
Proof.
  intros (Hs & _ & _); destruct so as [fl [sh|] ov r3]; simpl in *; [ | congruence ].
  eexists; split; [ reflexivity | ]; simpl; auto.
Qed.

Lemma hide_space_spec so :
  (forall f, In f hidden_flags -> space_flag so f <> None) ->
  space_show_overlays so <> None ->
  exists so', hide_space so = Some so'
              /\ space_shading so' = space_shading so
              /\ (forall f, In f hidden_flags -> space_flag so' f = Some false)
              /\ space_show_overlays so' = Some false.
Proof.
  intros Hf Ho; destruct so as [fl sh [ov|] r3]; simpl in *; [ | congruence ].
  assert (H1 := Hf show_region_header); assert (H2 := Hf show_region_tool_header);
  assert (H3 := Hf show_region_toolbar); assert (H4 := Hf show_region_ui);
  assert (H5 := Hf show_gizmo); assert (H6 := Hf show_gizmo_navigate).
  simpl in *.
  destruct (fl show_region_header) eqn:E1; [ | tauto ].
  destruct (fl show_region_tool_header) eqn:E2; [ | tauto ].
  destruct (fl show_region_toolbar) eqn:E3; [ | tauto ].
  destruct (fl show_region_ui) eqn:E4; [ | tauto ].
  destruct (fl show_gizmo) eqn:E5; [ | tauto ].
  destruct (fl show_gizmo_navigate) eqn:E6; [ | tauto ].
  clear H1 H2 H3 H4 H5 H6 Hf.
  unfold hide_space, and_then, or_skip; simpl.
  rewrite E1; simpl; rewrite E2; simpl; rewrite E3; simpl; rewrite E4; simpl.
  destruct (fl show_region_hud) eqn:E7; simpl; rewrite E5; simpl; rewrite E6; simpl;
    (eexists; split; [ reflexivity | ]; simpl; split; [ reflexivity | ]; split;
     [ | reflexivity ]);
    intros f [<- | [<- | [<- | [<- | [<- | [<- | []]]]]]]; reflexivity.
Qed.

Lemma sets_assign sp x : sets sp (space_setattr x) (setattr (assign_space sp x)).
Proof. exact (sets_setattr sp x). Qed.

Lemma run_the_space sp so s : spaces (world s) sp = Some so -> the_space sp s = (Return so, s).
Proof. intros E; unfold the_space, get_world, bind, not_None, ret; rewrite E; reflexivity. Qed.

(** Lines 97-106 on a space that has a shading. *)
Lemma style_block_spec sp so s :
  spaces (world s) sp = Some so -> has_toggles so ->
  exists s' so',
    try_pass (sp' <- not_None (Some sp) ;; so0 <- the_space sp' ;;
              _ <- not_None (space_shading so0) ;;
              let sh := assign_space sp' in
              setattr (sh (attr_shading (attr_sh_type SOLID))) ;;
              setattr (sh (attr_shading (attr_sh_light FLAT))) ;;
              setattr (sh (attr_shading (attr_sh_color_type SINGLE))) ;;
              setattr (sh (attr_shading (attr_sh_single_color (0.0, 0.0, 0.0)%float))) ;;
              setattr (sh (attr_shading (attr_sh_background_type VIEWPORT))) ;;
              setattr (sh (attr_shading (attr_sh_background_color (1.0, 1.0, 1.0)%float)))) s
    = (Return tt, s')
    /\ spaces (world s') sp = Some so'
    /\ space_shading so' = Some silhouette_shading
    /\ space_flag so' = space_flag so
    /\ space_show_overlays so' = space_show_overlays so
    /\ areas (world s') = areas (world s)
    /\ trace s' = trace s.
Proof.
  intros Es Ht.
  destruct (style_space_spec so Ht) as (so' & Ef & Hsh & Hfl & Hov).
  assert (Hsets : sets sp style_space
            (setattr (assign_space sp (attr_shading (attr_sh_type SOLID))) ;;
             setattr (assign_space sp (attr_shading (attr_sh_light FLAT))) ;;
             setattr (assign_space sp (attr_shading (attr_sh_color_type SINGLE))) ;;
             setattr (assign_space sp (attr_shading (attr_sh_single_color (0.0, 0.0, 0.0)%float))) ;;
             setattr (assign_space sp (attr_shading (attr_sh_background_type VIEWPORT))) ;;
             setattr (assign_space sp
                        (attr_shading (attr_sh_background_color (1.0, 1.0, 1.0)%float))))).
  { unfold style_space; repeat (apply sets_seq; [ apply sets_assign | ]); apply sets_assign. }
  destruct (Hsets s so so' Es Ef) as (s' & R & Hs & Ha & Htr).
  exists s', so'; split; [ | repeat split; assumption ].
  apply run_try_Return.
  rewrite (run_bind (not_None (Some sp)) _ s sp s eq_refl).
  rewrite (run_bind (the_space sp) _ s so s (run_the_space sp so s Es)).
  destruct Ht as (Hne & _ & _).
  destruct (space_shading so) as [sh0|] eqn:Esh; [ | congruence ].
  rewrite (run_bind (not_None (Some sh0)) _ s sh0 s eq_refl).
  exact R.
Qed.

(** Lines 108-121 on a space that has the flags and the overlay switch. *)
Lemma hide_block_spec sp so s :
  spaces (world s) sp = Some so ->
  (forall f, In f hidden_flags -> space_flag so f <> None) ->
  space_show_overlays so <> None ->
  exists s' so',
    try_pass (setattr_space (Some sp) (attr_flag show_region_header false) ;;
              setattr_space (Some sp) (attr_flag show_region_tool_header false) ;;
              setattr_space (Some sp) (attr_flag show_region_toolbar false) ;;
              setattr_space (Some sp) (attr_flag show_region_ui false) ;;
              try_pass (setattr_space (Some sp) (attr_flag show_region_hud false)) ;;
              setattr_space (Some sp) (attr_flag show_gizmo false) ;;
              setattr_space (Some sp) (attr_flag show_gizmo_navigate false) ;;
              setattr_space (Some sp) (attr_show_overlays false)) s
    = (Return tt, s')
    /\ spaces (world s') sp = Some so'
    /\ space_shading so' = space_shading so
    /\ (forall f, In f hidden_flags -> space_flag so' f = Some false)
    /\ space_show_overlays so' = Some false
    /\ areas (world s') = areas (world s)
    /\ trace s' = trace s.
Proof.
  intros Es Hf Ho.
  destruct (hide_space_spec so Hf Ho) as (so' & Ef & Hsh & Hfl & Hov).
  assert (Hsets : sets sp hide_space
            (setattr_space (Some sp) (attr_flag show_region_header false) ;;
             setattr_space (Some sp) (attr_flag show_region_tool_header false) ;;
             setattr_space (Some sp) (attr_flag show_region_toolbar false) ;;
             setattr_space (Some sp) (attr_flag show_region_ui false) ;;
             try_pass (setattr_space (Some sp) (attr_flag show_region_hud false)) ;;
             setattr_space (Some sp) (attr_flag show_gizmo false) ;;
             setattr_space (Some sp) (attr_flag show_gizmo_navigate false) ;;
             setattr_space (Some sp) (attr_show_overlays false))).
  { unfold hide_space.
    repeat (apply sets_seq; [ first [ apply sets_setattr | apply sets_try_setattr ] | ]).
    apply sets_setattr. }
  destruct (Hsets s so so' Es Ef) as (s' & R & Hs & Ha & Htr).
  exists s', so'; split; [ | repeat split; assumption ].
  apply run_try_Return; exact R.
Qed.

Lemma styled_assign sp g w w' :
  addon_assign g -> do_assign g w = Some w' ->
  silhouette_styled w sp -> silhouette_styled w' sp.
Proof.
  intros Hg H (so & Es & Hsh & Hfl & Hov); unfold silhouette_styled, styled.
  destruct g as [a x|sp0 x|r x|scr b]; simpl in H.
  - destruct (areas w a); inversion H; subst; simpl; eauto 6.
  - destruct (spaces w sp0) as [o|] eqn:Eo; [ | discriminate ].
    destruct (space_setattr x o) as [o'|] eqn:Ex; inversion H; subst; clear H; simpl.
    unfold store_set; destruct (Nat.eqb sp sp0) eqn:En; [ | eauto 6 ].
    apply Nat.eqb_eq in En; subst sp0. rewrite Es in Eo; inversion Eo; subst o; clear Eo.
    exists o'; split; [ reflexivity | ].
    destruct x as [f b|y|b|y]; simpl in Ex, Hg.
    + destruct (space_flag so f); inversion Ex; subst; simpl.
      split; [ exact Hsh | split; [ | exact Hov ] ].
      intros g Hin; destruct (SpaceFlag_eqb g f); auto.
    + rewrite Hsh in Ex; inversion Ex; subst; simpl.
      split; [ | split; assumption ].
      destruct y; simpl in *; subst; reflexivity.
    + destruct (space_show_overlays so); inversion Ex; subst; simpl.
      split; [ exact Hsh | split; [ exact Hfl | reflexivity ] ].
    + destruct (space_region_3d so); inversion Ex; subst; simpl.
      split; [ exact Hsh | split; assumption ].
  - destruct (windows w r); inversion H; subst; simpl; eauto 6.
  - destruct (screens w scr); inversion H; subst; simpl; eauto 6.
Qed.

Lemma Stable_styled host sp :
  host_keeps_style host -> Stable host view_call (fun w => silhouette_styled w sp).
Proof.
  intros Hk; split.
  - intros ctx op w w' Hq H (so & Es & Hsh & Hfl & Hov).
    destruct (Hk _ _ _ _ _ _ Hq H Es) as (so' & Es' & Esh & Efl & Eov).
    exists so'; split; [ exact Es' | ].
    split; [ congruence | split; [ | congruence ] ].
    intros f Hin; rewrite Efl; auto.
  - intros g w w' Hg H; eapply styled_assign; eauto.
Qed.

Lemma set_area_block area x ao s :
  areas (world s) area = Some ao ->
  exists s1, try_pass (setattr (assign_area area x)) s = (Return tt, s1)
             /\ areas (world s1) area = Some (area_setattr x ao)
             /\ spaces (world s1) = spaces (world s)
             /\ trace s1 = trace s.
Proof.
  intros Ea; unfold try_pass, try_except, setattr, do_assign; rewrite Ea.
  eexists; split; [ reflexivity | ]; simpl; rewrite store_set_eq; auto.
Qed.

Lemma run_getattr_area {A} (f : Area -> A) area ao s :
  areas (world s) area = Some ao -> getattr_area f area s = (Return (f ao), s).
Proof.
  intros Ea; unfold getattr_area, the_area, get_world, bind, not_None, ret; rewrite Ea.
  reflexivity.
Qed.

(** Lines 123-149: what follows the styling keeps it, on a host that does. *)
Lemma after_style_spec host win area region axis space sp s r s' :
  host_keeps_style host ->
  (_apply_view_axis host win area region axis ;;
   try_pass (screen <- getattr_screen win ;;
             let ov := {| ov_window := win; ov_screen := screen;
                          ov_area := Some area; ov_region := Some region |} in
             enter_override host ov ;;
             call host (ctx_temp ov) (view3d_view_selected false)) ;;
   _apply_view_axis host win area region axis ;;
   try_pass (hide_ui space ;;
             try_pass (setattr (assign_area area attr_tag_redraw)))) s = (r, s') ->
  r = Return tt /\ (silhouette_styled (world s) sp -> silhouette_styled (world s') sp).
Proof.
  intros Hk H; split.
  - apply bind_inv in H; destruct H as [(u1 & s1 & H1 & H) | [H1 _]];
      [ | apply apply_view_axis_spec in H1; destruct H1; discriminate ].
    apply bind_inv in H; destruct H as [(u2 & s2 & H2 & H) | [H2 _]];
      [ | apply try_pass_inv in H2; destruct H2; discriminate ].
    apply bind_inv in H; destruct H as [(u3 & s3 & H3 & H) | [H3 _]];
      [ | apply apply_view_axis_spec in H3; destruct H3; discriminate ].
    apply try_pass_inv in H; tauto.
  - eapply (runs_keeps view_call no_action (fun w => silhouette_styled w sp)); [ | exact H ].
    pose proof (Stable_styled host sp Hk) as HS.
    unfold hide_ui, setattr_space, _apply_view_axis, _override.
    runs_done.
Qed.

(** C5.  On a host whose view operators leave shading, flags and overlay
    switch alone, configuring an area whose active space has those
    attributes never raises and leaves that space with shading SOLID, FLAT,
    SINGLE, single colour (0,0,0), background VIEWPORT with colour (1,1,1),
    the six flags and [overlay.show_overlays] at [False]; what it asks of the
    host is only the axis preset and the framing of that area. *)
Theorem C5_silhouette_style host win area region axis s r s' ao sp so :
  host_keeps_style host ->
  areas (world s) area = Some ao -> area_spaces_active ao = Some sp ->
  spaces (world s) sp = Some so -> has_toggles so ->
  _configure_silhouette_area host win area region axis s = (r, s') ->
  r = Return tt
  /\ silhouette_styled (world s') sp
  /\ exists l, trace s' = trace s ++ l
               /\ Forall (fun a => axis_request area axis a \/ frame_request area a) l.
Proof.
  intros Hk Ea Eact Es Ht H.
  assert (Hmain : r = Return tt /\ silhouette_styled (world s') sp).
  { unfold _configure_silhouette_area in H.
    destruct (set_area_block area (attr_type VIEW_3D) ao s Ea) as (s1 & R1 & Ea1 & Es1 & _).
    rewrite (run_bind _ _ _ _ _ R1) in H.
    destruct (set_area_block area (attr_ui_type VIEW_3D) _ s1 Ea1) as (s2 & R2 & Ea2 & Es2 & _).
    rewrite (run_bind _ _ _ _ _ R2) in H.
    rewrite (run_bind _ _ _ _ _ (run_getattr_area area_spaces_active area _ s2 Ea2)) in H.
    rewrite !area_setattr_spaces_active, Eact in H.
    assert (Es2' : spaces (world s2) sp = Some so) by (rewrite Es2, Es1; exact Es).
    destruct (style_block_spec sp so s2 Es2' Ht) as (s3 & so3 & R3 & Es3 & Hsh3 & Hfl3 & Hov3 & _).
    rewrite (run_bind _ _ _ _ _ R3) in H.
    destruct Ht as (_ & Hfl & Hov).
    assert (Hfl' : forall f, In f hidden_flags -> space_flag so3 f <> None)
      by (intros f Hin; rewrite Hfl3; auto).
    assert (Hov' : space_show_overlays so3 <> None) by (rewrite Hov3; exact Hov).
    destruct (hide_block_spec sp so3 s3 Es3 Hfl' Hov')
      as (s4 & so4 & R4 & Es4 & Hsh4 & Hfl4 & Hov4 & _).
    rewrite (run_bind _ _ _ _ _ R4) in H.
    destruct (after_style_spec _ _ _ _ _ _ sp _ _ _ Hk H) as [-> Hkeep].
    split; [ reflexivity | ].
    apply Hkeep; exists so4; split; [ exact Es4 | ].
    split; [ congruence | split; assumption ]. }
  destruct Hmain as [-> Hst]; split; [ reflexivity | split; [ exact Hst | ] ].
  apply configure_silhouette_area_spec in H; destruct H as (l & T & F & _).
  exists l; auto.
Qed.

Lemma demo_keeps_style : host_keeps_style demo_host.
Proof.
  intros ctx op w w' sp so Hv H Es; simpl in H.
  destruct (demo_view_op_inv _ _ _ _ Hv H) as (sp0 & x & _ & Hd).
  simpl in Hd. destruct (spaces w sp0) as [so0|] eqn:E0; [ | discriminate ].
  destruct (space_region_3d so0); inversion Hd; subst; clear Hd; simpl.
  unfold store_set; destruct (Nat.eqb sp sp0) eqn:En.
  - apply Nat.eqb_eq in En; subst sp0. rewrite Es in E0; inversion E0; subst so0.
    eexists; split; [ reflexivity | ]; simpl; auto.
  - exists so; auto.
Qed.

Lemma demo_has_toggles : has_toggles demo_space.
Proof.
  split; [ discriminate | split; [ intros f _; discriminate | discriminate ] ].
Qed.

Lemma C5_witness :
  fst (_configure_silhouette_area demo_host (Some 1%nat) 10%nat
         {| region_id := 1; region_type := WINDOW |} FRONT demo_state) = Return tt
  /\ silhouette_styled
       (world (snd (_configure_silhouette_area demo_host (Some 1%nat) 10%nat
                      {| region_id := 1; region_type := WINDOW |} FRONT demo_state)))
       10%nat
  /\ exists l,
       trace (snd (_configure_silhouette_area demo_host (Some 1%nat) 10%nat
                     {| region_id := 1; region_type := WINDOW |} FRONT demo_state))
       = trace demo_state ++ l
       /\ Forall (fun a => axis_request 10%nat FRONT a \/ frame_request 10%nat a) l.
Proof.
  exact (C5_silhouette_style demo_host (Some 1%nat) 10%nat
           {| region_id := 1; region_type := WINDOW |} FRONT demo_state _ _
           (demo_area 10) 10%nat demo_space
           demo_keeps_style eq_refl eq_refl eq_refl demo_has_toggles
           (surjective_pairing _)).
Defined.

(** ** C10: the rotation fix of [_post_fix] *)

(** [area.spaces.active.region_3d] *)
Definition view_of (w : World) (area : AreaRef) : option RegionView3D :=
  match areas w area with
  | Some o =>
      match area_spaces_active o with
      | Some sp =>
          match spaces w sp with
          | Some so => space_region_3d so
          | None => None
          end
      | None => None
      end
  | None => None
  end.

(** Line 431: [all(abs(a - b) < 1e-5 for a, b in zip(qt, qb))] *)
Definition quat_same (qt qb : Quaternion) : bool :=
  forallb (fun ab => PrimFloat.ltb (abs (fst ab - snd ab)) 1e-5)%float
          (combine (quat_iter qt) (quat_iter qb)).

(** Line 433: the components handed to [Quaternion]. *)
Definition z90_components : float * float * float * float :=
  (0.70710678, 0.0, 0.0, 0.70710678)%float.

Lemma quat_same_spec qt qb :
  quat_same qt qb = true
  <-> PrimFloat.ltb (abs (quat_w qt - quat_w qb)) 1e-5 = true
      /\ PrimFloat.ltb (abs (quat_x qt - quat_x qb)) 1e-5 = true
      /\ PrimFloat.ltb (abs (quat_y qt - quat_y qb)) 1e-5 = true
      /\ PrimFloat.ltb (abs (quat_z qt - quat_z qb)) 1e-5 = true.
Proof.
  unfold quat_same, quat_iter; simpl.
  rewrite !andb_true_iff; tauto.
Qed.

Lemma persp_of_view w a : persp_of w a = option_map view_perspective (view_of w a).
Proof.
  unfold persp_of, view_of.
  destruct (areas w a) as [o|]; [ | reflexivity ].
  destruct (area_spaces_active o) as [sp|]; [ | reflexivity ].
  destruct (spaces w sp) as [so|]; [ | reflexivity ].
  destruct (space_region_3d so); reflexivity.
Qed.

(** The assignments of the re-hide loop. *)
Definition flag_assign (g : Assign) : Prop :=
  match g with
  | assign_space _ (attr_flag _ _) => True
  | assign_space _ (attr_show_overlays _) => True
  | _ => False
  end.

Lemma StableG_view_of host a v :
  StableG host no_call flag_assign (fun w => view_of w a = v).
Proof.
  split; [ intros ctx op w w' [] | ].
  intros g w w' Hg H E.
  destruct g as [a0 x|sp x|r x|scr b]; simpl in Hg; try contradiction.
  simpl in H. destruct (spaces w sp) as [o|] eqn:Eo; [ | discriminate ].
  assert (Hv : forall o', space_setattr x o = Some o' -> space_region_3d o' = space_region_3d o).
  { intros o' Ex; destruct x as [f b|y|b|y]; simpl in Hg, Ex; try contradiction.
    - destruct (space_flag o f); inversion Ex; reflexivity.
    - destruct (space_show_overlays o); inversion Ex; reflexivity. }
  destruct (space_setattr x o) as [o'|] eqn:Ex; [ | discriminate ].
  injection H as <-.
  rewrite <- E; unfold view_of; simpl.
  destruct (areas w a) as [oa|]; [ | reflexivity ].
  destruct (area_spaces_active oa) as [sp0|]; [ | reflexivity ].
  unfold store_set; destruct (Nat.eqb sp0 sp) eqn:En; [ | reflexivity ].
  apply Nat.eqb_eq in En; subst sp0; rewrite Eo; apply Hv; reflexivity.
Qed.

(** Lines 439-447 leave every view as it is. *)
Lemma rehide_keeps_view (host : Host) (l : list AreaRef) a s r s' :
  for_in l (fun a0 => sp <- getattr_area area_spaces_active a0 ;; hide_ui sp) s = (r, s') ->
  view_of (world s') a = view_of (world s) a.
Proof.
  intros H.
  eapply (runs_keeps no_call no_action (fun w => view_of w a = view_of (world s) a));
    [ | exact H | reflexivity ].
  pose proof (StableG_view_of host a (view_of (world s) a)) as HS.
  unfold hide_ui, setattr_space.
  runs_done.
Qed.

(** The view the fix leaves in the bottom area when the rotations agree. *)
Definition fixed_view (host : Host) (vt vb : RegionView3D) : RegionView3D :=
  {| view_perspective := ORTHO;
     view_rotation := quat_matmul host (mathutils_Quaternion host z90_components)
                        (view_rotation vt);
     view_distance := view_distance vb |}.

Lemma run_spaces_active area o sp s :
  areas (world s) area = Some o -> area_spaces_active o = Some sp ->
  spaces_active area s = (Return sp, s).
Proof.
  intros Ea Es; unfold spaces_active, getattr_area, the_area, get_world, bind, not_None, ret.
  rewrite Ea, Es; reflexivity.
Qed.

(** The state after [space.region_3d.<attr> = v]. *)
Definition put_view (sp : SpaceRef) (so : Space) (v : RegionView3D) (s : State) : State :=
  with_world
    (with_spaces
       (store_set (spaces (world s)) sp
          {| space_flag := space_flag so; space_shading := space_shading so;
             space_show_overlays := space_show_overlays so; space_region_3d := Some v |})
       (world s)) s.

Lemma run_setattr_view sp so v x s :
  spaces (world s) sp = Some so -> space_region_3d so = Some v ->
  setattr (assign_space sp (attr_region_3d x)) s
  = (Return tt, put_view sp so (view3d_setattr x v) s).
Proof.
  intros Es Ev; unfold setattr, do_assign, space_setattr; rewrite Es, Ev; reflexivity.
Qed.

(** Lines 426-437 from a state in which both areas have a view. *)
Lemma fix_step_spec host left_top left_bottom s vt vb :
  view_of (world s) left_top = Some vt ->
  view_of (world s) left_bottom = Some vb ->
  exists s',
    try_pass (sp_t <- spaces_active left_top ;; so_t <- the_space sp_t ;;
              r_t <- not_None (space_region_3d so_t) ;;
              let qt := view_rotation r_t in
              sp_b <- spaces_active left_bottom ;; so_b <- the_space sp_b ;;
              r_b <- not_None (space_region_3d so_b) ;;
              let qb := view_rotation r_b in
              let same := forallb (fun ab => PrimFloat.ltb (abs (fst ab - snd ab)) 1e-5)%float
                                  (combine (quat_iter qt) (quat_iter qb)) in
              if same then
                let z90 := mathutils_Quaternion host
                             (0.70710678, 0.0, 0.0, 0.70710678)%float in
                sp <- spaces_active left_bottom ;;
                setattr (assign_space sp
                           (attr_region_3d (attr_view_rotation (quat_matmul host z90 qt)))) ;;
                sp' <- spaces_active left_bottom ;;
                setattr (assign_space sp' (attr_region_3d (attr_view_perspective ORTHO)))
              else ret tt) s
    = (Return tt, s')
    /\ if quat_same (view_rotation vt) (view_rotation vb)
       then view_of (world s') left_bottom = Some (fixed_view host vt vb)
       else s' = s.
Proof.
  unfold view_of; intros Ht Hb.
  destruct (areas (world s) left_top) as [ot|] eqn:Eat; [ | discriminate ].
  destruct (area_spaces_active ot) as [spt|] eqn:Est; [ | discriminate ].
  destruct (spaces (world s) spt) as [sot|] eqn:Esot; [ | discriminate ].
  destruct (areas (world s) left_bottom) as [ob|] eqn:Eab; [ | discriminate ].
  destruct (area_spaces_active ob) as [spb|] eqn:Esb; [ | discriminate ].
  destruct (spaces (world s) spb) as [sob|] eqn:Esob; [ | discriminate ].
  unfold quat_same.
  destruct (forallb _ _) eqn:Esame.
  - set (s1 := put_view spb sob
                 (view3d_setattr
                    (attr_view_rotation
                       (quat_matmul host (mathutils_Quaternion host z90_components)
                          (view_rotation vt))) vb) s).
    assert (Eab1 : areas (world s1) left_bottom = Some ob) by exact Eab.
    assert (Esob1 : spaces (world s1) spb
                    = Some {| space_flag := space_flag sob; space_shading := space_shading sob;
                              space_show_overlays := space_show_overlays sob;
                              space_region_3d :=
                                Some (view3d_setattr
                                        (attr_view_rotation
                                           (quat_matmul host
                                              (mathutils_Quaternion host z90_components)
                                              (view_rotation vt))) vb) |})
      by (unfold s1, put_view; simpl; apply store_set_eq).
    eexists; split.
    + apply run_try_Return.
      rewrite (run_bind _ _ _ _ _ (run_spaces_active _ _ _ _ Eat Est)).
      rewrite (run_bind _ _ _ _ _ (run_the_space _ _ _ Esot)).
      rewrite Ht. rewrite (run_bind (not_None (Some vt)) _ s vt s eq_refl).
      cbv zeta.
      rewrite (run_bind _ _ _ _ _ (run_spaces_active _ _ _ _ Eab Esb)).
      rewrite (run_bind _ _ _ _ _ (run_the_space _ _ _ Esob)).
      rewrite Hb. rewrite (run_bind (not_None (Some vb)) _ s vb s eq_refl).
      cbv zeta. rewrite Esame.
      rewrite (run_bind _ _ _ _ _ (run_spaces_active _ _ _ _ Eab Esb)).
      rewrite (run_bind _ _ _ _ _ (run_setattr_view _ _ _ _ _ Esob Hb)).
      fold s1.
      rewrite (run_bind _ _ _ _ _ (run_spaces_active _ _ _ _ Eab1 Esb)).
      apply (run_setattr_view _ _ _ _ _ Esob1 eq_refl).
    + simpl. rewrite Eab, Esb, store_set_eq. reflexivity.
  - exists s; split; [ | reflexivity ].
    apply run_try_Return.
    rewrite (run_bind _ _ _ _ _ (run_spaces_active _ _ _ _ Eat Est)).
    rewrite (run_bind _ _ _ _ _ (run_the_space _ _ _ Esot)).
    rewrite Ht. rewrite (run_bind (not_None (Some vt)) _ s vt s eq_refl).
    cbv zeta.
    rewrite (run_bind _ _ _ _ _ (run_spaces_active _ _ _ _ Eab Esb)).
    rewrite (run_bind _ _ _ _ _ (run_the_space _ _ _ Esob)).
    rewrite Hb. rewrite (run_bind (not_None (Some vb)) _ s vb s eq_refl).
    cbv zeta. rewrite Esame. reflexivity.
Qed.

Lemma run_try_pass (m : Py unit) s r s1 : m s = (r, s1) -> try_pass m s = (Return tt, s1).
Proof.
  intros H; unfold try_pass, try_except, ret; rewrite H; destruct r as [[]|]; reflexivity.
Qed.

(** C10.  Let [s2] be the state after [_post_fix] has re-applied the two
    axes, with views [vt] and [vb] in the top and the bottom area.  When the
    four components of the two rotations differ by less than 1e-5 each, the
    callback leaves the bottom area with rotation [z90 @ qt], [z90] made from
    (0.70710678, 0, 0, 0.70710678), and perspective ORTHO; otherwise it leaves
    both views as they were in [s2]. *)
Theorem C10_post_fix_rotation host win left_top reg_top left_bottom reg_bottom s s2 vt vb :
  (_apply_view_axis host win left_top reg_top FRONT ;;
   _apply_view_axis host win left_bottom reg_bottom RIGHT) s = (Return tt, s2) ->
  view_of (world s2) left_top = Some vt ->
  view_of (world s2) left_bottom = Some vb ->
  let w' := world (snd (VIEW3D_OT_open_silhouette_split_current._post_fix host win
                          left_top reg_top left_bottom reg_bottom s)) in
  (quat_same (view_rotation vt) (view_rotation vb) = true ->
   view_of w' left_bottom = Some (fixed_view host vt vb))
  /\ (quat_same (view_rotation vt) (view_rotation vb) = false ->
      view_of w' left_top = Some vt /\ view_of w' left_bottom = Some vb).
Proof.
  intros Hab Hvt Hvb.
  apply bind_Return_inv in Hab; destruct Hab as (u & s1 & HA & HB); destruct u.
  destruct (fix_step_spec host left_top left_bottom s2 vt vb Hvt Hvb) as (s3 & HF & Hcase).
  destruct (for_in [left_top; left_bottom]
              (fun a => sp <- getattr_area area_spaces_active a ;; hide_ui sp) s3)
    as [r4 s4] eqn:HR.
  assert (Hrun : VIEW3D_OT_open_silhouette_split_current._post_fix host win
                   left_top reg_top left_bottom reg_bottom s = (Return None, s4)).
  { unfold VIEW3D_OT_open_silhouette_split_current._post_fix.
    erewrite run_bind; [ reflexivity | ].
    eapply run_try_pass.
    rewrite (run_bind _ _ _ _ _ HA), (run_bind _ _ _ _ _ HB), (run_bind _ _ _ _ _ HF).
    exact HR. }
  rewrite Hrun; simpl.
  pose proof (rehide_keeps_view host _ left_top _ _ _ HR) as Kt.
  pose proof (rehide_keeps_view host _ left_bottom _ _ _ HR) as Kb.
  split; intros Hs; rewrite Hs in Hcase.
  - rewrite Kb; exact Hcase.
  - subst s3; rewrite Kt, Kb; auto.
Qed.

(** The components (0.70710678, 0, 0, 0.70710678) are [(cos t/2, 0, 0, sin t/2)]
    with [cos t = w*w - z*z = 0] and [sin t = 2*w*z] within 1e-7 of 1: a
    quarter turn about Z. *)
Example z90_quarter_turn :
  match z90_components with
  | (w, x, y, z) =>
      (PrimFloat.eqb x 0 && PrimFloat.eqb y 0
       && PrimFloat.eqb (w * w - z * z) 0
       && PrimFloat.ltb (abs (2 * w * z - 1)) 1e-7)%float = true
  end.
Proof. vm_compute. reflexivity. Qed.

(** A host on which every operator raises: the axes cannot be applied, so
    both areas keep the rotation they had. *)
Definition stuck_host : Host :=
  {| bpy_ops := fun _ _ _ => None;
     temp_override := fun _ _ => true;
     timers_register := fun _ _ _ => true;
     window_writable := fun _ _ _ => true;
     mathutils_Quaternion := mathutils_Quaternion demo_host;
     quat_matmul := demo_matmul |}.

(** The demo world after a horizontal split of area 10: areas 210 (upper) and
    10 (lower), both with the default view. *)
Definition demo_two_areas : State :=
  {| world := match demo_split HORIZONTAL 10 demo_world with
              | Some w => w
              | None => demo_world
              end;
     trace := [] |}.

Definition demo_window_region : Region := {| region_id := 1; region_type := WINDOW |}.

Lemma C10_witness :
  view_of
    (world (snd (VIEW3D_OT_open_silhouette_split_current._post_fix stuck_host (Some 1%nat)
                   210%nat demo_window_region 10%nat demo_window_region demo_two_areas)))
    10%nat
  = Some {| view_perspective := ORTHO;
            view_rotation := {| quat_w := 0.70710678; quat_x := 0; quat_y := 0;
                                quat_z := 0.70710678 |};
            view_distance := 5 |}.
Proof.
  refine (eq_trans
            (proj1 (C10_post_fix_rotation stuck_host (Some 1%nat) 210%nat demo_window_region
                      10%nat demo_window_region demo_two_areas
                      (snd ((_apply_view_axis stuck_host (Some 1%nat) 210%nat
                               demo_window_region FRONT ;;
                             _apply_view_axis stuck_host (Some 1%nat) 10%nat
                               demo_window_region RIGHT) demo_two_areas))
                      {| view_perspective := ORTHO;
                         view_rotation := {| quat_w := 1; quat_x := 0; quat_y := 0;
                                             quat_z := 0 |};
                         view_distance := 5 |}
                      {| view_perspective := ORTHO;
                         view_rotation := {| quat_w := 1; quat_x := 0; quat_y := 0;
                                             quat_z := 0 |};
                         view_distance := 5 |}
                      _ _ _) _) _).
  - apply pair_eta_fst; vm_compute; reflexivity.
  - vm_compute; reflexivity.
  - vm_compute; reflexivity.
  - vm_compute; reflexivity.
  - vm_compute; reflexivity.
Defined.

(** * Further properties of the helpers and operators *)

(** ** [_find_window_view3d_area] (lines 17-32) *)

(** The first loop on the list [l] in world [w]: [None] when reading an
    area's type raises, otherwise the first area of type VIEW_3D, if any. *)
Fixpoint scan_view3d (w : World) (l : list AreaRef) : option (option AreaRef) :=
  match l with
  | [] => Some None
  | a :: l' =>
      match areas w a with
      | None => None
      | Some o => if String.eqb (area_type o) VIEW_3D then Some (Some a) else scan_view3d w l'
      end
  end.

Lemma for_first_scan l s :
  for_first (fun area => t <- getattr_area area_type area ;; ret (String.eqb t VIEW_3D)) l s
  = (match scan_view3d (world s) l with Some r => Return r | None => Raise end, s).
Proof.
  induction l as [|a l IH]; simpl; [ reflexivity | ].
  unfold bind at 1. unfold getattr_area, the_area, get_world, bind, not_None, ret. simpl.
  destruct (areas (world s) a) as [o|]; simpl; [ | reflexivity ].
  destruct (String.eqb (area_type o) VIEW_3D); [ reflexivity | exact IH ].
Qed.

Lemma scan_view3d_found w l a :
  scan_view3d w l = Some (Some a) ->
  exists l1 l2 o,
    l = l1 ++ a :: l2 /\ areas w a = Some o /\ area_type o = VIEW_3D
    /\ Forall (fun b => exists ob, areas w b = Some ob /\ area_type ob <> VIEW_3D) l1.
Proof.
  induction l as [|b l IH]; simpl; [ discriminate | ].
  destruct (areas w b) as [ob|] eqn:Eb; [ | discriminate ].
  destruct (String.eqb_spec (area_type ob) VIEW_3D) as [T | T]; intros H.
  - inversion H; subst b. exists [], l, ob; simpl; auto.
  - destruct (IH H) as (l1 & l2 & o & -> & Eo & To & F).
    exists (b :: l1), l2, o; simpl; repeat split; auto.
    constructor; eauto.
Qed.

Lemma scan_view3d_none w l :
  Forall (fun b => areas w b <> None) l ->
  (scan_view3d w l = Some None
   <-> Forall (fun b => forall o, areas w b = Some o -> area_type o <> VIEW_3D) l)
  /\ scan_view3d w l <> None.
Proof.
  induction 1 as [|b l Hb Hl IH]; simpl.
  - split; [ split; auto | discriminate ].
  - destruct (areas w b) as [ob|] eqn:Eb; [ | congruence ].
    destruct (String.eqb_spec (area_type ob) VIEW_3D) as [T | T].
    + split; [ | discriminate ]. split; [ discriminate | ].
      intros F; inversion F as [|? ? Hx _]; subst. exfalso; exact (Hx ob Eb T).
    + destruct IH as [IH1 IH2]; split; [ | exact IH2 ].
      rewrite IH1; split.
      * intros F; constructor; [ intros o E; congruence | exact F ].
      * intros F; inversion F; assumption.
Qed.

(** What the function returns in world [w]. *)
Definition find_result (w : World) (win : option WindowRef) : option AreaRef * option Region :=
  let fa := match window_areas w win with
            | Some l => match scan_view3d w l with Some r => r | None => None end
            | None => None
            end in
  (fa, match fa with
       | Some a => match areas w a with
                   | Some o => find is_WINDOW (area_regions o)
                   | None => None
                   end
       | None => None
       end).

Lemma find_window_view3d_area_run win s :
  _find_window_view3d_area win s = (Return (find_result (world s) win), s).
Proof.
  unfold _find_window_view3d_area, find_result, window_areas.
  assert (E1 : (try_ (r <- not_None win ;; wo <- the_window r ;;
                      scr <- not_None (window_screen wo) ;; so <- the_screen scr ;;
                      for_first (fun area => t <- getattr_area area_type area ;;
                                             ret (String.eqb t VIEW_3D))
                                (screen_areas so))
                except_ ret None) s
               = (Return (match match win with
                                | Some r =>
                                    match windows (world s) r with
                                    | Some wo =>
                                        match window_screen wo with
                                        | Some scr =>
                                            match screens (world s) scr with
                                            | Some so => Some (screen_areas so)
                                            | None => None
                                            end
                                        | None => None
                                        end
                                    | None => None
                                    end
                                | None => None
                                end with
                          | Some l => match scan_view3d (world s) l with
                                      | Some r => r
                                      | None => None
                                      end
                          | None => None
                          end), s)).
  { unfold try_except.
    destruct win as [r|]; [ | reflexivity ].
    unfold bind at 1; simpl. unfold bind at 1.
    unfold the_window, the_screen, get_world, bind at 1, not_None, ret; simpl.
    destruct (windows (world s) r) as [wo|]; simpl; [ | reflexivity ].
    unfold bind at 1. destruct (window_screen wo) as [scr|]; simpl; [ | reflexivity ].
    unfold bind at 1, bind at 1; simpl.
    destruct (screens (world s) scr) as [so|]; simpl; [ | reflexivity ].
    rewrite for_first_scan.
    destruct (scan_view3d (world s) (screen_areas so)) as [r0|]; reflexivity. }
  rewrite (run_bind _ _ _ _ _ E1).
  match goal with |- context [Return (?x, _)] => set (fa := x) end.
  destruct fa as [a|]; [ | reflexivity ].
  unfold bind at 1, try_except, getattr_area, the_area, get_world, bind, not_None, ret; simpl.
  destruct (areas (world s) a); reflexivity.
Qed.

(** X1.  [_find_window_view3d_area] never raises and changes nothing.  An
    area it returns is the first VIEW_3D area in the list of the window's
    screen, every area listed before it exists and has another type, and the
    region returned with it is the first WINDOW region of that area; without
    an area it returns no region. *)
Theorem X1_find_returns_first_view3d_area (win : option WindowRef) (s : State) :
  exists fa fr,
    _find_window_view3d_area win s = (Return (fa, fr), s)
    /\ (fa = None -> fr = None)
    /\ (forall a, fa = Some a ->
          exists l1 l2 o,
            window_areas (world s) win = Some (l1 ++ a :: l2)
            /\ areas (world s) a = Some o
            /\ area_type o = VIEW_3D
            /\ Forall (fun b => exists ob, areas (world s) b = Some ob
                                           /\ area_type ob <> VIEW_3D) l1
            /\ fr = find is_WINDOW (area_regions o)).
Proof.
  rewrite find_window_view3d_area_run; unfold find_result.
  eexists; eexists; split; [ reflexivity | ].
  destruct (window_areas (world s) win) as [l|]; [ | split; [ reflexivity | discriminate ] ].
  destruct (scan_view3d (world s) l) as [[a|]|] eqn:Es;
    try (split; [ reflexivity | discriminate ]).
  split; [ discriminate | ].
  intros a' E; inversion E; subst a'; clear E.
  destruct (scan_view3d_found _ _ _ Es) as (l1 & l2 & o & -> & Eo & To & F).
  exists l1, l2, o; rewrite Eo; auto.
Qed.

(** X2.  When the window shows a screen all of whose listed areas exist,
    [_find_window_view3d_area] returns no area exactly when none of them is a
    VIEW_3D. *)
Theorem X2_find_misses_only_without_view3d (win : option WindowRef) (s : State)
  (l : list AreaRef) :
  window_areas (world s) win = Some l ->
  Forall (fun b => areas (world s) b <> None) l ->
  exists fa fr,
    _find_window_view3d_area win s = (Return (fa, fr), s)
    /\ (fa = None <-> Forall (fun b => ~ is_view3d (world s) b) l).
Proof.
  intros Hl Hall; rewrite find_window_view3d_area_run.
  eexists; eexists; split; [ reflexivity | ].
  rewrite Hl.
  destruct (scan_view3d_none _ _ Hall) as [Hiff Hne].
  destruct (scan_view3d (world s) l) as [[a|]|] eqn:Es; [ | | congruence ].
  - split; [ discriminate | ].
    intros F. destruct (scan_view3d_found _ _ _ Es) as (l1 & l2 & o & -> & Eo & To & _).
    apply Forall_app in F; destruct F as [_ F]; inversion F as [|? ? Hx _]; subst.
    exfalso; apply Hx; exists o; auto.
  - split; [ intros _ | reflexivity ].
    pose proof (proj1 Hiff eq_refl) as F0.
    eapply Forall_impl; [ | exact F0 ].
    intros b Hb (o & Eo & To); exact (Hb o Eo To).
Qed.

Lemma X2_witness :
  exists fa fr,
    _find_window_view3d_area (Some 1%nat) demo_state = (Return (fa, fr), demo_state)
    /\ (fa = None <-> Forall (fun b => ~ is_view3d (world demo_state) b) [10%nat]).
Proof.
  apply (X2_find_misses_only_without_view3d (Some 1%nat) demo_state [10%nat]).
  - reflexivity.
  - repeat constructor; simpl; discriminate.
Defined.

(** ** [_apply_view_axis] (lines 47-82) *)

(** Whether a recorded host call returned. *)
Definition call_ok (a : Action) : bool :=
  match a with act_call _ _ _ ok => ok | _ => false end.

Definition call_of (a : Action) : option (CallCtx * Operator) :=
  match a with act_call ctx op _ _ => Some (ctx, op) | _ => None end.

(** The three ways the source asks for an axis, in the order it tries them. *)
Definition axis_fallbacks (ctx : CallCtx) (axis : string) : list (option (CallCtx * Operator)) :=
  [ Some (ctx, view3d_viewnumpad axis (Some false));
    Some (ctx, view3d_view_axis axis (Some false));
    Some (ctx, view3d_view_axis axis None) ].

Fixpoint all_but_last_failed (l : list Action) : bool :=
  match l with
  | [] => true
  | a :: l' => match l' with
               | [] => true
               | _ :: _ => negb (call_ok a) && all_but_last_failed l'
               end
  end.

(** The chain of lines 54-76 from the state the ORTHO assignment left. *)
Lemma axis_attempts_shape host win area region axis s r s' :
  (try_ (screen <- getattr_screen win ;;
         let ov := {| ov_window := win; ov_screen := screen;
                      ov_area := Some area; ov_region := Some region |} in
         enter_override host ov ;;
         try_ call host (ctx_temp ov) (view3d_viewnumpad axis (Some false))
         except_ (try_ call host (ctx_temp ov) (view3d_view_axis axis (Some false))
                  except_ call host (ctx_temp ov) (view3d_view_axis axis None)))
   except_
     (let ov := _override None (Some area) (Some region) in
      try_ call host (ctx_dict ov) (view3d_viewnumpad axis (Some false))
      except_ (try_ call host (ctx_dict ov) (view3d_view_axis axis (Some false))
               except_ (try_pass (call host (ctx_dict ov) (view3d_view_axis axis None)))))) s
  = (r, s') ->
  exists l, trace s' = trace s ++ l
            /\ all_but_last_failed l = true
            /\ (exists n screen,
                  (0 < n <= 6)%nat
                  /\ (map call_of l
                      = firstn n
                          (axis_fallbacks
                             (ctx_temp {| ov_window := win; ov_screen := screen;
                                          ov_area := Some area; ov_region := Some region |})
                             axis
                           ++ axis_fallbacks
                                (ctx_dict (_override None (Some area) (Some region))) axis)
                      \/ ((n <= 3)%nat
                          /\ map call_of l
                             = firstn n
                                 (axis_fallbacks
                                    (ctx_dict (_override None (Some area) (Some region)))
                                    axis))))
            /\ (Forall (fun a => call_ok a = false) l /\ world s' = world s
                \/ exists ctx op l0,
                     l = l0 ++ [act_call ctx op (world s) true]
                     /\ bpy_ops host ctx op (world s) = Some (world s')).
Proof.
  intros H; unfold_py; unfold _override in *.
  break_in H; inversion H; subst; clear H; simpl;
    repeat match goal with
           | E : (_, _) = (_, _) |- _ => inversion E; subst; clear E
           end; simpl.
  all: rewrite <- ?app_assoc; simpl.
  all: eexists; split; [ reflexivity | split; [ reflexivity | split ] ].
  all: try (let go n :=
                 first [ exists n; eexists; split; [ lia | ]; left; reflexivity
                       | exists n; exists (@None ScreenRef); split; [ lia | ];
                         right; split; [ lia | reflexivity ] ] in
            first [ go 1%nat | go 2%nat | go 3%nat | go 4%nat | go 5%nat | go 6%nat ]).
  all: first [ left; split; [ repeat constructor | reflexivity ]
             | right; eexists; eexists;
               first [ exists []; split; [ reflexivity | eassumption ]
                     | eexists [_]; split; [ reflexivity | eassumption ]
                     | eexists [_; _]; split; [ reflexivity | eassumption ]
                     | eexists [_; _; _]; split; [ reflexivity | eassumption ]
                     | eexists [_; _; _; _]; split; [ reflexivity | eassumption ]
                     | eexists [_; _; _; _; _]; split; [ reflexivity | eassumption ] ] ].
Qed.

(** The calls of one [_apply_view_axis]. *)
Lemma apply_view_axis_shape host win area region axis s r s' :
  _apply_view_axis host win area region axis s = (r, s') ->
  r = Return tt
  /\ exists l,
       trace s' = trace s ++ l
       /\ all_but_last_failed l = true
       /\ exists n screen,
            (0 < n <= 6)%nat
            /\ (map call_of l
                = firstn n
                    (axis_fallbacks
                       (ctx_temp {| ov_window := win; ov_screen := screen;
                                    ov_area := Some area; ov_region := Some region |})
                       axis
                     ++ axis_fallbacks (ctx_dict (_override None (Some area) (Some region)))
                          axis)
                \/ ((n <= 3)%nat
                    /\ map call_of l
                       = firstn n
                           (axis_fallbacks
                              (ctx_dict (_override None (Some area) (Some region))) axis))).
Proof.
  intros H.
  pose proof (apply_view_axis_spec _ _ _ _ _ _ _ _ H) as [-> _].
  split; [ reflexivity | ].
  unfold _apply_view_axis in H.
  apply bind_Return_inv in H; destruct H as (u1 & s1 & H1 & H).
  apply force_ortho_spec in H1; destruct H1 as [T1 _].
  apply bind_Return_inv in H; destruct H as (u2 & s2 & H2 & H).
  apply axis_attempts_shape in H2; destruct H2 as (l & T2 & Hl & Hn & _).
  exists l; split; [ | split; [ exact Hl | exact Hn ] ].
  rewrite <- T1, <- T2.
  eapply silent_trace; [ | exact H ].
  runs_done.
Qed.

(** X3.  [_apply_view_axis] never raises.  It calls the host between one and
    six times: [viewnumpad], [view_axis] with [align_active=False], [view_axis]
    without it, first under [temp_override] and, when the override is refused
    or all three raise, again with the dictionary [_override(None, area,
    region)].  Every call but the last one raised: the first call that returns
    ends the chain. *)
Theorem X3_axis_fallback_chain host win area region axis s :
  fst (_apply_view_axis host win area region axis s) = Return tt
  /\ exists l,
       trace (snd (_apply_view_axis host win area region axis s)) = trace s ++ l
       /\ all_but_last_failed l = true
       /\ exists n screen,
            (0 < n <= 6)%nat
            /\ (map call_of l
                = firstn n
                    (axis_fallbacks
                       (ctx_temp {| ov_window := win; ov_screen := screen;
                                    ov_area := Some area; ov_region := Some region |})
                       axis
                     ++ axis_fallbacks (ctx_dict (_override None (Some area) (Some region)))
                          axis)
                \/ ((n <= 3)%nat
                    /\ map call_of l
                       = firstn n
                           (axis_fallbacks
                              (ctx_dict (_override None (Some area) (Some region))) axis))).
Proof.
  destruct (_apply_view_axis host win area region axis s) as [r s'] eqn:H; simpl.
  destruct (apply_view_axis_shape _ _ _ _ _ _ _ _ H) as [-> Hl].
  split; [ reflexivity | exact Hl ].
Qed.

(** ** What [_apply_view_axis] itself changes *)

(** Two worlds with the same objects behind every reference. *)
Definition same_world (w w' : World) : Prop :=
  (forall r, windows w r = windows w' r)
  /\ (forall r, screens w r = screens w' r)
  /\ (forall a, areas w a = areas w' a)
  /\ (forall sp, spaces w sp = spaces w' sp)
  /\ context w = context w'
  /\ persistent w = persistent w'.

Lemma same_world_refl w : same_world w w.
Proof. repeat split. Qed.

(** Line 51: [area.spaces.active.region_3d.view_perspective = 'ORTHO'], or
    nothing when a link of the chain is missing. *)
Definition force_ortho (w : World) (area : AreaRef) : World :=
  match areas w area with
  | Some o =>
      match area_spaces_active o with
      | Some sp =>
          match do_assign (assign_space sp (attr_region_3d (attr_view_perspective ORTHO))) w with
          | Some w' => w'
          | None => w
          end
      | None => w
      end
  | None => w
  end.

Lemma force_ortho_run area s r s' :
  try_pass (sp <- spaces_active area ;;
            setattr (assign_space sp (attr_region_3d (attr_view_perspective ORTHO)))) s
  = (r, s') ->
  world s' = force_ortho (world s) area.
Proof.
  intros H; unfold_py; unfold force_ortho.
  break_in H; inversion H; subst; clear H; simpl;
    repeat match goal with
           | E : Some _ = Some _ |- _ => inversion E; subst; clear E
           | E : (_, _) = (_, _) |- _ => inversion E; subst; clear E
           end; simpl;
    repeat match goal with
           | E : _ = _ |- _ => rewrite E
           end; reflexivity.
Qed.

(** Lines 78-82: writing back the rotation just read changes nothing. *)
Lemma lock_rotation_spec area s r s' :
  try_pass (sp <- spaces_active area ;; so <- the_space sp ;;
            r <- not_None (space_region_3d so) ;;
            let q := view_rotation r in
            sp' <- spaces_active area ;;
            setattr (assign_space sp' (attr_region_3d (attr_view_rotation q)))) s
  = (r, s') ->
  same_world (world s') (world s).
Proof.
  intros H; unfold_py; unfold do_assign, space_setattr in H.
  break_in H; inversion H; subst; clear H; simpl;
    repeat match goal with
           | E : Some _ = Some _ |- _ => inversion E; subst; clear E
           | E : (_, _) = (_, _) |- _ => inversion E; subst; clear E
           end; simpl; try apply same_world_refl.
  all: repeat match goal with
              | E1 : ?x = Some _, E2 : ?x = Some _ |- _ =>
                  rewrite E1 in E2; inversion E2; subst; clear E2
              end.
  all: repeat split; simpl.
  all: intros sp0; unfold store_set; destruct (Nat.eqb sp0 _) eqn:En; [ | reflexivity ].
  all: apply Nat.eqb_eq in En; subst sp0.
  all: match goal with
       | E : spaces _ _ = Some ?so, E' : space_region_3d ?so = Some ?r |- _ =>
           rewrite E; destruct so; simpl in *; subst; destruct r; reflexivity
       end.
Qed.

(** X4.  Apart from what the host's operator does, [_apply_view_axis] changes
    one thing: the view's perspective, set to ORTHO before the first call.
    Every call is made in that world; when all of them raise the function
    leaves that world, and otherwise it leaves the world the call that
    returned produced: writing the rotation back changes nothing. *)
Theorem X4_apply_view_axis_own_effect host win area region axis s :
  let s' := snd (_apply_view_axis host win area region axis s) in
  let w1 := force_ortho (world s) area in
  exists l,
    trace s' = trace s ++ l
    /\ Forall (fun a => exists ctx op ok, a = act_call ctx op w1 ok) l
    /\ ((Forall (fun a => call_ok a = false) l /\ same_world (world s') w1)
        \/ exists ctx op l0 w2,
             l = l0 ++ [act_call ctx op w1 true]
             /\ bpy_ops host ctx op w1 = Some w2
             /\ same_world (world s') w2).
Proof.
  destruct (_apply_view_axis host win area region axis s) as [r s'] eqn:H; simpl.
  pose proof (apply_view_axis_spec _ _ _ _ _ _ _ _ H) as [-> _].
  unfold _apply_view_axis in H.
  apply bind_Return_inv in H; destruct H as (u1 & s1 & H1 & H).
  pose proof (force_ortho_run _ _ _ _ H1) as W1.
  apply force_ortho_spec in H1; destruct H1 as [T1 _].
  apply bind_Return_inv in H; destruct H as (u2 & s2 & H2 & H).
  pose proof (axis_attempts_spec _ _ _ _ _ _ _ _ H2) as [_ (l' & T2' & _ & F2)].
  apply axis_attempts_shape in H2; destruct H2 as (l & T2 & _ & _ & Hw).
  assert (l' = l) by (rewrite T2 in T2'; apply app_inv_head in T2'; congruence); subst l'.
  pose proof (lock_rotation_spec _ _ _ _ H) as Hlock.
  assert (T3 : trace s' = trace s2) by (eapply silent_trace; [ | exact H ]; runs_done).
  rewrite W1 in *.
  exists l; split; [ congruence | split ].
  - eapply Forall_impl; [ | exact F2 ].
    intros a (ctx & op & ok & -> & _); eauto.
  - destruct Hw as [[Hf Hw] | (ctx & op & l0 & -> & Hop)].
    + left; split; [ exact Hf | ]. rewrite <- Hw; exact Hlock.
    + right; exists ctx, op, l0, (world s2); auto.
Qed.

Lemma apply_view_axis_calls host win area region axis s r s' :
  _apply_view_axis host win area region axis s = (r, s') ->
  r = Return tt
  /\ exists l,
       trace s' = trace s ++ l
       /\ Forall (axis_request area axis) l
       /\ (1 <= List.length l <= 6)%nat.
Proof.
  intros H.
  destruct (apply_view_axis_shape _ _ _ _ _ _ _ _ H)
    as (-> & l & T & _ & n & screen & Hn & Hmap).
  split; [ reflexivity | ].
  apply apply_view_axis_spec in H; destruct H as (_ & l' & T' & _ & F).
  assert (l' = l) by (rewrite T in T'; apply app_inv_head in T'; congruence); subst l'.
  exists l; split; [ exact T | split; [ exact F | ] ].
  assert (Hlen : List.length l = n).
  { rewrite <- (length_map call_of l).
    destruct Hmap as [-> | [Hn3 ->]]; rewrite length_firstn; simpl; lia. }
  lia.
Qed.

(** ** [_configure_silhouette_area] on an area that is gone *)

(** X5.  [_configure_silhouette_area] raises exactly when the area no longer
    exists (the unguarded [area.spaces.active]), and then it has called
    nothing and assigned nothing; on an existing area it returns, whatever
    the host does. *)
Theorem X5_configure_raises_only_without_area host win area region axis s :
  (areas (world s) area = None ->
   _configure_silhouette_area host win area region axis s = (Raise, s))
  /\ (areas (world s) area <> None ->
      fst (_configure_silhouette_area host win area region axis s) = Return tt).
Proof.
  split.
  - intros E; unfold _configure_silhouette_area.
    assert (T : forall x, try_pass (setattr (assign_area area x)) s = (Return tt, s)).
    { intros x; unfold try_pass, try_except, setattr, do_assign; rewrite E; reflexivity. }
    rewrite (run_bind _ _ _ _ _ (T _)), (run_bind _ _ _ _ _ (T _)).
    unfold bind at 1, getattr_area, the_area, get_world, bind, not_None, ret, raise.
    rewrite E; reflexivity.
  - intros E; destruct (areas (world s) area) as [ao|] eqn:Ea; [ clear E | congruence ].
    unfold _configure_silhouette_area.
    destruct (set_area_block area (attr_type VIEW_3D) ao s Ea) as (s1 & R1 & Ea1 & _).
    rewrite (run_bind _ _ _ _ _ R1).
    destruct (set_area_block area (attr_ui_type VIEW_3D) _ s1 Ea1) as (s2 & R2 & Ea2 & _).
    rewrite (run_bind _ _ _ _ _ R2).
    rewrite (run_bind _ _ _ _ _ (run_getattr_area area_spaces_active area _ s2 Ea2)).
    match goal with |- fst (?m s2) = _ => destruct (m s2) as [r s'] eqn:H end; simpl.
    apply bind_inv in H; destruct H as [(u3 & s3 & H3 & H) | [H3 _]];
      [ | apply try_pass_inv in H3; destruct H3; discriminate ].
    apply bind_inv in H; destruct H as [(u4 & s4 & H4 & H) | [H4 _]];
      [ | apply try_pass_inv in H4; destruct H4; discriminate ].
    apply bind_inv in H; destruct H as [(u5 & s5 & H5 & H) | [H5 _]];
      [ | apply apply_view_axis_spec in H5; destruct H5; discriminate ].
    apply bind_inv in H; destruct H as [(u6 & s6 & H6 & H) | [H6 _]];
      [ | apply try_pass_inv in H6; destruct H6; discriminate ].
    apply bind_inv in H; destruct H as [(u7 & s7 & H7 & H) | [H7 _]];
      [ | apply apply_view_axis_spec in H7; destruct H7; discriminate ].
    apply try_pass_inv in H; tauto.
Qed.

(** ** What the new-window operator touches (lines 225-245) *)

(** Assignments to the window [nw] and to a status bar. *)
Definition new_window_assign (nw : option WindowRef) (g : Assign) : Prop :=
  match g with
  | assign_window r _ => Some r = nw
  | assign_show_statusbar _ b => b = false
  | _ => False
  end.

(** World [w] is [w1] up to the attributes of window [nw] and the status bars. *)
Definition only_new_window_changed (nw : option WindowRef) (w1 w : World) : Prop :=
  (forall a, areas w a = areas w1 a)
  /\ (forall sp, spaces w sp = spaces w1 sp)
  /\ context w = context w1
  /\ persistent w = persistent w1
  /\ (forall r, Some r <> nw -> windows w r = windows w1 r)
  /\ (forall r, option_map window_screen (windows w r) = option_map window_screen (windows w1 r))
  /\ (forall scr, option_map screen_areas (screens w scr)
                  = option_map screen_areas (screens w1 scr))
  /\ (forall scr, screens w scr = screens w1 scr
                  \/ option_map show_statusbar (screens w scr) = Some false).

Lemma window_setattr_screen x o : window_screen (window_setattr x o) = window_screen o.
Proof. destruct x; reflexivity. Qed.

Lemma StableG_only_new_window host nw w1 :
  StableG host no_call (new_window_assign nw) (only_new_window_changed nw w1).
Proof.
  split; [ intros ctx op w w' [] | ].
  intros g w w' Hg H (Ha & Hs & Hc & Hp & Hw & Hws & Hsa & Hsb).
  destruct g as [a x|sp x|r x|scr b]; simpl in Hg; try contradiction; simpl in H.
  - destruct (windows w r) as [o|] eqn:Eo; inversion H; subst w'; clear H.
    unfold only_new_window_changed; simpl; repeat split; auto.
    + intros r' Hr'; unfold store_set.
      destruct (Nat.eqb_spec r' r) as [-> | _]; [ congruence | auto ].
    + intros r'; unfold store_set.
      destruct (Nat.eqb_spec r' r) as [-> | _]; [ | auto ].
      rewrite <- Hws, Eo; simpl; rewrite window_setattr_screen; reflexivity.
  - destruct (screens w scr) as [o|] eqn:Eo; inversion H; subst w'; clear H.
    unfold only_new_window_changed; simpl; repeat split; auto.
    + intros scr'; unfold store_set.
      destruct (Nat.eqb_spec scr' scr) as [-> | _]; [ | auto ].
      rewrite <- Hsa, Eo; reflexivity.
    + intros scr'; unfold store_set.
      destruct (Nat.eqb_spec scr' scr) as [-> | _]; [ | auto ].
      right; subst b; reflexivity.
Qed.

Section NewWindowRuns.

Variable host : Host.
Variable nw : option WindowRef.
Variable I : World -> Prop.
Hypothesis HS : StableG host no_call (new_window_assign nw) I.

Lemma runs_setattr_new_window x :
  runs no_call no_action I (setattr_window host nw x).
Proof.
  destruct nw as [r|] eqn:E.
  - intros s r0 s' H.
    change ((if window_writable host r x (world s) then setattr (assign_window r x)
             else raise) s = (r0, s')) in H.
    destruct (window_writable host r x (world s)).
    + revert s r0 s' H.
      apply (runs_setattr host no_call (new_window_assign (Some r)) no_action I HS).
      reflexivity.
    + apply raise_inv in H; destruct H as [-> ->].
      split; [ exists []; rewrite app_nil_r; auto | auto ].
  - apply runs_pure; intros s r0 s' H; inversion H; reflexivity.
Qed.

Lemma runs_set_show_statusbar win : runs no_call no_action I (set_show_statusbar win false).
Proof. unfold set_show_statusbar; runs_done. Qed.

Lemma runs_size_block orig :
  runs no_call no_action I
    (try_pass (ow <- getattr_window window_width orig 1600 ;;
               oh <- getattr_window window_height orig 900 ;;
               let target_w := Z.max 480 (int_mul_quarter ow) in
               let target_h := Z.max 360 (int_mul_quarter oh) in
               setattr_window host nw (attr_width target_w) ;;
               setattr_window host nw (attr_height target_h) ;;
               x <- getattr_window window_x orig 100 ;;
               setattr_window host nw (attr_x (x + 80)%Z) ;;
               y <- getattr_window window_y orig 100 ;;
               setattr_window host nw (attr_y (y - 80)%Z) ;;
               set_show_statusbar nw false)).
Proof.
  apply runs_try_pass.
  repeat first [ apply runs_setattr_new_window
               | apply runs_set_show_statusbar
               | apply runs_bind; [ | intros ]
               | runs_pure_tac ].
Qed.

End NewWindowRuns.

Lemma run_set_show_statusbar (r : WindowRef) wo scr so s :
  windows (world s) r = Some wo -> window_screen wo = Some scr ->
  screens (world s) scr = Some so ->
  exists s', try_pass (set_show_statusbar (Some r) false) s = (Return tt, s')
             /\ screens (world s') scr
                = Some {| screen_areas := screen_areas so; show_statusbar := false |}
             /\ trace s' = trace s.
Proof.
  intros Ew Es Eso.
  unfold try_pass, try_except, set_show_statusbar, the_window, get_world, bind, not_None, ret,
    setattr, do_assign.
  rewrite Ew, Es, Eso. eexists; split; [ reflexivity | ]; simpl.
  rewrite store_set_eq; auto.
Qed.

(** X6.  When [wm.window_new] has returned world [w1], the operator changes
    nothing in it but attributes of the window that is then current and
    status bars: areas, spaces, context and the host's persistent state are
    those of [w1], every other window is as in [w1], every window keeps its
    screen and every screen its areas; and the status bar of the new window's
    screen ends hidden. *)
Theorem X6_new_window_frame host s w1 :
  bpy_ops host ctx_current wm_window_new (world s) = Some w1 ->
  let s' := snd (VIEW3D_OT_open_silhouette_view_dual.execute host s) in
  let nw := context_window (context w1) in
  only_new_window_changed nw w1 (world s')
  /\ (forall r wo scr so,
        nw = Some r -> windows w1 r = Some wo -> window_screen wo = Some scr ->
        screens w1 scr = Some so ->
        option_map show_statusbar (screens (world s') scr) = Some false).
Proof.
  intros Hnew; cbv zeta.
  unfold VIEW3D_OT_open_silhouette_view_dual.execute.
  rewrite (run_bind _ _ _ _ _ (run_get_world s)).
  set (s1 := after_call ctx_current wm_window_new w1 s).
  assert (T : (try_ (call host ctx_current wm_window_new ;; ret false)
               except_ (report ERROR "Failed to open new window: " ;; ret true)) s
              = (Return false, s1)).
  { apply run_try_Return. rewrite (run_bind _ _ _ _ _ (run_call _ _ _ _ _ Hnew)). reflexivity. }
  rewrite (run_bind _ _ _ _ _ T). cbv iota.
  rewrite (run_bind _ _ _ _ _ (run_get_world s1)).
  change (world s1) with w1.
  set (nw := context_window (context w1)).
  pose proof (StableG_only_new_window host nw w1) as HS.
  assert (I1 : only_new_window_changed nw w1 (world s1)).
  { unfold only_new_window_changed; simpl; repeat split; auto. }
  match goal with |- context [bind (try_pass ?m) _ s1] =>
    destruct (try_pass m s1) as [r2 s2] eqn:E2 end.
  pose proof (runs_keeps _ _ _ _ _ _ _ (runs_size_block host nw _ HS _) E2 I1) as I2.
  apply try_pass_inv in E2 as E2'; destruct E2' as [-> _].
  rewrite (run_bind _ _ _ _ _ E2).
  match goal with |- context [bind (try_pass ?m) _ s2] =>
    destruct (try_pass m s2) as [r3 s3] eqn:E3 end.
  assert (I3 : only_new_window_changed nw w1 (world s3)).
  { eapply (runs_keeps no_call no_action); [ | exact E3 | exact I2 ].
    apply runs_try_pass. eapply runs_set_show_statusbar; exact HS. }
  apply try_pass_inv in E3 as E3'; destruct E3' as [-> _].
  rewrite (run_bind _ _ _ _ _ E3).
  match goal with |- context [bind (try_pass ?m) _ s3] =>
    destruct (try_pass m s3) as [r4 s4] eqn:E4 end.
  assert (W4 : world s4 = world s3).
  { unfold try_pass, try_except, register_timer, ret in E4.
    destruct (timers_register host _ _ (world s3)); inversion E4; reflexivity. }
  apply try_pass_inv in E4 as E4'; destruct E4' as [-> _].
  rewrite (run_bind _ _ _ _ _ E4). simpl. rewrite W4.
  split; [ exact I3 | ].
  intros r wo scr so Enw Ew Es Eso.
  destruct I2 as (_ & _ & _ & _ & _ & Hws & Hsa & _).
  pose proof (Hws r) as Hr; rewrite Ew in Hr; simpl in Hr.
  destruct (windows (world s2) r) as [wo2|] eqn:Ew2; [ | discriminate ].
  simpl in Hr; inversion Hr as [Hscr]; rewrite Es in Hscr.
  pose proof (Hsa scr) as Hs; rewrite Eso in Hs; simpl in Hs.
  destruct (screens (world s2) scr) as [so2|] eqn:Eso2; [ | discriminate ].
  destruct (run_set_show_statusbar r wo2 scr so2 s2 Ew2 Hscr Eso2) as (s3' & R3 & K & _).
  rewrite Enw in E3.
  assert (E : (Return tt, s3) = (Return tt, s3')) by (rewrite <- E3; exact R3).
  inversion E; subst s3'.
  rewrite K; reflexivity.
Qed.

Lemma X6_witness :
  only_new_window_changed (context_window (context (demo_window_new demo_world)))
    (demo_window_new demo_world)
    (world (snd (VIEW3D_OT_open_silhouette_view_dual.execute demo_host demo_state)))
  /\ (forall r wo scr so,
        context_window (context (demo_window_new demo_world)) = Some r ->
        windows (demo_window_new demo_world) r = Some wo -> window_screen wo = Some scr ->
        screens (demo_window_new demo_world) scr = Some so ->
        option_map show_statusbar
          (screens (world (snd (VIEW3D_OT_open_silhouette_view_dual.execute demo_host
                                  demo_state))) scr) = Some false).
Proof.
  exact (X6_new_window_frame demo_host demo_state (demo_window_new demo_world) eq_refl).
Defined.

(** ** The end of [_deferred_setup] (lines 290-312) *)









(** ** How the split-current operator ends (lines 340-456) *)

(** No assignment at all. *)
Definition no_assign (g : Assign) : Prop := False.

(** An action that is not a report. *)
Definition quiet_action (a : Action) : Prop := ~ is_report a.

(** How a step of an operator ends: the operator goes on, it returns
    [{'CANCELLED'}], or it returns otherwise. *)
Inductive Ending := going | cancel | done.

Section Endings.

Variable host : Host.

(** From [s] to [s1] the operator has only called [screen.area_split]: no
    report, no timer, no assignment. *)
Definition only_splits (s s1 : State) : Prop :=
  (exists l0, trace s1 = trace s ++ l0 /\ Forall (allowed split_call no_action) l0)
  /\ (forall I, StableG host split_call no_assign I -> I (world s) -> I (world s1)).

(** ... and then reported one error. *)
Definition cancelled_run (s s' : State) : Prop :=
  exists s1 msg, only_splits s s1 /\ s' = with_action (act_report ERROR msg) s1.

(** From [s] to [s'] nothing was reported. *)
Definition unreported_run (s s' : State) : Prop :=
  exists l, trace s' = trace s ++ l /\ Forall quiet_action l.

Definition ends {A} (c : A -> Ending) (m : Py A) : Prop :=
  forall s r s', m s = (r, s') ->
    match r with
    | Return a =>
        match c a with
        | going => only_splits s s'
        | cancel => cancelled_run s s'
        | done => unreported_run s s'
        end
    | Raise => unreported_run s s'
    end.

Lemma only_splits_refl s : only_splits s s.
Proof. split; [ exists []; rewrite app_nil_r; auto | auto ]. Qed.

Lemma only_splits_trans s s1 s2 : only_splits s s1 -> only_splits s1 s2 -> only_splits s s2.
Proof.
  intros [(l1 & T1 & F1) K1] [(l2 & T2 & F2) K2]; split.
  - exists (l1 ++ l2); split; [ rewrite T2, T1, app_assoc; reflexivity | apply Forall_app; auto ].
  - intros I HS Hi; apply (K2 I HS), (K1 I HS), Hi.
Qed.

Lemma only_splits_unreported s s1 : only_splits s s1 -> unreported_run s s1.
Proof.
  intros [(l & T & F) _]; exists l; split; [ exact T | ].
  eapply Forall_impl; [ | exact F ].
  intros [ctx op pre ok| |]; simpl; unfold quiet_action; simpl; tauto.
Qed.

Lemma unreported_after_splits s s1 s2 :
  only_splits s s1 -> unreported_run s1 s2 -> unreported_run s s2.
Proof.
  intros H1 (l2 & T2 & F2); apply only_splits_unreported in H1; destruct H1 as (l1 & T1 & F1).
  exists (l1 ++ l2); split; [ rewrite T2, T1, app_assoc; reflexivity | apply Forall_app; auto ].
Qed.

Lemma cancelled_after_splits s s1 s2 :
  only_splits s s1 -> cancelled_run s1 s2 -> cancelled_run s s2.
Proof.
  intros H1 (s3 & msg & H3 & ->); exists s3, msg; split; [ | reflexivity ].
  eapply only_splits_trans; eauto.
Qed.

Lemma runs_only_splits {A} (m : Py A) s r s' :
  (forall I, StableG host split_call no_assign I -> runs split_call no_action I m) ->
  m s = (r, s') -> only_splits s s'.
Proof.
  intros Hm H; split.
  - assert (HS : StableG host split_call no_assign (fun _ => True)) by (split; auto).
    exact (proj1 (Hm _ HS _ _ _ H)).
  - intros I HS; exact (proj2 (Hm _ HS _ _ _ H)).
Qed.

Lemma ends_bind {A B} (c1 : A -> Ending) (c : B -> Ending) (m : Py A) (k : A -> Py B) :
  ends c1 m ->
  (forall a, c1 a = going -> ends c (k a)) ->
  (forall a, c1 a <> going -> exists v, (forall s, k a s = (Return v, s)) /\ c v = c1 a) ->
  ends c (bind m k).
Proof.
  intros Hm Hgo Hstop s r s' H.
  apply bind_inv in H; destruct H as [(a & s1 & H1 & H) | [H1 ->]].
  - pose proof (Hm _ _ _ H1) as E1; simpl in E1.
    destruct (c1 a) eqn:Ec.
    + pose proof (Hgo a Ec _ _ _ H) as E2.
      destruct r as [b|]; [ destruct (c b) | ];
        eauto using only_splits_trans, cancelled_after_splits, unreported_after_splits.
    + destruct (Hstop a) as (v & Hk & Ev); [ congruence | ].
      rewrite Hk in H; inversion H; subst; rewrite Ev, Ec; exact E1.
    + destruct (Hstop a) as (v & Hk & Ev); [ congruence | ].
      rewrite Hk in H; inversion H; subst; rewrite Ev, Ec; exact E1.
  - exact (Hm _ _ _ H1).
Qed.

Lemma ends_going {A} (m : Py A) :
  (forall I, StableG host split_call no_assign I -> runs split_call no_action I m) ->
  ends (fun _ => going) m.
Proof.
  intros Hm s r s' H; pose proof (runs_only_splits _ _ _ _ Hm H) as E.
  destruct r; [ exact E | apply only_splits_unreported; exact E ].
Qed.

Lemma ends_bind_going {A B} (c : B -> Ending) (m : Py A) (k : A -> Py B) :
  (forall I, StableG host split_call no_assign I -> runs split_call no_action I m) ->
  (forall a, ends c (k a)) ->
  ends c (bind m k).
Proof.
  intros Hm Hk; apply (ends_bind (fun _ => going)); auto using ends_going.
  intros a Ha; congruence.
Qed.

Lemma ends_try {A} (c : A -> Ending) (m h : Py A) :
  (forall I, StableG host split_call no_assign I -> runs split_call no_action I m) ->
  returns (fun a => c a = going) m ->
  ends c h ->
  ends c (try_except m h).
Proof.
  intros Hm Hr Hh s r s' H.
  apply try_except_inv in H; destruct H as [(a & H & ->) | (s1 & H & H')].
  - rewrite (Hr _ _ _ H). eapply runs_only_splits; eauto.
  - pose proof (runs_only_splits _ _ _ _ Hm H) as E1.
    pose proof (Hh _ _ _ H') as E2.
    destruct r as [b|]; [ destruct (c b) | ];
      eauto using only_splits_trans, cancelled_after_splits, unreported_after_splits.
Qed.

Lemma ends_report {A} (c : A -> Ending) msg (v : A) :
  c v = cancel -> ends c (report ERROR msg ;; ret v).
Proof.
  intros Hc s r s' H. inversion H; subst; clear H. rewrite Hc.
  exists s, msg; split; [ apply only_splits_refl | reflexivity ].
Qed.

Lemma ends_ret_done {A} (c : A -> Ending) (v : A) : c v = done -> ends c (ret v).
Proof.
  intros Hc s r s' H; inversion H; subst; rewrite Hc.
  exists []; rewrite app_nil_r; auto.
Qed.

Lemma ends_raise {A} (c : A -> Ending) : ends c (@raise A).
Proof. intros s r s' H; inversion H; subst. exists []; rewrite app_nil_r; auto. Qed.

Lemma ends_done {A} (c : A -> Ending) (m : Py A) :
  runs any_call quiet_action (fun _ => True) m ->
  returns (fun a => c a = done) m ->
  ends c m.
Proof.
  intros Hm Hr s r s' H.
  assert (U : unreported_run s s').
  { destruct (Hm _ _ _ H) as [(l & T & F) _]; exists l; split; [ exact T | ].
    eapply Forall_impl; [ | exact F ].
    intros [ctx op pre ok| |]; simpl; unfold quiet_action; simpl; tauto. }
  destruct r as [a|]; [ rewrite (Hr _ _ _ H) | ]; exact U.
Qed.

End Endings.

(** How the operator's result is classified. *)
Definition ending_of (r : OperatorResult) : Ending :=
  match r with CANCELLED => cancel | FINISHED => done end.

(** ... and the result of a guarded split: [None] lets the operator go on. *)
Definition ending_of_split (o : option OperatorResult) : Ending :=
  match o with None => going | Some r => ending_of r end.

Ltac splits_only :=
  let I := fresh "I" in let HS := fresh "HS" in
  intros I HS; solve [ runs_done ].

Ltac ends_handlers :=
  repeat first [ apply ends_report; reflexivity
               | apply ends_try; [ splits_only | returns_tac; reflexivity | idtac ] ].

Ltac ends_go_on :=
  let a := fresh "a" in let Ha := fresh "Ha" in
  intros a Ha; destruct a as [[]|]; try discriminate Ha.

Ltac ends_stop :=
  let a := fresh "a" in let Ha := fresh "Ha" in
  intros a Ha; destruct a as [[]|]; try (exfalso; apply Ha; reflexivity);
  eexists; (split; [ intros; reflexivity | reflexivity ]).

Ltac ends_guarded_split :=
  apply (ends_bind _ ending_of_split); [ ends_handlers | ends_go_on | ends_stop ].

Ltac ends_step :=
  lazymatch goal with
  | |- ends _ _ _ =>
      first
        [ apply ends_report; reflexivity
        | apply ends_ret_done; reflexivity
        | apply ends_raise
        | apply ends_bind_going; [ splits_only | intros ]
        | ends_guarded_split
        | match goal with
          | |- ends _ _ (match ?x with _ => _ end) => destruct x
          | |- ends _ _ (if ?x then _ else _) => destruct x
          | |- ends _ _ (let (_, _) := ?x in _) => destruct x
          end ]
  end.

Lemma split_execute_ends host :
  ends host ending_of (VIEW3D_OT_open_silhouette_split_current.execute host).
Proof.
  unfold VIEW3D_OT_open_silhouette_split_current.execute.
  repeat ends_step.
  all: apply ends_done;
    [ unfold _configure_silhouette_area, _apply_view_axis, _override, hide_ui, setattr_space;
      pose proof (Stable_True_any host any_call) as HS;
      runs_tac; first [ exact Logic.I | reflexivity | intros [] ]
    | returns_tac; reflexivity ].
Qed.

(** X8.  The split-current operator reports every cancellation and nothing
    else: a run that returns [{'CANCELLED'}] has called only
    [screen.area_split], has assigned no attribute, and ends with exactly one
    ERROR report; a run that returns [{'FINISHED'}] or lets an exception
    escape has reported nothing. *)
Theorem X8_split_current_reports_every_cancel host s :
  match VIEW3D_OT_open_silhouette_split_current.execute host s with
  | (Return CANCELLED, s') => cancelled_run host s s'
  | (_, s') => unreported_run s s'
  end.
Proof.
  destruct (VIEW3D_OT_open_silhouette_split_current.execute host s) as [r s'] eqn:H.
  apply split_execute_ends in H.
  destruct r as [[]|]; exact H.
Qed.

Lemma run_next_window_region area o s :
  areas (world s) area = Some o ->
  next_window_region area s = (Return (find is_WINDOW (area_regions o)), s).
Proof.
  intros E; unfold next_window_region.
  rewrite (run_bind _ _ _ _ _ (run_getattr_area area_regions area o s E)). reflexivity.
Qed.

(** X9.  Without a current area the split-current operator raises at its
    first line, and in an area without a WINDOW region it reports "No WINDOW
    region in current area." and returns [{'CANCELLED'}]; in both cases it has
    called nothing and changed nothing. *)
Theorem X9_split_current_without_area_or_region host s :
  (context_area (context (world s)) = None ->
   VIEW3D_OT_open_silhouette_split_current.execute host s = (Raise, s))
  /\ (forall area o,
        context_area (context (world s)) = Some area ->
        areas (world s) area = Some o ->
        find is_WINDOW (area_regions o) = None ->
        VIEW3D_OT_open_silhouette_split_current.execute host s
        = (Return CANCELLED,
           with_action (act_report ERROR "No WINDOW region in current area.") s)).
Proof.
  split.
  - intros E; unfold VIEW3D_OT_open_silhouette_split_current.execute.
    rewrite (run_bind _ _ _ _ _ (run_get_world s)). cbv zeta. rewrite E. reflexivity.
  - intros area o E Eo Hf; unfold VIEW3D_OT_open_silhouette_split_current.execute.
    rewrite (run_bind _ _ _ _ _ (run_get_world s)). cbv zeta. rewrite E.
    rewrite (run_bind (not_None (Some area)) _ s area s eq_refl).
    rewrite (run_bind _ _ _ _ _ (run_next_window_region area o s Eo)).
    rewrite Hf. reflexivity.
Qed.

(** X10.  When both attempts to split the current area raise, the second one
    made at the cursor [(x + max(1, int(width * 0.5)), y + max(1, int(height *
    0.5)))], the split-current operator reports "Failed to split current
    area" and returns [{'CANCELLED'}], leaving the world as it found it. *)
Theorem X10_split_current_when_no_split_works host s area o region scr so :
  context_area (context (world s)) = Some area ->
  areas (world s) area = Some o ->
  find is_WINDOW (area_regions o) = Some region ->
  context_screen (context (world s)) = Some scr ->
  screens (world s) scr = Some so ->
  bpy_ops host ctx_current (screen_area_split VERTICAL (Some 0.5%float) None) (world s) = None ->
  bpy_ops host ctx_current
    (screen_area_split VERTICAL None
       (Some ((area_x o + Z.max 1 (int_mul_half (area_width o)))%Z,
              (area_y o + Z.max 1 (int_mul_half (area_height o)))%Z))) (world s) = None ->
  exists s',
    VIEW3D_OT_open_silhouette_split_current.execute host s = (Return CANCELLED, s')
    /\ world s' = world s
    /\ trace s'
       = trace s
         ++ [ act_call ctx_current (screen_area_split VERTICAL (Some 0.5%float) None)
                (world s) false;
              act_call ctx_current
                (screen_area_split VERTICAL None
                   (Some ((area_x o + Z.max 1 (int_mul_half (area_width o)))%Z,
                          (area_y o + Z.max 1 (int_mul_half (area_height o)))%Z)))
                (world s) false;
              act_report ERROR "Failed to split current area: " ].
Proof.
  intros E Eo Hf Escr Eso H1 H2.
  unfold VIEW3D_OT_open_silhouette_split_current.execute.
  rewrite (run_bind _ _ _ _ _ (run_get_world s)). cbv zeta. rewrite E.
  rewrite (run_bind (not_None (Some area)) _ s area s eq_refl).
  rewrite (run_bind _ _ _ _ _ (run_next_window_region area o s Eo)).
  rewrite Hf, Escr.
  assert (L : list_screen_areas (Some scr) s = (Return (screen_areas so), s)).
  { unfold list_screen_areas, the_screen, get_world, bind, not_None, ret; rewrite Eso.
    reflexivity. }
  rewrite (run_bind _ _ _ _ _ L).
  rewrite (run_bind _ _ _ _ _ (run_getattr_area area_x area o s Eo)).
  eexists; split; [ | split ].
  - unfold bind at 1, try_except at 1, bind at 1, call at 1. rewrite H1.
    unfold try_except at 1.
    set (s1 := with_action _ s).
    assert (Eo1 : areas (world s1) area = Some o) by exact Eo.
    rewrite (run_bind _ _ _ _ _ (run_getattr_area area_x area o s1 Eo1)).
    rewrite (run_bind _ _ _ _ _ (run_getattr_area area_width area o s1 Eo1)).
    rewrite (run_bind _ _ _ _ _ (run_getattr_area area_y area o s1 Eo1)).
    rewrite (run_bind _ _ _ _ _ (run_getattr_area area_height area o s1 Eo1)).
    unfold bind at 1, call at 1. change (world s1) with (world s). rewrite H2.
    reflexivity.
  - reflexivity.
  - simpl. rewrite <- !app_assoc. reflexivity.
Qed.

Lemma X10_witness :
  exists s',
    VIEW3D_OT_open_silhouette_split_current.execute stuck_host demo_state
    = (Return CANCELLED, s')
    /\ world s' = world demo_state
    /\ trace s'
       = trace demo_state
         ++ [ act_call ctx_current (screen_area_split VERTICAL (Some 0.5%float) None)
                (world demo_state) false;
              act_call ctx_current
                (screen_area_split VERTICAL None
                   (Some ((area_x (demo_area 10%nat) + Z.max 1 (int_mul_half (area_width (demo_area 10%nat))))%Z,
                          (area_y (demo_area 10%nat)
                           + Z.max 1 (int_mul_half (area_height (demo_area 10%nat))))%Z)))
                (world demo_state) false;
              act_report ERROR "Failed to split current area: " ].
Proof.
  exact (X10_split_current_when_no_split_works stuck_host demo_state 10%nat (demo_area 10%nat)
           {| region_id := 1; region_type := WINDOW |} 1%nat
           {| screen_areas := [10%nat]; show_statusbar := true |}
           eq_refl eq_refl eq_refl eq_refl eq_refl eq_refl eq_refl).
Defined.

(** ** What [_post_fix] asks of the host (lines 421-450) *)

Lemma post_fix_calls host win left_top reg_top left_bottom reg_bottom s :
  exists l1 l2,
    trace (snd (VIEW3D_OT_open_silhouette_split_current._post_fix host win
                  left_top reg_top left_bottom reg_bottom s))
    = trace s ++ l1 ++ l2
    /\ Forall (axis_request left_top FRONT) l1
    /\ Forall (axis_request left_bottom RIGHT) l2
    /\ (1 <= List.length l1 <= 6)%nat
    /\ (1 <= List.length l2 <= 6)%nat.
Proof.
  unfold VIEW3D_OT_open_silhouette_split_current._post_fix.
  destruct (_apply_view_axis host win left_top reg_top FRONT s) as [r1 s1] eqn:H1.
  destruct (apply_view_axis_calls _ _ _ _ _ _ _ _ H1) as (-> & l1 & T1 & F1 & L1).
  destruct (_apply_view_axis host win left_bottom reg_bottom RIGHT s1) as [r2 s2] eqn:H2.
  destruct (apply_view_axis_calls _ _ _ _ _ _ _ _ H2) as (-> & l2 & T2 & F2 & L2).
  exists l1, l2; split; [ | auto ].
  match goal with |- trace (snd (bind (try_pass ?m) _ s)) = _ =>
    destruct (m s) as [r3 s3] eqn:H3;
    rewrite (run_bind _ _ _ _ _ (run_try_pass _ _ _ _ H3)) end.
  simpl.
  rewrite (run_bind _ _ _ _ _ H1), (run_bind _ _ _ _ _ H2) in H3.
  rewrite app_assoc, <- T1, <- T2.
  eapply silent_trace; [ | exact H3 ].
  unfold hide_ui, setattr_space. runs_done.
Qed.

(** X11.  Whatever the host does, [_post_fix] asks it only for the two axis
    presets: between one and six FRONT calls in the top area's context, then
    between one and six RIGHT calls in the bottom area's; it splits nothing,
    frames nothing, reports nothing and registers no timer. *)
Theorem X11_post_fix_only_reapplies_axes host win left_top reg_top left_bottom reg_bottom s :
  exists l1 l2,
    trace (snd (VIEW3D_OT_open_silhouette_split_current._post_fix host win
                  left_top reg_top left_bottom reg_bottom s))
    = trace s ++ l1 ++ l2
    /\ Forall (axis_request left_top FRONT) l1
    /\ Forall (axis_request left_bottom RIGHT) l2
    /\ (1 <= List.length l1 <= 6)%nat
    /\ (1 <= List.length l2 <= 6)%nat.
Proof.
  destruct (post_fix_calls host win left_top reg_top left_bottom reg_bottom s)
    as (l1 & l2 & T & F1 & F2 & L1 & L2).
  exists l1, l2; repeat split; try assumption; lia.
Qed.

(** ** The timer a finished split registers *)

(** X12.  The only timer a finished run of the split-current operator
    registers is [_post_fix] after 0.05 seconds, for the two areas it has
    just configured; and whenever that timer runs, it asks for FRONT in the
    same top area and for RIGHT in the same bottom area and for nothing
    else. *)
Theorem X12_finished_split_and_its_timer host s s' :
  VIEW3D_OT_open_silhouette_split_current.execute host s = (Return FINISHED, s') ->
  exists top rt bottom rb l,
    trace s' = trace s ++ l
    /\ (exists a, In a l /\ axis_request top FRONT a)
    /\ (exists a, In a l /\ axis_request bottom RIGHT a)
    /\ (forall t f, In (act_timer t f) l ->
          t = timer_post_fix (context_window (context (world s))) top rt bottom rb
          /\ f = 0.05%float)
    /\ (forall s0, exists l1 l2,
          trace (snd (run_timer host
                        (timer_post_fix (context_window (context (world s))) top rt bottom rb)
                        s0))
          = trace s0 ++ l1 ++ l2
          /\ Forall (axis_request top FRONT) l1
          /\ Forall (axis_request bottom RIGHT) l2).
Proof.
  intros H; apply split_execute_inv in H.
  destruct H as (top & rt & bottom & rb & s1 & s2 & (l0 & T0 & F0) & _ & _ & _ & _ & Hc & _ & T).
  apply configure_pair_spec in Hc;
    destruct Hc as (l1 & T1 & F1 & (a1 & I1 & A1) & (a2 & I2 & A2) & _).
  assert (Hno : forall t f, ~ In (act_timer t f) (l0 ++ l1)).
  { intros t f Hin; apply in_app_or in Hin; destruct Hin as [Hin | Hin].
    - rewrite Forall_forall in F0; apply F0 in Hin; exact Hin.
    - rewrite Forall_forall in F1; apply F1 in Hin.
      destruct Hin as [[Hx | Hx] | [Hx | Hx]];
        first [ destruct Hx as (w & _ & ctx & op & ok & E & _); discriminate
              | destruct Hx as (ctx & op & pre & ok & E & _); discriminate ]. }
  assert (Hpost : forall s0, exists k1 k2,
             trace (snd (run_timer host
                           (timer_post_fix (context_window (context (world s))) top rt bottom rb)
                           s0))
             = trace s0 ++ k1 ++ k2
             /\ Forall (axis_request top FRONT) k1
             /\ Forall (axis_request bottom RIGHT) k2).
  { intros s0; simpl.
    destruct (post_fix_calls host (context_window (context (world s))) top rt bottom rb s0)
      as (k1 & k2 & Tk & Fk1 & Fk2 & _).
    exists k1, k2; auto. }
  destruct T as [T | T].
  - exists top, rt, bottom, rb, (l0 ++ l1).
    split; [ rewrite T, T1, T0, app_assoc; reflexivity | ].
    split; [ exists a1; split; auto; apply in_or_app; auto | ].
    split; [ exists a2; split; auto; apply in_or_app; auto | ].
    split; [ intros t f Hin; exfalso; exact (Hno t f Hin) | exact Hpost ].
  - exists top, rt, bottom, rb,
      ((l0 ++ l1) ++ [act_timer (timer_post_fix (context_window (context (world s)))
                                   top rt bottom rb) 0.05%float]).
    split; [ rewrite T, T1, T0, !app_assoc; reflexivity | ].
    split; [ exists a1; split; auto; apply in_or_app; left; apply in_or_app; auto | ].
    split; [ exists a2; split; auto; apply in_or_app; left; apply in_or_app; auto | ].
    split; [ | exact Hpost ].
    intros t f Hin; apply in_app_or in Hin; destruct Hin as [Hin | [E | []]].
    + exfalso; exact (Hno t f Hin).
    + inversion E; auto.
Qed.

Lemma X12_witness :
  exists top rt bottom rb l,
    trace (snd (VIEW3D_OT_open_silhouette_split_current.execute demo_host demo_state))
    = trace demo_state ++ l
    /\ (exists a, In a l /\ axis_request top FRONT a)
    /\ (exists a, In a l /\ axis_request bottom RIGHT a)
    /\ (forall t f, In (act_timer t f) l ->
          t = timer_post_fix (context_window (context (world demo_state))) top rt bottom rb
          /\ f = 0.05%float)
    /\ (forall s0, exists l1 l2,
          trace (snd (run_timer demo_host
                        (timer_post_fix (context_window (context (world demo_state)))
                           top rt bottom rb) s0))
          = trace s0 ++ l1 ++ l2
          /\ Forall (axis_request top FRONT) l1
          /\ Forall (axis_request bottom RIGHT) l2).
Proof.
  exact (X12_finished_split_and_its_timer demo_host demo_state _ demo_split_run).
Defined.

(** ** The timer the new-window operator registers (lines 316-322) *)

(** X13.  When [wm.window_new] returns, the new-window operator finishes
    having recorded that call and, after it, one timer if the host accepts it
    and nothing if it does not: the timer is [_deferred_setup] with first
    interval 0.05, closed over the window that was current right after
    [wm.window_new]. *)
Theorem X13_new_window_registers_one_timer host s w1 :
  bpy_ops host ctx_current wm_window_new (world s) = Some w1 ->
  let s' := snd (VIEW3D_OT_open_silhouette_view_dual.execute host s) in
  let t := timer_deferred_setup (context_window (context w1)) in
  fst (VIEW3D_OT_open_silhouette_view_dual.execute host s) = Return FINISHED
  /\ trace s'
     = trace s
       ++ act_call ctx_current wm_window_new (world s) true
          :: (if timers_register host t 0.05%float (world s')
              then [act_timer t 0.05%float]
              else [])
  /\ run_timer host t
     = VIEW3D_OT_open_silhouette_view_dual._deferred_setup host (context_window (context w1)).
Proof.
  intros Hnew; cbv zeta.
  unfold VIEW3D_OT_open_silhouette_view_dual.execute.
  rewrite (run_bind _ _ _ _ _ (run_get_world s)).
  set (s1 := after_call ctx_current wm_window_new w1 s).
  assert (T : (try_ (call host ctx_current wm_window_new ;; ret false)
               except_ (report ERROR "Failed to open new window: " ;; ret true)) s
              = (Return false, s1)).
  { apply run_try_Return. rewrite (run_bind _ _ _ _ _ (run_call _ _ _ _ _ Hnew)). reflexivity. }
  rewrite (run_bind _ _ _ _ _ T). cbv iota.
  rewrite (run_bind _ _ _ _ _ (run_get_world s1)).
  change (world s1) with w1.
  match goal with |- context [bind (try_pass ?m) _ s1] =>
    destruct (try_pass_Return m s1) as (s2 & E2) end.
  rewrite (run_bind _ _ _ _ _ E2).
  match goal with |- context [bind (try_pass ?m) _ s2] =>
    destruct (try_pass_Return m s2) as (s3 & E3) end.
  rewrite (run_bind _ _ _ _ _ E3).
  assert (T2 : trace s2 = trace s1).
  { eapply silent_trace; [ | exact E2 ].
    unfold setattr_window, set_show_statusbar; runs_done. }
  assert (T3 : trace s3 = trace s2).
  { eapply silent_trace; [ | exact E3 ].
    unfold set_show_statusbar; runs_done. }
  assert (E4 : exists s4,
             try_pass (register_timer host
                         (timer_deferred_setup (context_window (context w1))) 0.05%float) s3
             = (Return tt, s4)
             /\ world s4 = world s3
             /\ trace s4
                = trace s3
                  ++ (if timers_register host
                           (timer_deferred_setup (context_window (context w1))) 0.05%float
                           (world s3)
                      then [act_timer (timer_deferred_setup (context_window (context w1)))
                              0.05%float]
                      else [])).
  { unfold try_pass, try_except, register_timer, ret.
    destruct (timers_register host _ _ (world s3)); eexists; split; try reflexivity;
      simpl; rewrite ?app_nil_r; auto. }
  destruct E4 as (s4 & E4 & W4 & T4).
  rewrite (run_bind _ _ _ _ _ E4). simpl.
  split; [ reflexivity | split; [ | reflexivity ] ].
  rewrite T4, W4, T3, T2. unfold s1, after_call; simpl. rewrite <- app_assoc. reflexivity.
Qed.

Lemma X13_witness :
  fst (VIEW3D_OT_open_silhouette_view_dual.execute demo_host_no_timers demo_state)
  = Return FINISHED
  /\ trace (snd (VIEW3D_OT_open_silhouette_view_dual.execute demo_host_no_timers demo_state))
     = trace demo_state
       ++ act_call ctx_current wm_window_new (world demo_state) true
          :: (if timers_register demo_host_no_timers
                   (timer_deferred_setup (context_window (context (demo_window_new demo_world))))
                   0.05%float
                   (world (snd (VIEW3D_OT_open_silhouette_view_dual.execute
                                  demo_host_no_timers demo_state)))
              then [act_timer
                      (timer_deferred_setup
                         (context_window (context (demo_window_new demo_world))))
                      0.05%float]
              else [])
  /\ run_timer demo_host_no_timers
       (timer_deferred_setup (context_window (context (demo_window_new demo_world))))
     = VIEW3D_OT_open_silhouette_view_dual._deferred_setup demo_host_no_timers
         (context_window (context (demo_window_new demo_world))).
Proof.
  exact (X13_new_window_registers_one_timer demo_host_no_timers demo_state
           (demo_window_new demo_world) eq_refl).
Defined.

(** ** The menu entries and the operators' [poll] (lines 210-212, 332-338, 461-474) *)

(** X14.  Outside object mode the View menu is left as it is and both
    operators' [poll] are false; whenever one of the two [poll]s is true the
    View menu gets exactly one more entry, the Silhouette submenu, and that
    submenu adds exactly the two operators, so an enabled operator can always
    be reached. *)
Theorem X14_menu_follows_poll (s : State) (layout : list LayoutItem) :
  (context_mode (context (world s)) <> OBJECT ->
   draw_in_view_menu (world s) layout = layout
   /\ fst (VIEW3D_OT_open_silhouette_view_dual.poll s) = Return false
   /\ fst (VIEW3D_OT_open_silhouette_split_current.poll s) = Return false)
  /\ (fst (VIEW3D_OT_open_silhouette_view_dual.poll s) = Return true
      \/ fst (VIEW3D_OT_open_silhouette_split_current.poll s) = Return true ->
      draw_in_view_menu (world s) layout
      = layout ++ [layout_menu VIEW3D_MT_silhouette_menu.bl_idname "Silhouette"]
      /\ VIEW3D_MT_silhouette_menu.draw []
         = [ layout_operator VIEW3D_OT_open_silhouette_split_current.bl_idname
               "Split Here (Front+Right)";
             layout_operator VIEW3D_OT_open_silhouette_view_dual.bl_idname
               "New Window (Front+Right)" ]).
Proof.
  split.
  - intros Hm. apply String.eqb_neq in Hm.
    unfold draw_in_view_menu, VIEW3D_OT_open_silhouette_view_dual.poll,
      VIEW3D_OT_open_silhouette_split_current.poll.
    unfold_py; simpl. rewrite Hm; simpl. auto.
  - intros Hp.
    assert (Hm : context_mode (context (world s)) = OBJECT).
    { destruct Hp as [Hp | Hp].
      - apply dual_poll_true in Hp; destruct Hp; assumption.
      - apply split_poll_true in Hp; destruct Hp as [[Hp _] _]; assumption. }
    unfold draw_in_view_menu. rewrite Hm, String.eqb_refl. split; reflexivity.
Qed.

(** ** Python's [int(n * f)] in binary64 (lines 176-177, 230-231, 263, 358-359, 387) *)

(** [float(n)] for a Python [int]: the nearest double, ties to even;
    [OverflowError] when it is out of range. *)
Definition float_of_int (n : Z) : option float :=
  match binary_normalize prec emax n 0 false with
  | S754_infinity _ => None
  | sf => Some (SF2Prim sf)
  end.

(** [int(f)] for a Python [float]: truncation towards zero; [ValueError] on a
    NaN and [OverflowError] on an infinity. *)
Definition int_of_float (f : float) : option Z :=
  match Prim2SF f with
  | S754_zero _ => Some 0%Z
  | S754_finite s m e =>
      let v := if Z.leb 0 e then (Zpos m * 2 ^ e)%Z else (Zpos m / 2 ^ (- e))%Z in
      Some (if s then (- v)%Z else v)
  | _ => None
  end.

(** [int(n * f)] with [n] an [int] and [f] a [float]. *)
Definition int_mul (n : Z) (f : float) : option Z :=
  match float_of_int n with
  | Some x => int_of_float (x * f)
  | None => None
  end.

Example int_mul_examples :
  int_mul 801 0.5 = Some 400%Z /\ int_mul (-3) 0.5 = Some (-1)%Z
  /\ int_mul 2559 0.25 = Some 639%Z /\ int_mul 3 infinity = None.
Proof. vm_compute. repeat split. Qed.

(** [int_mul n 0.25] and [int_mul n 0.5] agree with the quotients the
    embedding uses, on [count] integers from [start] on. *)
Fixpoint quotients_agree (count : nat) (start : Z) : bool :=
  match count with
  | O => true
  | S k =>
      match int_mul start 0.25, int_mul start 0.5 with
      | Some q, Some h =>
          Z.eqb q (int_mul_quarter start) && Z.eqb h (int_mul_half start)
          && quotients_agree k (start + 1)
      | _, _ => false
      end
  end.

Lemma quotients_agree_sound count : forall start n,
  quotients_agree count start = true ->
  (start <= n < start + Z.of_nat count)%Z ->
  int_mul n 0.25 = Some (int_mul_quarter n) /\ int_mul n 0.5 = Some (int_mul_half n).
Proof.
  induction count as [|k IH]; intros start n H Hn; [ simpl in Hn; lia | ].
  cbn [quotients_agree] in H.
  destruct (int_mul start 0.25) as [q|] eqn:Eq; [ | discriminate ].
  destruct (int_mul start 0.5) as [h|] eqn:Eh; [ | discriminate ].
  apply andb_true_iff in H; destruct H as [H Hk].
  apply andb_true_iff in H; destruct H as [Hq Hh].
  apply Z.eqb_eq in Hq, Hh.
  destruct (Z.eq_dec n start) as [-> | Hne].
  - rewrite Eq, Eh; subst; auto.
  - apply (IH (start + 1)%Z); [ exact Hk | lia ].
Qed.

(** X15.  For every integer from -16384 to 65535, which covers the widths,
    heights and coordinates of windows and areas in pixels, [int(n * 0.25)]
    and [int(n * 0.5)] computed in binary64 as Python does are the integer
    quotients of [n] by 4 and by 2 truncated towards zero: the values the
    operators use for the new window's size and for the fallback cursors. *)
Theorem X15_int_of_scaled_pixels (n : Z) :
  (-16384 <= n <= 65535)%Z ->
  int_mul n 0.25 = Some (int_mul_quarter n) /\ int_mul n 0.5 = Some (int_mul_half n).
Proof.
  intros Hn.
  apply (quotients_agree_sound (Z.to_nat 81920) (-16384)%Z);
    [ vm_compute; reflexivity | rewrite Z2Nat.id; lia ].
Qed.

Lemma X15_witness :
  int_mul 2560 0.25 = Some (int_mul_quarter 2560) /\ int_mul 2560 0.5 = Some (int_mul_half 2560).
Proof. apply X15_int_of_scaled_pixels; lia. Defined.

(** ** [_split_area_and_get_new] (lines 153-197) *)

Section SplitAreaAndGetNew.

Variable host : Host.

(** [area.id_data], the screen that owns the area; the [Area] record of this
    model does not carry it, so it is read off the world by [id_data]. *)
Variable id_data : AreaRef -> World -> option ScreenRef.

(** [max(l, key=lambda a: a.<key>, default=None)] *)
Definition max_area (key : Area -> Z) (l : list AreaRef) : Py (option AreaRef) :=
  keyed <- for_each (fun a => k <- getattr_area key a ;; ret (a, k)) l ;;
  ret (match keyed with k :: ks => Some (max_by_key k ks) | [] => None end).

(** [a.type == area.type] *)
Definition same_type (area a : AreaRef) : Py bool :=
  t <- getattr_area area_type a ;; t0 <- getattr_area area_type area ;; ret (String.eqb t t0).

(** Lines 183-197: which of the screen's areas to return after the split. *)
Definition pick_new_area (area : AreaRef) (direction : string) (before : list AreaRef)
  (screen : ScreenRef) (orig_x orig_y : Z) : Py (option AreaRef) :=
  now <- list_screen_areas (Some screen) ;;
  candidates <- filter_m (fun a => if py_in a before then ret false else same_type area a) now ;;
  candidates <- match candidates with
                | [] => now <- list_screen_areas (Some screen) ;;
                        ret (filter (fun a => negb (py_in a before)) now)
                | _ :: _ => ret candidates
                end ;;
  match candidates with
  | [] =>
      if String.eqb direction VERTICAL then
        now <- list_screen_areas (Some screen) ;;
        rights <- filter_m (fun a => b <- same_type area a ;;
                                     if (b : bool) then x <- getattr_area area_x a ;;
                                                        ret (Z.gtb x orig_x)
                                     else ret false) now ;;
        max_area area_x rights
      else
        now <- list_screen_areas (Some screen) ;;
        uppers <- filter_m (fun a => b <- same_type area a ;;
                                     if (b : bool) then y <- getattr_area area_y a ;;
                                                        ret (Z.gtb y orig_y)
                                     else ret false) now ;;
        max_area area_y uppers
  | _ :: _ =>
      if String.eqb direction VERTICAL then
        pref <- filter_m (fun a => x <- getattr_area area_x a ;; ret (Z.gtb x orig_x))
                         candidates ;;
        m <- max_area area_x (match pref with [] => candidates | _ :: _ => pref end) ;;
        match m with Some a => ret (Some a) | None => raise end
      else
        pref <- filter_m (fun a => y <- getattr_area area_y a ;; ret (Z.gtb y orig_y))
                         candidates ;;
        m <- max_area area_y (match pref with [] => candidates | _ :: _ => pref end) ;;
        match m with Some a => ret (Some a) | None => raise end
  end.

Definition _split_area_and_get_new (win : option WindowRef) (area : AreaRef)
  (direction : string) (factor : float) : Py (option AreaRef) :=
  region_window <- next_window_region area ;;
  match region_window with
  | None => ret None
  | Some region_window =>
  (* Use the owning screen from the area itself *)
  w <- get_world ;;
  match id_data area w with
  | None => ret None
  | Some screen =>
  (* Only pass area+region to area_split *)
  let ov := {| ov_window := None; ov_screen := None;
               ov_area := Some area; ov_region := Some region_window |} in
  before <- list_screen_areas (Some screen) ;;
  orig_x <- getattr_area area_x area ;;
  orig_y <- getattr_area area_y area ;;
  ok <- (try_ (call host (ctx_dict ov) (screen_area_split direction (Some factor) None) ;;
               ret true)
         except_ ret false) ;;
  ok <- (if (ok : bool) then ret true else
         try_ (x <- getattr_area area_x area ;; wd <- getattr_area area_width area ;;
               iw <- not_None (int_mul wd factor) ;;
               let cx := (x + Z.max 1 iw)%Z in
               y <- getattr_area area_y area ;; h <- getattr_area area_height area ;;
               ih <- not_None (int_mul h factor) ;;
               let cy := (y + Z.max 1 ih)%Z in
               call host (ctx_dict ov) (screen_area_split direction None (Some (cx, cy))) ;;
               ret true)
         except_ ret false) ;;
  if negb ok then ret None else
  pick_new_area area direction before screen orig_x orig_y
  end end.

End SplitAreaAndGetNew.

Lemma max_area_inv key l s r s' :
  max_area key l s = (Return r, s') ->
  s' = s /\ (forall a, r = Some a -> In a l) /\ (r = None -> l = []).
Proof.
  unfold max_area; intros H.
  apply bind_Return_inv in H; destruct H as (keyed & s1 & H1 & H).
  apply (for_each_keyed _ (fun _ _ _ => True)) in H1.
  2:{ intros a s2 x s2' Hf. apply bind_Return_inv in Hf; destruct Hf as (k & s3 & Hk & Hf).
      apply getattr_area_inv in Hk; destruct Hk as [-> _].
      apply ret_inv in Hf; destruct Hf as [E ->]; inversion E; auto. }
  destruct H1 as (-> & Ek & _).
  apply ret_inv in H; destruct H as [E ->]; inversion E; subst r; clear E.
  split; [ reflexivity | ].
  destruct keyed as [|k ks]; simpl in Ek; subst l.
  - split; [ discriminate | reflexivity ].
  - split; [ | discriminate ].
    intros a E; inversion E; subst a. apply (max_by_key_In k ks).
Qed.

Lemma filter_m_reads {A} (test : A -> Py bool) (T : A -> Prop) l :
  (forall a s b s', test a s = (Return b, s') -> s' = s /\ (b = true -> T a)) ->
  forall s res s', filter_m test l s = (Return res, s') ->
    s' = s /\ (forall a, In a res -> In a l /\ T a).
Proof.
  intros Ht s res s' H.
  apply (filter_m_spec test (fun a _ => T a)) in H; [ tauto | exact Ht ].
Qed.

Lemma same_type_inv area a s b s' : same_type area a s = (Return b, s') -> s' = s.
Proof.
  unfold same_type; intros H.
  apply bind_Return_inv in H; destruct H as (t & s1 & H1 & H).
  apply getattr_area_inv in H1; destruct H1 as [-> _].
  apply bind_Return_inv in H; destruct H as (t0 & s2 & H2 & H).
  apply getattr_area_inv in H2; destruct H2 as [-> _].
  apply ret_inv in H; tauto.
Qed.

(** The test of a comprehension that filters on an attribute of [a]. *)
Lemma beyond_inv (key : Area -> Z) (orig : Z) a s b s' :
  (k <- getattr_area key a ;; ret (Z.gtb k orig)) s = (Return b, s') -> s' = s.
Proof.
  intros H. apply bind_Return_inv in H; destruct H as (k & s1 & H1 & H).
  apply getattr_area_inv in H1; destruct H1 as [-> _]. apply ret_inv in H; tauto.
Qed.

Lemma same_type_beyond_inv area (key : Area -> Z) (orig : Z) a s b s' :
  (b0 <- same_type area a ;;
   if (b0 : bool) then k <- getattr_area key a ;; ret (Z.gtb k orig) else ret false) s
  = (Return b, s') -> s' = s.
Proof.
  intros H. apply bind_Return_inv in H; destruct H as (b0 & s1 & H1 & H).
  apply same_type_inv in H1; subst s1.
  destruct b0; [ eapply beyond_inv; exact H | apply ret_inv in H; tauto ].
Qed.

(** The part of the function after the split: it only reads. *)
Lemma pick_new_area_inv area direction (before : list AreaRef) scr orig_x orig_y s a s' :
  pick_new_area area direction before scr orig_x orig_y s = (Return (Some a), s') ->
  s' = s
  /\ exists so, screens (world s) scr = Some so
                /\ In a (screen_areas so)
                /\ ((exists b, In b (screen_areas so) /\ ~ In b before) -> ~ In a before).
Proof.
  unfold pick_new_area.
  intros H.
  stepR H now s0 H0.
  apply list_screen_areas_inv in H0; destruct H0 as [-> (r & so & Er & Eso & ->)].
  inversion Er; subst r; clear Er.
  stepR H cands s0 H0.
  apply (filter_m_reads _ (fun a => ~ In a before)) in H0.
  2:{ intros x s1 b s1' Hx. destruct (py_in x before) eqn:Ein.
      - apply ret_inv in Hx; destruct Hx as [E ->]; inversion E; subst b.
        split; [ reflexivity | discriminate ].
      - apply same_type_inv in Hx; split; [ exact Hx | ].
        intros _ Hin; apply py_in_In in Hin; congruence. }
  destruct H0 as (-> & Hc).
  stepR H cands2 s0 H0.
  assert (Hc2 : s0 = s
                /\ (forall x, In x cands2 -> In x (screen_areas so) /\ ~ In x before)
                /\ (cands2 = [] -> forall b, In b (screen_areas so) -> In b before)).
  { destruct cands as [|c cs].
    - stepR H0 now' s1 H1.
      apply list_screen_areas_inv in H1; destruct H1 as [-> (r & so' & Er & Eso' & ->)].
      inversion Er; subst r; clear Er. rewrite Eso in Eso'; inversion Eso'; subst so'.
      apply ret_inv in H0; destruct H0 as [E ->]; inversion E; subst cands2; clear E.
      split; [ reflexivity | split ].
      + intros x Hx; apply filter_In in Hx; destruct Hx as [Hx Hn]; split; [ exact Hx | ].
        intros Hin; apply py_in_In in Hin; rewrite Hin in Hn; discriminate.
      + intros Hnil b Hb.
        destruct (py_in b before) eqn:Eb; [ apply py_in_In; exact Eb | ].
        assert (Hf : In b (filter (fun a0 => negb (py_in a0 before)) (screen_areas so)))
          by (apply filter_In; split; [ exact Hb | rewrite Eb; reflexivity ]).
        rewrite Hnil in Hf; destruct Hf.
    - apply ret_inv in H0; destruct H0 as [E ->]; inversion E; subst cands2; clear E.
      split; [ reflexivity | split; [ exact Hc | discriminate ] ]. }
  destruct Hc2 as (-> & Hnew & Hnone).
  assert (Hlisted : forall test (l res : list AreaRef) s1 s1',
             (forall x s2 b s2', test x s2 = (Return b, s2') -> s2' = s2) ->
             filter_m test l s1 = (Return res, s1') ->
             s1' = s1 /\ forall x, In x res -> In x l).
  { intros test l res s1 s1' Ht Hf.
    apply (filter_m_reads test (fun _ => True)) in Hf.
    - destruct Hf as [-> Hf]; split; [ reflexivity | intros x Hx; apply Hf; exact Hx ].
    - intros x s2 b s2' Hx; split; [ eapply Ht; exact Hx | auto ]. }
  destruct cands2 as [|c2 cs2].
  - assert (Hfall : s' = s /\ In a (screen_areas so)).
    { destruct (String.eqb direction VERTICAL).
      - stepR H now' s1 H1.
        apply list_screen_areas_inv in H1; destruct H1 as [-> (r & so' & Er & Eso' & ->)].
        inversion Er; subst r; clear Er. rewrite Eso in Eso'; inversion Eso'; subst so'.
        stepR H rights s1 H1.
        apply Hlisted in H1; [ | intros x s2 b s2' Hx; eapply same_type_beyond_inv; exact Hx ].
        destruct H1 as [-> Hr].
        apply max_area_inv in H; destruct H as (-> & Hin & _). auto.
      - stepR H now' s1 H1.
        apply list_screen_areas_inv in H1; destruct H1 as [-> (r & so' & Er & Eso' & ->)].
        inversion Er; subst r; clear Er. rewrite Eso in Eso'; inversion Eso'; subst so'.
        stepR H uppers s1 H1.
        apply Hlisted in H1; [ | intros x s2 b s2' Hx; eapply same_type_beyond_inv; exact Hx ].
        destruct H1 as [-> Hr].
        apply max_area_inv in H; destruct H as (-> & Hin & _). auto. }
    destruct Hfall as [-> Hin]; split; [ reflexivity | ].
    exists so; split; [ exact Eso | split; [ exact Hin | ] ].
    intros (b & Hb & Hnb); exfalso; apply Hnb; apply Hnone; auto.
  - assert (Hpick : s' = s /\ In a (c2 :: cs2)).
    { destruct (String.eqb direction VERTICAL).
      - stepR H pref s1 H1.
        apply Hlisted in H1; [ | intros x s2 b s2' Hx; eapply beyond_inv; exact Hx ].
        destruct H1 as [-> Hp].
        stepR H m s1 H1.
        apply max_area_inv in H1; destruct H1 as (-> & Hin & _).
        destruct m as [a'|]; [ | inversion H ].
        apply ret_inv in H; destruct H as [E ->]; inversion E; subst a'; clear E.
        split; [ reflexivity | ].
        specialize (Hin a eq_refl). destruct pref; auto.
      - stepR H pref s1 H1.
        apply Hlisted in H1; [ | intros x s2 b s2' Hx; eapply beyond_inv; exact Hx ].
        destruct H1 as [-> Hp].
        stepR H m s1 H1.
        apply max_area_inv in H1; destruct H1 as (-> & Hin & _).
        destruct m as [a'|]; [ | inversion H ].
        apply ret_inv in H; destruct H as [E ->]; inversion E; subst a'; clear E.
        split; [ reflexivity | ].
        specialize (Hin a eq_refl). destruct pref; auto. }
    destruct Hpick as [-> Hin]; split; [ reflexivity | ].
    destruct (Hnew a Hin) as [Hl Hn].
    exists so; split; [ exact Eso | split; [ exact Hl | intros _; exact Hn ] ].
Qed.

(** A call of [screen.area_split] with the dictionary [{'area': area,
    'region': region}]. *)
Definition dict_split (area : AreaRef) (a : Action) : Prop :=
  exists region op pre ok,
    a = act_call (ctx_dict {| ov_window := None; ov_screen := None;
                              ov_area := Some area; ov_region := Some region |}) op pre ok
    /\ is_area_split op.

(** Lines 168-173: the first attempt. *)
Lemma first_split_spec host ctx op s r s1 :
  (try_ (call host ctx op ;; ret true) except_ ret false) s = (r, s1) ->
  trace s1 = trace s ++ [act_call ctx op (world s) (match r with Return true => true | _ => false end)]
  /\ ((r = Return true /\ bpy_ops host ctx op (world s) = Some (world s1))
      \/ (r = Return false /\ world s1 = world s)).
Proof.
  unfold try_except, bind, call, ret.
  destruct (bpy_ops host ctx op (world s)) as [w|] eqn:E; intros H; inversion H; subst; simpl;
    auto.
Qed.

(** Lines 174-181: the second attempt, at a cursor. *)
Lemma second_split_spec host area ctx direction factor s r s1 :
  (try_ (x <- getattr_area area_x area ;; wd <- getattr_area area_width area ;;
         iw <- not_None (int_mul wd factor) ;;
         let cx := (x + Z.max 1 iw)%Z in
         y <- getattr_area area_y area ;; h <- getattr_area area_height area ;;
         ih <- not_None (int_mul h factor) ;;
         let cy := (y + Z.max 1 ih)%Z in
         call host ctx (screen_area_split direction None (Some (cx, cy))) ;;
         ret true)
   except_ ret false) s = (r, s1) ->
  exists l,
    trace s1 = trace s ++ l
    /\ ((r = Return false /\ world s1 = world s
         /\ (l = [] \/ exists op, is_area_split op /\ l = [act_call ctx op (world s) false]))
        \/ (r = Return true
            /\ exists op, is_area_split op /\ l = [act_call ctx op (world s) true]
                           /\ bpy_ops host ctx op (world s) = Some (world s1))).
Proof.
  intros H; unfold_py.
  break_in H; inversion H; subst; clear H; simpl;
    repeat match goal with
           | E : (_, _) = (_, _) |- _ => inversion E; subst; clear E
           end; simpl.
  all: first [ exists []; rewrite app_nil_r; split; [ reflexivity | ]; left; auto
             | eexists; split; [ reflexivity | ];
               first [ left; split; [ reflexivity | split; [ reflexivity | ] ];
                       right; eexists; split; [ | reflexivity ]; exact Logic.I
                     | right; split; [ reflexivity | ];
                       eexists; split; [ | split; [ reflexivity | eassumption ] ];
                       exact Logic.I ] ].
Qed.

Section SplitAreaAndGetNewProperties.

Variable host : Host.
Variable id_data : AreaRef -> World -> option ScreenRef.

(** X16.  [_split_area_and_get_new] gives up before calling the host when the
    area has no WINDOW region or no owning screen: it returns [None] and
    leaves everything as it was; on an area that no longer exists it raises. *)
Theorem X16_split_area_gives_up_early win area direction factor s :
  (areas (world s) area = None ->
   _split_area_and_get_new host id_data win area direction factor s = (Raise, s))
  /\ (forall o,
        areas (world s) area = Some o ->
        find is_WINDOW (area_regions o) = None
        \/ id_data area (world s) = None ->
        _split_area_and_get_new host id_data win area direction factor s = (Return None, s)).
Proof.
  split.
  - intros E; unfold _split_area_and_get_new, next_window_region.
    unfold bind at 1, bind at 1, getattr_area, the_area, get_world, bind, not_None, ret, raise.
    rewrite E; reflexivity.
  - intros o Eo Hcase; unfold _split_area_and_get_new.
    rewrite (run_bind _ _ _ _ _ (run_next_window_region area o s Eo)).
    destruct (find is_WINDOW (area_regions o)) as [r|]; [ | reflexivity ].
    destruct Hcase as [Hcase | Hcase]; [ discriminate | ].
    rewrite (run_bind _ _ _ _ _ (run_get_world s)), Hcase. reflexivity.
Qed.

(** X17.  An area [_split_area_and_get_new] returns is listed, after the
    split, in the screen that owned the given area; and whenever that screen
    then lists an area it did not list before the split, the returned area is
    one of the new ones. *)
Theorem X17_split_area_returns_a_new_area win area direction factor s a s' :
  _split_area_and_get_new host id_data win area direction factor s = (Return (Some a), s') ->
  exists scr so0 so1,
    id_data area (world s) = Some scr
    /\ screens (world s) scr = Some so0
    /\ screens (world s') scr = Some so1
    /\ In a (screen_areas so1)
    /\ ((exists b, In b (screen_areas so1) /\ ~ In b (screen_areas so0)) ->
        ~ In a (screen_areas so0)).
Proof.
  unfold _split_area_and_get_new; intros H.
  stepR H region s0 H0. apply next_window_region_inv in H0; destruct H0 as [-> _].
  destruct region as [region|]; [ | apply ret_inv in H; destruct H; discriminate ].
  stepR H w s0 H0. apply get_world_inv in H0; destruct H0 as [E ->]; inversion E; subst w; clear E.
  destruct (id_data area (world s)) as [scr|] eqn:Eid;
    [ | apply ret_inv in H; destruct H; discriminate ].
  stepR H before s0 H0.
  apply list_screen_areas_inv in H0; destruct H0 as [-> (r & so0 & Er & Eso0 & ->)].
  inversion Er; subst r; clear Er.
  stepR H orig_x s0 H0. apply getattr_area_inv in H0; destruct H0 as [-> _].
  stepR H orig_y s0 H0. apply getattr_area_inv in H0; destruct H0 as [-> _].
  stepR H ok s1 H1. stepR H ok' s2 H2.
  destruct ok'; simpl in H; [ | apply ret_inv in H; destruct H; discriminate ].
  apply pick_new_area_inv in H; destruct H as (-> & so1 & Eso1 & Hin & Hnew).
  exists scr, so0, so1; auto.
Qed.

(** X18.  [_split_area_and_get_new] calls the host at most twice, each time
    [screen.area_split] with the dictionary of the area and its WINDOW
    region, the second time only after the first call raised; and when no call
    returns, it leaves the world as it was and returns no area. *)
Theorem X18_split_area_attempts win area direction factor s :
  exists l,
    trace (snd (_split_area_and_get_new host id_data win area direction factor s))
    = trace s ++ l
    /\ (List.length l <= 2)%nat
    /\ all_but_last_failed l = true
    /\ Forall (dict_split area) l
    /\ (Forall (fun a => call_ok a = false) l ->
        world (snd (_split_area_and_get_new host id_data win area direction factor s))
        = world s
        /\ forall a,
             fst (_split_area_and_get_new host id_data win area direction factor s)
             <> Return (Some a)).
Proof.
  destruct (_split_area_and_get_new host id_data win area direction factor s) as [r s'] eqn:H.
  simpl.
  assert (Hnil : forall r0, (forall a, r0 <> Return (Some a)) ->
                 (r, s') = (r0, s) ->
                 exists l, trace s' = trace s ++ l /\ (List.length l <= 2)%nat
                           /\ all_but_last_failed l = true /\ Forall (dict_split area) l
                           /\ (Forall (fun a => call_ok a = false) l ->
                               world s' = world s /\ forall a, r <> Return (Some a))).
  { intros r0 Hr0 E; inversion E; subst.
    exists []; rewrite app_nil_r; repeat split; auto. }
  unfold _split_area_and_get_new in H.
  apply bind_inv in H; destruct H as [(region & s0 & H0 & H) | [H0 ->]].
  2:{ apply (Hnil Raise); [ discriminate | ].
      f_equal. eapply pure_next_window_region; exact H0. }
  apply next_window_region_inv in H0; destruct H0 as [-> _].
  destruct region as [region|];
    [ | apply ret_inv in H; destruct H as [-> ->]; apply (Hnil (Return None));
        [ discriminate | reflexivity ] ].
  rewrite (run_bind _ _ _ _ _ (run_get_world s)) in H.
  destruct (id_data area (world s)) as [scr|];
    [ | apply ret_inv in H; destruct H as [-> ->]; apply (Hnil (Return None));
        [ discriminate | reflexivity ] ].
  apply bind_inv in H; destruct H as [(before & s0 & H0 & H) | [H0 ->]].
  2:{ apply (Hnil Raise); [ discriminate | ].
      f_equal. eapply pure_list_screen_areas; exact H0. }
  apply list_screen_areas_inv in H0; destruct H0 as [-> _].
  apply bind_inv in H; destruct H as [(orig_x & s0 & H0 & H) | [H0 ->]].
  2:{ apply (Hnil Raise); [ discriminate | ].
      f_equal. eapply pure_getattr_area; exact H0. }
  apply getattr_area_inv in H0; destruct H0 as [-> _].
  apply bind_inv in H; destruct H as [(orig_y & s0 & H0 & H) | [H0 ->]].
  2:{ apply (Hnil Raise); [ discriminate | ].
      f_equal. eapply pure_getattr_area; exact H0. }
  apply getattr_area_inv in H0; destruct H0 as [-> _].
  clear Hnil.
  set (ctx := ctx_dict {| ov_window := None; ov_screen := None;
                          ov_area := Some area; ov_region := Some region |}) in *.
  apply bind_inv in H; destruct H as [(ok & s1 & H1 & H) | [H1 ->]].
  2:{ apply first_split_spec in H1; destruct H1 as [_ [[E _] | [E _]]]; discriminate. }
  apply first_split_spec in H1; destruct H1 as [T1 W1].
  assert (D1 : dict_split area
                 (act_call ctx (screen_area_split direction (Some factor) None) (world s) ok)).
  { exists region; eexists; eexists; eexists; split; [ reflexivity | exact Logic.I ]. }
  apply bind_inv in H; destruct H as [(ok' & s2 & H2 & H) | [H2 ->]].
  2:{ destruct ok; [ inversion H2 | ].
      apply second_split_spec in H2; destruct H2 as (l & _ & [[E _] | [E _]]); discriminate. }
  assert (Hrest : trace s' = trace s2 /\ world s' = world s2
                  /\ (ok' = false -> r = Return None)).
  { destruct ok'; simpl in H.
    - match type of H with ?m _ = _ =>
        assert (Hp : pure_read m) by (unfold pick_new_area, max_area, same_type; pure_all) end.
      apply Hp in H; subst s'; repeat split; discriminate.
    - apply ret_inv in H; destruct H as [-> ->]; auto. }
  destruct Hrest as (T3 & W3 & Hr). rewrite T3, W3. clear H.
  destruct W1 as [[E1 B1] | [E1 B1]]; inversion E1; subst ok; clear E1.
  - apply ret_inv in H2; destruct H2 as [_ ->].
    eexists; split; [ exact T1 | ].
    split; [ simpl; lia | split; [ reflexivity | split; [ repeat constructor; exact D1 | ] ] ].
    intros F; inversion F as [|? ? Hx _]; discriminate Hx.
  - apply second_split_spec in H2; destruct H2 as (l & T2 & Hcase).
    destruct Hcase as [(E2 & W2 & Hl) | (E2 & op & Hop & -> & B2)];
      inversion E2; subst ok'; clear E2.
    + exists (act_call ctx (screen_area_split direction (Some factor) None) (world s) false
              :: l).
      split; [ rewrite T2, T1, <- app_assoc; reflexivity | ].
      assert (Hl' : (List.length l <= 1)%nat /\ Forall (dict_split area) l).
      { destruct Hl as [-> | (op & Hop & ->)]; simpl; split; auto.
        repeat constructor. exists region, op, (world s1), false; auto. }
      destruct Hl' as [Hlen Hd].
      split; [ simpl; lia | split; [ | split ] ].
      * destruct Hl as [-> | (op & Hop & ->)]; reflexivity.
      * constructor; [ exact D1 | exact Hd ].
      * intros _; split; [ congruence | ].
        intros a; rewrite (Hr eq_refl); discriminate.
    + exists [act_call ctx (screen_area_split direction (Some factor) None) (world s) false;
              act_call ctx op (world s1) true].
      split; [ rewrite T2, T1, <- app_assoc; reflexivity | ].
      split; [ simpl; lia | split; [ reflexivity | split ] ].
      * repeat constructor; [ exact D1 | ]. exists region, op, (world s1), true; auto.
      * intros F; inversion F as [|? ? _ F']; inversion F' as [|? ? Hx _]; discriminate Hx.
Qed.

End SplitAreaAndGetNewProperties.

Definition demo_id_data (a : AreaRef) (w : World) : option ScreenRef := Some 1%nat.

(** A host of the time when operators took a dictionary as their context:
    the demo host, reading the target area from the dictionary. *)
Definition legacy_host : Host :=
  {| bpy_ops := fun ctx op w =>
       demo_ops (match ctx with ctx_dict ov => ctx_temp ov | _ => ctx end) op w;
     temp_override := fun _ _ => false;
     timers_register := fun _ _ _ => true;
     window_writable := fun _ _ _ => true;
     mathutils_Quaternion := mathutils_Quaternion demo_host;
     quat_matmul := demo_matmul |}.

Example demo_split_area_and_get_new :
  fst (_split_area_and_get_new legacy_host demo_id_data (Some 1%nat) 10%nat VERTICAL 0.5
         demo_state) = Return (Some 110%nat)
  /\ fst (_split_area_and_get_new legacy_host demo_id_data (Some 1%nat) 10%nat HORIZONTAL 0.5
            demo_state) = Return (Some 210%nat)
  /\ fst (_split_area_and_get_new demo_host demo_id_data (Some 1%nat) 10%nat VERTICAL 0.5
            demo_state) = Return None.
Proof. vm_compute. repeat split. Qed.

Lemma X17_witness :
  exists scr so0 so1,
    demo_id_data 10%nat (world demo_state) = Some scr
    /\ screens (world demo_state) scr = Some so0
    /\ screens (world (snd (_split_area_and_get_new legacy_host demo_id_data (Some 1%nat)
                              10%nat VERTICAL 0.5 demo_state))) scr = Some so1
    /\ In 110%nat (screen_areas so1)
    /\ ((exists b, In b (screen_areas so1) /\ ~ In b (screen_areas so0)) ->
        ~ In 110%nat (screen_areas so0)).
Proof.
  apply (X17_split_area_returns_a_new_area legacy_host demo_id_data (Some 1%nat) 10%nat
           VERTICAL 0.5%float demo_state 110%nat).
  apply pair_eta_fst. vm_compute. reflexivity.
Defined.

(** ** Which area [_split_area_and_get_new] prefers *)

(** [a.<key>] in world [w], for an area that exists. *)
Definition key_of (w : World) (key : Area -> Z) (a : AreaRef) : Z :=
  match areas w a with Some o => key o | None => 0%Z end.

Lemma max_by_key_greatest {A} (f : A -> Z) (l : list A) : forall best,
  In (max_by_key (best, f best) (map (fun a => (a, f a)) l)) (best :: l)
  /\ forall b, In b (best :: l) ->
               (f b <= f (max_by_key (best, f best) (map (fun a => (a, f a)) l)))%Z.
Proof.
  induction l as [|y l IH]; intros best; simpl.
  - split; [ auto | intros b [<- | []]; lia ].
  - destruct (Z.ltb_spec (f best) (f y)) as [Hlt | Hge].
    + destruct (IH y) as [Hin Hmax]; split.
      * destruct Hin as [<- | Hin]; auto.
      * intros b [<- | [<- | Hb]].
        -- specialize (Hmax y (or_introl eq_refl)); lia.
        -- apply Hmax; left; reflexivity.
        -- apply Hmax; right; exact Hb.
    + destruct (IH best) as [Hin Hmax]; split.
      * destruct Hin as [<- | Hin]; auto.
      * intros b [<- | [<- | Hb]].
        -- apply Hmax; left; reflexivity.
        -- specialize (Hmax best (or_introl eq_refl)); lia.
        -- apply Hmax; right; exact Hb.
Qed.

Lemma for_each_key_run key l s keyed s' :
  for_each (fun a => k <- getattr_area key a ;; ret (a, k)) l s = (Return keyed, s') ->
  s' = s /\ keyed = map (fun a => (a, key_of (world s) key a)) l
  /\ Forall (fun a => areas (world s) a <> None) l.
Proof.
  revert s keyed s'; induction l as [|x l IH]; simpl; intros s keyed s' H.
  - apply ret_inv in H; destruct H as [E ->]; inversion E; auto.
  - apply bind_Return_inv in H; destruct H as (y & s1 & H1 & H).
    apply bind_Return_inv in H1; destruct H1 as (k & s2 & Hk & H1).
    apply getattr_area_inv in Hk; destruct Hk as [-> (o & Eo & ->)].
    apply ret_inv in H1; destruct H1 as [E ->]; inversion E; subst y; clear E.
    apply bind_Return_inv in H; destruct H as (ys & s2 & H2 & H).
    apply IH in H2; destruct H2 as (-> & -> & Hall).
    apply ret_inv in H; destruct H as [E ->]; inversion E; subst keyed; clear E.
    split; [ reflexivity | split ].
    + assert (K : key_of (world s) key x = key o) by (unfold key_of; rewrite Eo; reflexivity).
      simpl; rewrite K; reflexivity.
    + constructor; [ congruence | exact Hall ].
Qed.

Lemma max_area_greatest key l s a s' :
  max_area key l s = (Return (Some a), s') ->
  s' = s /\ In a l /\ areas (world s) a <> None
  /\ forall b, In b l -> (key_of (world s) key b <= key_of (world s) key a)%Z.
Proof.
  unfold max_area; intros H.
  apply bind_Return_inv in H; destruct H as (keyed & s1 & H1 & H).
  apply for_each_key_run in H1; destruct H1 as (-> & -> & Hall).
  apply ret_inv in H; destruct H as [E ->].
  destruct l as [|x l]; simpl in E; [ discriminate | ].
  inversion E; subst a; clear E.
  destruct (max_by_key_greatest (key_of (world s) key) l x) as [Hin Hmax].
  split; [ reflexivity | split; [ exact Hin | split; [ | exact Hmax ] ] ].
  rewrite Forall_forall in Hall; apply Hall; exact Hin.
Qed.

Lemma filter_beyond_run key orig l s res s' :
  filter_m (fun a => k <- getattr_area key a ;; ret (Z.gtb k orig)) l s = (Return res, s') ->
  s' = s /\ res = filter (fun a => Z.gtb (key_of (world s) key a) orig) l.
Proof.
  revert s res s'; induction l as [|x l IH]; simpl; intros s res s' H.
  - apply ret_inv in H; destruct H as [E ->]; inversion E; auto.
  - apply bind_Return_inv in H; destruct H as (b & s1 & H1 & H).
    apply bind_Return_inv in H1; destruct H1 as (k & s2 & Hk & H1).
    apply getattr_area_inv in Hk; destruct Hk as [-> (o & Eo & ->)].
    apply ret_inv in H1; destruct H1 as [E ->]; inversion E; subst b; clear E.
    apply bind_Return_inv in H; destruct H as (r0 & s2 & H2 & H).
    apply IH in H2; destruct H2 as (-> & ->).
    apply ret_inv in H; destruct H as [E ->]; inversion E; subst res; clear E.
    split; [ reflexivity | ].
    assert (K : key_of (world s) key x = key o) by (unfold key_of; rewrite Eo; reflexivity).
    simpl; rewrite K; reflexivity.
Qed.

(** Lines 193-197: [max(pref or candidates, key=...)] with [pref] the
    candidates beyond the original position. *)
Lemma preferred_max_spec key orig cands s a s' :
  (pref <- filter_m (fun a => k <- getattr_area key a ;; ret (Z.gtb k orig)) cands ;;
   m <- max_area key (match pref with [] => cands | _ :: _ => pref end) ;;
   match m with Some a => ret (Some a) | None => raise end) s = (Return (Some a), s') ->
  s' = s /\ In a cands /\ areas (world s) a <> None
  /\ forall b, In b cands -> (key_of (world s) key b > orig)%Z ->
               (key_of (world s) key a > orig)%Z
               /\ (key_of (world s) key b <= key_of (world s) key a)%Z.
Proof.
  intros H.
  apply bind_Return_inv in H; destruct H as (pref & s1 & H1 & H).
  apply filter_beyond_run in H1; destruct H1 as (-> & ->).
  apply bind_Return_inv in H; destruct H as (m & s1 & H1 & H).
  destruct m as [a'|]; [ | inversion H ].
  apply ret_inv in H; destruct H as [E ->]; inversion E; subst a'; clear E.
  apply max_area_greatest in H1; destruct H1 as (-> & Hin & Hex & Hmax).
  split; [ reflexivity | ].
  destruct (filter (fun a0 => Z.gtb (key_of (world s) key a0) orig) cands) as [|p ps] eqn:Ef.
  - split; [ exact Hin | split; [ exact Hex | ] ].
    intros b Hb Hgt. exfalso.
    assert (Hf : In b (filter (fun a0 => Z.gtb (key_of (world s) key a0) orig) cands)).
    { apply filter_In; split; [ exact Hb | apply Z.gtb_lt; lia ]. }
    rewrite Ef in Hf; destruct Hf.
  - rewrite <- Ef in Hin, Hmax.
    apply filter_In in Hin; destruct Hin as [Hin Hg]. apply Z.gtb_lt in Hg.
    split; [ exact Hin | split; [ exact Hex | ] ].
    intros b Hb Hgt; split; [ lia | ].
    apply Hmax, filter_In; split; [ exact Hb | apply Z.gtb_lt; lia ].
Qed.

(** [a.type] in world [w]. *)
Definition type_of (w : World) (a : AreaRef) : string :=
  match areas w a with Some o => area_type o | None => EmptyString end.

Lemma filter_new_same_type_run area (before : list AreaRef) l s res s' :
  filter_m (fun a => if py_in a before then ret false else same_type area a) l s
  = (Return res, s') ->
  s' = s
  /\ res = filter (fun a => negb (py_in a before)
                            && String.eqb (type_of (world s) a) (type_of (world s) area)) l.
Proof.
  revert s res s'; induction l as [|x l IH]; simpl; intros s res s' H.
  - apply ret_inv in H; destruct H as [E ->]; inversion E; auto.
  - apply bind_Return_inv in H; destruct H as (b & s1 & H1 & H).
    assert (Hb : s1 = s
                 /\ b = negb (py_in x before)
                        && String.eqb (type_of (world s) x) (type_of (world s) area)).
    { destruct (py_in x before); simpl.
      - apply ret_inv in H1; destruct H1 as [E ->]; inversion E; auto.
      - unfold same_type in H1.
        apply bind_Return_inv in H1; destruct H1 as (t & s2 & Ht & H1).
        apply getattr_area_inv in Ht; destruct Ht as [-> (o & Eo & ->)].
        apply bind_Return_inv in H1; destruct H1 as (t0 & s2 & Ht & H1).
        apply getattr_area_inv in Ht; destruct Ht as [-> (o0 & Eo0 & ->)].
        apply ret_inv in H1; destruct H1 as [E ->]; inversion E; subst b.
        unfold type_of; rewrite Eo, Eo0; auto. }
    destruct Hb as [-> ->].
    apply bind_Return_inv in H; destruct H as (r0 & s2 & H2 & H).
    apply IH in H2; destruct H2 as (-> & ->).
    apply ret_inv in H; destruct H as [E ->]; inversion E; subst res; auto.
Qed.

Lemma pick_preferred_inv area direction (before : list AreaRef) scr orig_x orig_y s a s' :
  pick_new_area area direction before scr orig_x orig_y s = (Return (Some a), s') ->
  forall so b,
    screens (world s) scr = Some so ->
    In b (screen_areas so) -> ~ In b before ->
    type_of (world s) b = type_of (world s) area ->
    let key := if String.eqb direction VERTICAL then area_x else area_y in
    let orig := if String.eqb direction VERTICAL then orig_x else orig_y in
    (key_of (world s) key b > orig)%Z ->
    s' = s
    /\ (key_of (world s) key a > orig)%Z
    /\ (key_of (world s) key b <= key_of (world s) key a)%Z
    /\ ~ In a before
    /\ type_of (world s) a = type_of (world s) area.
Proof.
  intros H so b Eso Hb Hnew Htype key orig Hgt; unfold pick_new_area in H.
  stepR H now s0 H0.
  apply list_screen_areas_inv in H0; destruct H0 as [-> (r & so' & Er & Eso' & ->)].
  inversion Er; subst r; clear Er. rewrite Eso in Eso'; inversion Eso'; subst so'; clear Eso'.
  stepR H cands s0 H0.
  apply filter_new_same_type_run in H0; destruct H0 as (-> & Ec).
  assert (Hbc : In b cands).
  { rewrite Ec; apply filter_In; split; [ exact Hb | ].
    apply andb_true_iff; split.
    - destruct (py_in b before) eqn:E; [ apply py_in_In in E; contradiction | reflexivity ].
    - rewrite Htype; apply String.eqb_refl. }
  assert (Hall : forall x, In x cands ->
                   ~ In x before /\ type_of (world s) x = type_of (world s) area).
  { intros x Hx; rewrite Ec in Hx; apply filter_In in Hx; destruct Hx as [_ Hx].
    apply andb_true_iff in Hx; destruct Hx as [Hn Ht]; split.
    - intros Hin; apply py_in_In in Hin; rewrite Hin in Hn; discriminate.
    - apply String.eqb_eq; exact Ht. }
  clear Ec.
  destruct cands as [|c cs]; [ destruct Hbc | ].
  rewrite (run_bind (ret (c :: cs)) _ s (c :: cs) s eq_refl) in H. cbv iota in H.
  subst key orig.
  destruct (String.eqb direction VERTICAL).
  - apply preferred_max_spec in H; destruct H as (-> & Hin & _ & Hmax).
    destruct (Hmax b Hbc Hgt) as [G1 G2]. destruct (Hall a Hin) as [N1 N2]. auto.
  - apply preferred_max_spec in H; destruct H as (-> & Hin & _ & Hmax).
    destruct (Hmax b Hbc Hgt) as [G1 G2]. destruct (Hall a Hin) as [N1 N2]. auto.
Qed.

Section SplitAreaPrefers.

Variable host : Host.
Variable id_data : AreaRef -> World -> option ScreenRef.

(** X19.  As its docstring says, [_split_area_and_get_new] returns the area
    to the right (VERTICAL) or above (otherwise): whenever, after the split,
    the owning screen lists a new area of the given area's type whose x (or
    y) is greater than the given area's was, the area returned is such a new
    area, and none of them has a greater x (or y). *)
Theorem X19_split_area_returns_the_far_side win area direction factor s a s' :
  _split_area_and_get_new host id_data win area direction factor s = (Return (Some a), s') ->
  forall scr so0 so1 b,
    id_data area (world s) = Some scr ->
    screens (world s) scr = Some so0 ->
    screens (world s') scr = Some so1 ->
    In b (screen_areas so1) -> ~ In b (screen_areas so0) ->
    type_of (world s') b = type_of (world s') area ->
    let key := if String.eqb direction VERTICAL then area_x else area_y in
    (key_of (world s') key b > key_of (world s) key area)%Z ->
    (key_of (world s') key a > key_of (world s) key area)%Z
    /\ (key_of (world s') key b <= key_of (world s') key a)%Z
    /\ ~ In a (screen_areas so0)
    /\ type_of (world s') a = type_of (world s') area.
Proof.
  intros H scr so0 so1 b Eid Eso0 Eso1 Hb Hnew Htype key Hgt;
  unfold _split_area_and_get_new in H.
  stepR H region s0 H0. apply next_window_region_inv in H0; destruct H0 as [-> _].
  destruct region as [region|]; [ | apply ret_inv in H; destruct H; discriminate ].
  stepR H w s0 H0. apply get_world_inv in H0; destruct H0 as [E ->]; inversion E; subst w; clear E.
  rewrite Eid in H.
  stepR H before s0 H0.
  apply list_screen_areas_inv in H0; destruct H0 as [-> (r & so0' & Er & Eso0' & ->)].
  inversion Er; subst r; clear Er. rewrite Eso0 in Eso0'; inversion Eso0'; subst so0'.
  stepR H orig_x s0 H0. apply getattr_area_inv in H0; destruct H0 as [-> (o & Eo & ->)].
  stepR H orig_y s0 H0. apply getattr_area_inv in H0; destruct H0 as [-> (o' & Eo' & ->)].
  rewrite Eo in Eo'; inversion Eo'; subst o'; clear Eo'.
  stepR H ok s1 H1. stepR H ok' s2 H2.
  destruct ok'; simpl in H; [ | apply ret_inv in H; destruct H; discriminate ].
  assert (Es : s' = s2).
  { apply pick_new_area_inv in H; tauto. }
  subst s2.
  assert (Korig : key_of (world s) key area
                  = if String.eqb direction VERTICAL then area_x o else area_y o).
  { unfold key_of, key; rewrite Eo; destruct (String.eqb direction VERTICAL); reflexivity. }
  rewrite Korig in *.
  destruct (pick_preferred_inv _ _ _ _ _ _ _ _ _ H so1 b Eso1 Hb Hnew Htype Hgt)
    as (_ & G1 & G2 & G3 & G4).
  auto.
Qed.

End SplitAreaPrefers.

Lemma X19_witness :
  let s' := snd (_split_area_and_get_new legacy_host demo_id_data (Some 1%nat) 10%nat
                   VERTICAL 0.5 demo_state) in
  (key_of (world s') area_x 110%nat > key_of (world demo_state) area_x 10%nat)%Z
  /\ (key_of (world s') area_x 110%nat <= key_of (world s') area_x 110%nat)%Z
  /\ ~ In 110%nat [10%nat]
  /\ type_of (world s') 110%nat = type_of (world s') 10%nat.
Proof.
  intros s'.
  apply (X19_split_area_returns_the_far_side legacy_host demo_id_data (Some 1%nat) 10%nat
           VERTICAL 0.5%float demo_state 110%nat s'
           (pair_eta_fst _ _ eq_refl)
           1%nat
           {| screen_areas := [10%nat]; show_statusbar := true |}
           {| screen_areas := [10%nat; 110%nat]; show_statusbar := true |}
           110%nat).
  - reflexivity.
  - vm_compute; reflexivity.
  - vm_compute; reflexivity.
  - simpl; right; left; reflexivity.
  - simpl; intros [H | []]; discriminate H.
  - vm_compute; reflexivity.
  - vm_compute; reflexivity.
Defined.
